(** * Demo-chatbot: the streaming message relay and its WebSocket fan-out

    A shallow embedding of [server/routes.ts], [server/storage.ts],
    [server/openai.ts], the parts of [shared/schema.ts] they rely on, and
    the client's file checks and frame handler.

    - JavaScript [Map]s are finite maps ([gmap]); plain objects whose keys are
      inspected dynamically (the settings row, JSON bodies) are [gmap string].
    - [async] handlers are state transformers on the server state.  Whatever
      the outside world decides (the clock read by [new Date()], the random
      connection id, the result of [parseInt] on a path parameter, the
      outcome of the upstream completion call) is an argument of the
      transformer.
    - every [ws.send] is recorded in a per-socket list of frames.
    - a handler is followed from its first statement to its last without
      another handler running in between.
    - the upload middleware in front of the message route is a function of
      the file parts of the form; the route is the middleware followed by
      the handler.
    - validation by the zod schemas derived from the tables is reduced to
      what it decides for the values the handlers pass in: presence and type
      of each known key, and the 32-bit range of an integer column. *)

From stdpp Require Import gmap strings list fin_maps sorting.

Local Open Scope Z_scope.

(** ** JavaScript values and truthiness *)

(** Scalar JSON values, as stored in the settings row and carried by request
    bodies.  An absent key ([undefined]) is [None] at the lookup. *)
Inductive JVal :=
  | JNull
  | JBool (b : bool)
  | JNum (n : Z)
  | JStr (s : string).

#[global] Instance JVal_eq_dec : EqDecision JVal.
Proof. solve_decision. Defined.

(** [Boolean(s)] for a string: only the empty string is falsy. *)
Definition truthy_string (s : string) : bool :=
  match s with
  | EmptyString => false
  | String _ _ => true
  end.

(** [Boolean(v)] for a possibly undefined scalar. *)
Definition truthy (v : option JVal) : bool :=
  match v with
  | None => false
  | Some JNull => false
  | Some (JBool b) => b
  | Some (JNum n) => negb (Z.eqb n 0)
  | Some (JStr s) => truthy_string s
  end.

(** [Boolean(process.env.X)]: an environment variable is a string or unset. *)
Definition truthy_env (v : option string) : bool :=
  match v with
  | None => false
  | Some s => truthy_string s
  end.

(** [process.env], restricted to the variables the server reads. *)
Record Env := {
  OPENAI_API_KEY : option string;
  OPENAI_API_URL : option string;
  OPENAI_API_HEADERS : option string
}.

(** ** shared/schema.ts *)

Record FileAttachment := {
  fa_name : string;
  fa_type : string;
  fa_content : string
}.

Module Bot.
Record t := mk {
  id : Z;
  name : string;
  avatar : string;
  color : string;
  description : option string;
  model : string;
  createdAt : Z
}.
End Bot.

Module Chat.
Record t := mk {
  id : Z;
  botId : Z;
  title : string;
  createdAt : Z
}.
End Chat.

Module Message.
Record t := mk {
  id : Z;
  chatId : Z;
  content : string;
  role : string;
  createdAt : Z;
  files : option (list FileAttachment)
}.
End Message.

(** [InsertMessage]: what [insertMessageSchema] yields. *)
Module InsertMessage.
Record t := mk {
  chatId : Z;
  content : string;
  role : string;
  files : option (list FileAttachment)
}.
End InsertMessage.

(** [Partial<InsertMessage>]: every key may be absent. *)
Module PartialMessage.
Record t := mk {
  chatId : option Z;
  content : option string;
  role : option string;
  files : option (option (list FileAttachment))
}.

(** The object literal [{ content: c }] used by the relay. *)
Definition only_content (c : string) : t :=
  mk None (Some c) None None.
End PartialMessage.

(** The settings row is handled as a plain object: it is spread, destructured
    with a rest pattern and serialised key by key. *)
Abbreviation Settings := (gmap string JVal).

(** ** server/storage.ts: MemStorage *)

Module MemStorage.

Record t := mk {
  bots : gmap Z Bot.t;
  chats : gmap Z Chat.t;
  messages : gmap Z Message.t;
  settings : option Settings;
  botCurrentId : Z;
  chatCurrentId : Z;
  messageCurrentId : Z
}.

Definition with_messages (ms : gmap Z Message.t) (next : Z) (s : t) : t :=
  mk (bots s) (chats s) ms (settings s)
     (botCurrentId s) (chatCurrentId s) next.

Definition with_settings (v : option Settings) (s : t) : t :=
  mk (bots s) (chats s) (messages s) v
     (botCurrentId s) (chatCurrentId s) (messageCurrentId s).

Definition default_settings : Settings :=
  <["id" := JNum 1]>
  (<["apiKey" := JStr ""]>
  (<["apiUrl" := JStr "https://api.openai.com/v1"]>
  (<["tokenLimit" := JNum 4000]>
  (<["temperature" := JStr "0.7"]>
  (<["topK" := JStr "0.5"]>
  (<["useStreamingApi" := JBool true]>
  (<["customApiHeaders" := JStr ""]>
  (<["hasApiKey" := JBool false]> ∅)))))))).

(** The constructor; [now] is the reading of [new Date()]. *)
Definition create (now : Z) : t :=
  let defaultBot :=
    Bot.mk 1 "AI Assistant" "A" "#0078D4"
           (Some "General AI Assistant") "gpt-4o" now in
  mk (<[1 := defaultBot]> ∅) ∅ ∅ (Some default_settings) 2 1 1.

Definition getBot (id : Z) (s : t) : option Bot.t := bots s !! id.

Definition getChat (id : Z) (s : t) : option Chat.t := chats s !! id.

Definition createChat (botId : Z) (title : string) (now : Z) (s : t)
  : Chat.t * t :=
  let id := chatCurrentId s in
  let chat := Chat.mk id botId title now in
  (chat,
   mk (bots s) (<[id := chat]> (chats s)) (messages s) (settings s)
      (botCurrentId s) (id + 1) (messageCurrentId s)).

Definition getMessage (id : Z) (s : t) : option Message.t :=
  messages s !! id.

Definition createMessage (ins : InsertMessage.t) (now : Z) (s : t)
  : Message.t * t :=
  let id := messageCurrentId s in
  let message :=
    Message.mk id (InsertMessage.chatId ins) (InsertMessage.content ins)
               (InsertMessage.role ins) now (InsertMessage.files ins) in
  (message, with_messages (<[id := message]> (messages s)) (id + 1) s).

(** [{ ...message, ...messageUpdate }] *)
Definition spread_message (m : Message.t) (u : PartialMessage.t)
  : Message.t :=
  Message.mk (Message.id m)
             (default (Message.chatId m) (PartialMessage.chatId u))
             (default (Message.content m) (PartialMessage.content u))
             (default (Message.role m) (PartialMessage.role u))
             (Message.createdAt m)
             (default (Message.files m) (PartialMessage.files u)).

Definition updateMessage (id : Z) (u : PartialMessage.t) (s : t)
  : option Message.t * t :=
  match messages s !! id with
  | None => (None, s)
  | Some message =>
      let updatedMessage := spread_message message u in
      (Some updatedMessage,
       with_messages (<[id := updatedMessage]> (messages s))
                     (messageCurrentId s) s)
  end.

Definition deleteMessage (id : Z) (s : t) : bool * t :=
  (bool_decide (is_Some (messages s !! id)),
   with_messages (delete id (messages s)) (messageCurrentId s) s).

Definition getSettings (s : t) : option Settings := settings s.

(** [{ ...this.settings!, ...settingsUpdate }]; spreading [undefined]
    contributes no key. *)
Definition updateSettings (u : Settings) (s : t) : Settings * t :=
  let merged := u ∪ default ∅ (settings s) in
  (merged, with_settings (Some merged) s).

End MemStorage.

(** ** server/routes.ts: the WebSocket clients map *)

(** [ws.readyState] *)
Inductive ReadyState := CONNECTING | OPEN | CLOSING | CLOSED.

#[global] Instance ReadyState_eq_dec : EqDecision ReadyState.
Proof. solve_decision. Defined.

(** The JSON text frames the server writes to a socket. *)
Inductive Frame :=
  | MessageUpdate (messageId : Z) (content : string)
  | MessageComplete (messageId : Z) (message : option Message.t)
  | MessageEdited (messageId : Z) (message : option Message.t)
  | MessageError (messageId : Z) (error : string).

(** A socket: its state and everything [send] was called with, oldest
    first. *)
Record WebSocket := {
  readyState : ReadyState;
  sent : list Frame
}.

(** [type Client = { ws: WebSocket; chatId?: number }] *)
Record Client := {
  ws : WebSocket;
  chatId : option Z
}.

(** [ws.send(frame)] *)
Definition send (f : Frame) (w : WebSocket) : WebSocket :=
  {| readyState := readyState w; sent := sent w ++ [f] |}.

(** The condition of every broadcast loop:
    [client.chatId === chatId && client.ws.readyState === WebSocket.OPEN]. *)
Definition receives (chat : Z) (c : Client) : bool :=
  bool_decide (chatId c = Some chat) && bool_decide (readyState (ws c) = OPEN).

(** One iteration of a broadcast loop. *)
Definition deliver (chat : Z) (f : Frame) (c : Client) : Client :=
  if receives chat c then {| ws := send f (ws c); chatId := chatId c |} else c.

(** [for (const [clientId, client] of clients.entries()) { ... }]: the
    iterations touch disjoint sockets, so the loop is a map over the entries. *)
Definition broadcast (chat : Z) (f : Frame) (clients : gmap string Client)
  : gmap string Client :=
  deliver chat f <$> clients.

(** What a socket delivers to its [message] listener, after [JSON.parse]:
    a join request (whose [chatId] may be missing) or anything else,
    including text that does not parse. *)
Inductive Inbound :=
  | Join (chatId : option Z)
  | Ignored.

(** [wss.on('connection', ...)]; [id] is the random connection id. *)
Definition on_connection (id : string) (clients : gmap string Client)
  : gmap string Client :=
  <[id := {| ws := {| readyState := OPEN; sent := [] |}; chatId := None |}]>
    clients.

(** [ws.on('message', ...)] *)
Definition on_message (id : string) (data : Inbound)
  (clients : gmap string Client) : gmap string Client :=
  match data with
  | Join chat =>
      match clients !! id with
      | Some client => <[id := {| ws := ws client; chatId := chat |}]> clients
      | None => clients
      end
  | Ignored => clients
  end.

(** [ws.on('close', ...)] *)
Definition on_close (id : string) (clients : gmap string Client)
  : gmap string Client :=
  delete id clients.

(** ** The server state *)

(** The two module-level singletons, [storage] and [clients], together with
    a history of the broadcast loops that were run: one entry, the chat and
    the frame, per loop.  No code reads the history. *)
Record Server := {
  storage : MemStorage.t;
  clients : gmap string Client;
  published : list (Z * Frame)
}.

(** A broadcast loop run on the server state. *)
Definition publish (chat : Z) (f : Frame) (st : Server) : Server :=
  {| storage := storage st;
     clients := broadcast chat f (clients st);
     published := published st ++ [(chat, f)] |}.

Definition set_storage (s : MemStorage.t) (st : Server) : Server :=
  {| storage := s; clients := clients st; published := published st |}.

(** ** HTTP responses *)

Inductive Body :=
  | BError (message : string)
  | BExchange (userMessage botMessage : Message.t)
  | BMessage (message : option Message.t)
  | BObject (fields : gmap string JVal).

Record Response := {
  status : Z;
  body : Body
}.

Definition respond (code : Z) (b : Body) : Response :=
  {| status := code; body := b |}.

(** ** POST /api/chats/:chatId/messages *)

(** A file as multer hands it over; [buffer_base64] is
    [file.buffer.toString('base64')]. *)
Record UploadedFile := {
  originalname : string;
  mimetype : string;
  buffer_base64 : string
}.

(** The request as the handler sees it: [param_chatId] is the result of
    [parseInt(req.params.chatId)] ([None] for [NaN]), [body_content] is
    [req.body.content] ([None] when the form has no such field), [req_files]
    is [req.files], the files the upload middleware let through (see
    [upload_array] and [postMessageRoute] for the route as a whole). *)
Record PostMessageRequest := {
  param_chatId : option Z;
  body_content : option string;
  req_files : list UploadedFile
}.

Definition to_attachment (file : UploadedFile) : FileAttachment :=
  {| fa_name := originalname file;
     fa_type := mimetype file;
     fa_content := buffer_base64 file |}.

(** [insertMessageSchema.safeParse(messageData)] on the object the handler
    builds: [chatId] is a number, the id of a chat found in the store, and
    [role] the literal ['user'], so the outcome hangs on [content] being a
    string.  Any string passes, the empty one included. *)
Definition insertMessageSchema_safeParse
  (chat : Z) (content : option string) (role : string)
  (files : option (list FileAttachment)) : option InsertMessage.t :=
  match content with
  | Some c => Some (InsertMessage.mk chat c role files)
  | None => None
  end.

(** [settings?.apiKey || process.env.OPENAI_API_KEY], as a condition. *)
Definition hasApiKey (settings : option Settings) (env : Env) : bool :=
  truthy (settings ≫= (.!! "apiKey")) || truthy_env (OPENAI_API_KEY env).

(** What the background part of the handler keeps in its closure. *)
Record Exchange := {
  ex_chatId : Z;
  ex_messageId : Z
}.

(** The handler, the function the route runs after the upload middleware,
    up to and including the moment a response is sent.  [t_user] and [t_bot] are the clock readings of the two [createMessage]
    calls.  The third component is present exactly when the handler goes on
    to stream a completion. *)
Definition postMessage (env : Env) (req : PostMessageRequest)
  (t_user t_bot : Z) (st : Server) : Response * Server * option Exchange :=
  match param_chatId req with
  | None => (respond 400 (BError "Invalid chat ID"), st, None)
  | Some chat_id =>
      match MemStorage.getChat chat_id (storage st) with
      | None => (respond 404 (BError "Chat not found"), st, None)
      | Some chat =>
          let fileAttachments := to_attachment <$> req_files req in
          let files :=
            match fileAttachments with
            | [] => None
            | _ :: _ => Some fileAttachments
            end in
          match insertMessageSchema_safeParse
                  chat_id (body_content req) "user" files with
          | None => (respond 400 (BError "Invalid message data"), st, None)
          | Some data =>
              let '(message, s1) :=
                MemStorage.createMessage data t_user (storage st) in
              let settings := MemStorage.getSettings s1 in
              if negb (hasApiKey settings env) then
                (respond 400 (BError
                   "API key not configured in settings or environment variables (.env)"),
                 set_storage s1 st, None)
              else
                match MemStorage.getBot (Chat.botId chat) s1 with
                | None =>
                    (respond 404 (BError "Bot not found"),
                     set_storage s1 st, None)
                | Some bot =>
                    let '(responseMessage, s2) :=
                      MemStorage.createMessage
                        (InsertMessage.mk chat_id "" "assistant" None)
                        t_bot s1 in
                    (respond 201 (BExchange message responseMessage),
                     set_storage s2 st,
                     Some {| ex_chatId := chat_id;
                             ex_messageId := Message.id responseMessage |})
                end
          end
      end
  end.

(** *** The streaming part of the handler *)

(** [chunk.choices[0]?.delta?.content]: a string, or nothing. *)
Definition Chunk := option string.

Inductive StreamEnd :=
  | Done     (* the iterator is exhausted *)
  | Failed.  (* the iterator throws *)

(** What [await createChatCompletion(...)] amounts to for the handler. *)
Inductive Upstream :=
  | Rejected                  (* the call throws *)
  | Whole                     (* a completion object, which cannot be iterated *)
  | Streamed (chunks : list Chunk) (e : StreamEnd).

(** [settings?.useStreamingApi !== false], passed to the completion call as
    [stream].  With [stream: false] the call returns a completion object,
    [Whole], never a stream. *)
Definition useStreaming (settings : option Settings) : bool :=
  negb (bool_decide (settings ≫= (.!! "useStreamingApi") = Some (JBool false))).

Definition fallback_content : string :=
  "Sorry, I had trouble generating a response. Please try again.".

(** [storage.updateMessage(responseMessage.id, { content })] on the server
    state. *)
Definition persist (ex : Exchange) (c : string) (st : Server)
  : option Message.t * Server :=
  let '(m, s) :=
    MemStorage.updateMessage (ex_messageId ex)
      (PartialMessage.only_content c) (storage st) in
  (m, set_storage s st).

(** [chunk.choices[0]?.delta?.content || ""] *)
Definition delta_text (chunk : Chunk) : string := default "" chunk.

(** The body of [for await (const chunk of stream)]; the first component is
    [fullContent]. *)
Definition relay_chunk (ex : Exchange) (acc : string * Server) (chunk : Chunk)
  : string * Server :=
  let content := delta_text chunk in
  if truthy_string content then
    let fullContent := acc.1 +:+ content in
    let st1 := (persist ex fullContent acc.2).2 in
    (fullContent,
     publish (ex_chatId ex) (MessageUpdate (ex_messageId ex) fullContent) st1)
  else acc.

Definition relay_loop (ex : Exchange) (chunks : list Chunk)
  (acc : string * Server) : string * Server :=
  foldl (relay_chunk ex) acc chunks.

(** The final update and the completion broadcast. *)
Definition relay_complete (ex : Exchange) (fullContent : string) (st : Server)
  : Server :=
  let '(finalMessage, st1) := persist ex fullContent st in
  publish (ex_chatId ex) (MessageComplete (ex_messageId ex) finalMessage) st1.

(** The [catch] block of the streaming [try]. *)
Definition relay_catch (ex : Exchange) (st : Server) : Server :=
  let st1 := (persist ex fallback_content st).2 in
  publish (ex_chatId ex)
          (MessageError (ex_messageId ex) "Error generating response") st1.

(** Everything the handler does after the response was sent. *)
Definition relay (ex : Exchange) (up : Upstream) (st : Server) : Server :=
  match up with
  | Rejected => relay_catch ex st
  | Whole => relay_catch ex st
  | Streamed chunks e =>
      let '(fullContent, st1) := relay_loop ex chunks ("", st) in
      match e with
      | Done => relay_complete ex fullContent st1
      | Failed => relay_catch ex st1
      end
  end.

(** The whole handler: the response, the state when it was sent, the state
    when the handler is finished. *)
Definition handle_postMessage (env : Env) (req : PostMessageRequest)
  (t_user t_bot : Z) (up : Upstream) (st : Server)
  : Response * Server * Server :=
  let '(res, st1, ex) := postMessage env req t_user t_bot st in
  match ex with
  | Some ex => (res, st1, relay ex up st1)
  | None => (res, st1, st1)
  end.

(** ** PATCH /api/messages/:id *)

(** The JSON body, key by key ([None]: key absent). *)
Record PatchMessageBody := {
  pb_chatId : option JVal;
  pb_content : option JVal;
  pb_role : option JVal;
  pb_files : option (option (list FileAttachment))
}.

(** A key that may be absent but, when present, has to pass [check]. *)
Definition parse_optional {A} (check : JVal → option A) (v : option JVal)
  : option (option A) :=
  match v with
  | None => Some None
  | Some x => Some <$> check x
  end.

(** A JSON number; [JVal] has the whole numbers only. *)
Definition number_of (v : JVal) : option Z :=
  match v with JNum n => Some n | _ => None end.

(** The values the schema of an [integer(...)] column takes: the insert
    schemas of shared/schema.ts are derived from the tables, and for an
    integer column the derived schema is a whole number within the range of
    a 32-bit integer. *)
Definition int32 (n : Z) : bool :=
  (-2147483648 <=? n) && (n <=? 2147483647).

(** The check of an integer column ([chatId], [botId]). *)
Definition as_number (v : JVal) : option Z :=
  match v with
  | JNum n => if int32 n then Some n else None
  | _ => None
  end.

Definition as_string (v : JVal) : option string :=
  match v with JStr s => Some s | _ => None end.

(** [insertMessageSchema.partial().safeParse(req.body)] *)
Definition insertMessageSchema_partial_safeParse (b : PatchMessageBody)
  : option PartialMessage.t :=
  chat ← parse_optional as_number (pb_chatId b);
  content ← parse_optional as_string (pb_content b);
  role ← parse_optional as_string (pb_role b);
  Some (PartialMessage.mk chat content role (pb_files b)).

(** [param_id] is [parseInt(req.params.id)]. *)
Definition patchMessage (param_id : option Z) (b : PatchMessageBody)
  (st : Server) : Response * Server :=
  match param_id with
  | None => (respond 400 (BError "Invalid message ID"), st)
  | Some id =>
      match MemStorage.getMessage id (storage st) with
      | None => (respond 404 (BError "Message not found"), st)
      | Some message =>
          match insertMessageSchema_partial_safeParse b with
          | None => (respond 400 (BError "Invalid message data"), st)
          | Some data =>
              let '(updatedMessage, s1) :=
                MemStorage.updateMessage id data (storage st) in
              (respond 200 (BMessage updatedMessage),
               publish (Message.chatId message)
                       (MessageEdited id updatedMessage)
                       (set_storage s1 st))
          end
      end
  end.

(** ** GET and PATCH /api/settings *)

Inductive FieldType := TString | TInt | TBool.

(** Every settings column is nullable; an integer column ([tokenLimit])
    takes the numbers of the 32-bit range. *)
Definition accepts (ty : FieldType) (v : JVal) : bool :=
  match v, ty with
  | JNull, _ => true
  | JStr _, TString => true
  | JNum n, TInt => int32 n
  | JBool _, TBool => true
  | _, _ => false
  end.

Definition insertSettingsSchema : list (string * FieldType) :=
  [ ("apiKey", TString); ("apiUrl", TString); ("tokenLimit", TInt);
    ("temperature", TString); ("topK", TString);
    ("useStreamingApi", TBool); ("customApiHeaders", TString);
    ("hasApiKey", TBool) ].

(** [insertSettingsSchema.partial().safeParse(req.body)]: known keys are
    type-checked when present, unknown keys are dropped. *)
Definition insertSettingsSchema_partial_safeParse (b : gmap string JVal)
  : option (gmap string JVal) :=
  if forallb (λ '(k, ty),
        match b !! k with
        | None => true
        | Some v => accepts ty v
        end) insertSettingsSchema
  then Some (list_to_map
               (omap (λ '(k, _), (λ v, (k, v)) <$> b !! k)
                     insertSettingsSchema))
  else None.

(** The object passed to [res.json] by both settings routes:
    [{ ...safeSettings, hasApiKey, envApiUrl, hasEnvApiHeaders }] after
    [const { apiKey, ...safeSettings } = settings].  A key whose value is
    [undefined] is not serialised. *)
Definition safe_settings_body (env : Env) (settings : Settings)
  : gmap string JVal :=
  let apiKey := settings !! "apiKey" in
  let safeSettings := delete "apiKey" settings in
  let hasEnvApiKey := truthy_env (OPENAI_API_KEY env) in
  let envApiUrl := OPENAI_API_URL env in
  let hasEnvApiHeaders := truthy_env (OPENAI_API_HEADERS env) in
  let o1 := <["hasApiKey" := JBool (truthy apiKey || hasEnvApiKey)]>
              safeSettings in
  let o2 :=
    match envApiUrl with
    | Some url =>
        if truthy_string url then <["envApiUrl" := JStr url]> o1
        else delete "envApiUrl" o1
    | None => delete "envApiUrl" o1
    end in
  <["hasEnvApiHeaders" := JBool hasEnvApiHeaders]> o2.

Definition getSettingsRoute (env : Env) (st : Server) : Response :=
  match MemStorage.getSettings (storage st) with
  | None => respond 404 (BError "Settings not found")
  | Some settings => respond 200 (BObject (safe_settings_body env settings))
  end.

Definition patchSettingsRoute (env : Env) (b : gmap string JVal)
  (st : Server) : Response * Server :=
  match insertSettingsSchema_partial_safeParse b with
  | None => (respond 400 (BError "Invalid settings data"), st)
  | Some data =>
      let '(settings, s1) := MemStorage.updateSettings data (storage st) in
      (respond 200 (BObject (safe_settings_body env settings)),
       set_storage s1 st)
  end.

(** ** The clients map under a run of events

    Node runs one listener at a time; none of the three socket listeners and
    none of the broadcast loops awaits anything, so each is one step. *)
Inductive HubEvent :=
  | HConnect (id : string)
  | HMessage (id : string) (data : Inbound)
  | HClose (id : string)
  | HBroadcast (chat : Z) (f : Frame).

Definition hub_step (cl : gmap string Client) (e : HubEvent)
  : gmap string Client :=
  match e with
  | HConnect id => on_connection id cl
  | HMessage id data => on_message id data cl
  | HClose id => on_close id cl
  | HBroadcast chat f => broadcast chat f cl
  end.

Definition hub_run (evs : list HubEvent) (cl : gmap string Client)
  : gmap string Client :=
  foldl hub_step cl evs.

(** A run of broadcast loops, oldest first. *)
Definition broadcast_all (evs : list (Z * Frame)) (cl : gmap string Client)
  : gmap string Client :=
  foldl (λ cl e, broadcast e.1 e.2 cl) cl evs.

(** ** server/storage.ts: the other methods of MemStorage *)

(** [Array.prototype.sort] is stable, so for a comparator that compares one
    key its result is that of a stable insertion sort.  [le a b] says that
    the comparator, called on [a] and [b], is not positive. *)
Fixpoint insert_by {A} (le : A → A → bool) (x : A) (l : list A) : list A :=
  match l with
  | [] => [x]
  | y :: l' => if le x y then x :: l else y :: insert_by le x l'
  end.

Definition sort_by {A} (le : A → A → bool) (l : list A) : list A :=
  foldr (insert_by le) [] l.

(** [Array.from(map.values())].  A [Map] iterates in insertion order, and
    every key of the three maps was inserted with the value the running
    counter had, so insertion order is the order of the keys. *)
Definition values_by_id {A} (m : gmap Z A) : list A :=
  (sort_by (λ a b : Z * A, a.1 <=? b.1) (map_to_list m)).*2.

Module InsertBot.
Record t := mk {
  name : string;
  avatar : string;
  color : string;
  description : option string;
  model : string
}.
End InsertBot.

Module PartialBot.
Record t := mk {
  name : option string;
  avatar : option string;
  color : option string;
  description : option (option string);
  model : option string
}.
End PartialBot.

Module PartialChat.
Record t := mk {
  botId : option Z;
  title : option string
}.
End PartialChat.

(** [Partial<InsertMessage>] spread over another: [{ ...u1, ...u2 }]. *)
Definition spread_partial (u1 u2 : PartialMessage.t) : PartialMessage.t :=
  PartialMessage.mk
    (from_option Some (PartialMessage.chatId u1) (PartialMessage.chatId u2))
    (from_option Some (PartialMessage.content u1) (PartialMessage.content u2))
    (from_option Some (PartialMessage.role u1) (PartialMessage.role u2))
    (from_option Some (PartialMessage.files u1) (PartialMessage.files u2)).

Module Storage.

Definition with_bots (bs : gmap Z Bot.t) (next : Z) (s : MemStorage.t)
  : MemStorage.t :=
  MemStorage.mk bs (MemStorage.chats s) (MemStorage.messages s)
    (MemStorage.settings s) next (MemStorage.chatCurrentId s)
    (MemStorage.messageCurrentId s).

Definition with_chats (cs : gmap Z Chat.t) (s : MemStorage.t)
  : MemStorage.t :=
  MemStorage.mk (MemStorage.bots s) cs (MemStorage.messages s)
    (MemStorage.settings s) (MemStorage.botCurrentId s)
    (MemStorage.chatCurrentId s) (MemStorage.messageCurrentId s).

Definition getBots (s : MemStorage.t) : list Bot.t :=
  values_by_id (MemStorage.bots s).

Definition createBot (ins : InsertBot.t) (now : Z) (s : MemStorage.t)
  : Bot.t * MemStorage.t :=
  let id := MemStorage.botCurrentId s in
  let bot :=
    Bot.mk id (InsertBot.name ins) (InsertBot.avatar ins)
           (InsertBot.color ins) (InsertBot.description ins)
           (InsertBot.model ins) now in
  (bot, with_bots (<[id := bot]> (MemStorage.bots s)) (id + 1) s).

(** [{ ...bot, ...botUpdate }] *)
Definition spread_bot (b : Bot.t) (u : PartialBot.t) : Bot.t :=
  Bot.mk (Bot.id b)
         (default (Bot.name b) (PartialBot.name u))
         (default (Bot.avatar b) (PartialBot.avatar u))
         (default (Bot.color b) (PartialBot.color u))
         (default (Bot.description b) (PartialBot.description u))
         (default (Bot.model b) (PartialBot.model u))
         (Bot.createdAt b).

Definition updateBot (id : Z) (u : PartialBot.t) (s : MemStorage.t)
  : option Bot.t * MemStorage.t :=
  match MemStorage.bots s !! id with
  | None => (None, s)
  | Some bot =>
      let updatedBot := spread_bot bot u in
      (Some updatedBot,
       with_bots (<[id := updatedBot]> (MemStorage.bots s))
                 (MemStorage.botCurrentId s) s)
  end.

Definition deleteBot (id : Z) (s : MemStorage.t) : bool * MemStorage.t :=
  (bool_decide (is_Some (MemStorage.bots s !! id)),
   with_bots (delete id (MemStorage.bots s)) (MemStorage.botCurrentId s) s).

(** Newest first: the comparator is [b.createdAt - a.createdAt]. *)
Definition getChatsByBotId (botId : Z) (s : MemStorage.t) : list Chat.t :=
  sort_by (λ a b, Chat.createdAt b <=? Chat.createdAt a)
    (List.filter (λ chat, bool_decide (Chat.botId chat = botId))
       (values_by_id (MemStorage.chats s))).

(** [{ ...chat, ...chatUpdate }] *)
Definition spread_chat (c : Chat.t) (u : PartialChat.t) : Chat.t :=
  Chat.mk (Chat.id c)
          (default (Chat.botId c) (PartialChat.botId u))
          (default (Chat.title c) (PartialChat.title u))
          (Chat.createdAt c).

Definition updateChat (id : Z) (u : PartialChat.t) (s : MemStorage.t)
  : option Chat.t * MemStorage.t :=
  match MemStorage.chats s !! id with
  | None => (None, s)
  | Some chat =>
      let updatedChat := spread_chat chat u in
      (Some updatedChat, with_chats (<[id := updatedChat]> (MemStorage.chats s)) s)
  end.

Definition deleteChat (id : Z) (s : MemStorage.t) : bool * MemStorage.t :=
  (bool_decide (is_Some (MemStorage.chats s !! id)),
   with_chats (delete id (MemStorage.chats s)) s).

(** Oldest first: the comparator is [a.createdAt - b.createdAt]. *)
Definition getMessagesByChatId (chatId : Z) (s : MemStorage.t)
  : list Message.t :=
  sort_by (λ a b, Message.createdAt a <=? Message.createdAt b)
    (List.filter (λ message, bool_decide (Message.chatId message = chatId))
       (values_by_id (MemStorage.messages s))).

End Storage.

(** The calls a caller can make on the store, and a run of them. *)
Inductive StorageOp :=
  | OpCreateBot (ins : InsertBot.t) (now : Z)
  | OpUpdateBot (id : Z) (u : PartialBot.t)
  | OpDeleteBot (id : Z)
  | OpCreateChat (botId : Z) (title : string) (now : Z)
  | OpUpdateChat (id : Z) (u : PartialChat.t)
  | OpDeleteChat (id : Z)
  | OpCreateMessage (ins : InsertMessage.t) (now : Z)
  | OpUpdateMessage (id : Z) (u : PartialMessage.t)
  | OpDeleteMessage (id : Z)
  | OpUpdateSettings (u : Settings).

Definition apply_op (s : MemStorage.t) (op : StorageOp) : MemStorage.t :=
  match op with
  | OpCreateBot ins now => (Storage.createBot ins now s).2
  | OpUpdateBot id u => (Storage.updateBot id u s).2
  | OpDeleteBot id => (Storage.deleteBot id s).2
  | OpCreateChat botId title now => (MemStorage.createChat botId title now s).2
  | OpUpdateChat id u => (Storage.updateChat id u s).2
  | OpDeleteChat id => (Storage.deleteChat id s).2
  | OpCreateMessage ins now => (MemStorage.createMessage ins now s).2
  | OpUpdateMessage id u => (MemStorage.updateMessage id u s).2
  | OpDeleteMessage id => (MemStorage.deleteMessage id s).2
  | OpUpdateSettings u => (MemStorage.updateSettings u s).2
  end.

Definition apply_ops (ops : list StorageOp) (s : MemStorage.t)
  : MemStorage.t :=
  foldl apply_op s ops.

(** ** server/routes.ts: the bot, chat and message-list routes *)

(** What these routes answer: [res.status(code).json(payload)], an error
    [res.status(code).json({ message })], or [res.status(code).end()]. *)
Inductive Reply (A : Type) :=
  | Json (code : Z) (payload : A)
  | Refusal (code : Z) (message : string)
  | NoContent (code : Z).
Arguments Json {A} code payload.
Arguments Refusal {A} code message.
Arguments NoContent {A} code.

(** The JSON body of POST and PATCH /api/bots, key by key. *)
Record BotBody := {
  bb_name : option JVal;
  bb_avatar : option JVal;
  bb_color : option JVal;
  bb_description : option JVal;
  bb_model : option JVal
}.

(** A key that has to be present and pass [check]. *)
Definition parse_required {A} (check : JVal → option A) (v : option JVal)
  : option A :=
  v ≫= check.

(** A nullable string column. *)
Definition as_nullable_string (v : JVal) : option (option string) :=
  match v with
  | JNull => Some None
  | JStr s => Some (Some s)
  | _ => None
  end.

(** [insertBotSchema.safeParse(req.body)]: [description] may be absent or
    [null], the other four are strings. *)
Definition insertBotSchema_safeParse (b : BotBody) : option InsertBot.t :=
  name ← parse_required as_string (bb_name b);
  avatar ← parse_required as_string (bb_avatar b);
  color ← parse_required as_string (bb_color b);
  description ← parse_optional as_nullable_string (bb_description b);
  model ← parse_required as_string (bb_model b);
  Some (InsertBot.mk name avatar color (mjoin description) model).

(** [insertBotSchema.partial().safeParse(req.body)] *)
Definition insertBotSchema_partial_safeParse (b : BotBody)
  : option PartialBot.t :=
  name ← parse_optional as_string (bb_name b);
  avatar ← parse_optional as_string (bb_avatar b);
  color ← parse_optional as_string (bb_color b);
  description ← parse_optional as_nullable_string (bb_description b);
  model ← parse_optional as_string (bb_model b);
  Some (PartialBot.mk name avatar color description model).

(** The JSON body of POST /api/chats. *)
Record ChatBody := {
  cb_botId : option JVal;
  cb_title : option JVal
}.

(** [insertChatSchema.safeParse(req.body)] *)
Definition insertChatSchema_safeParse (b : ChatBody) : option (Z * string) :=
  botId ← parse_required as_number (cb_botId b);
  title ← parse_required as_string (cb_title b);
  Some (botId, title).

Definition getBotsRoute (st : Server) : Reply (list Bot.t) :=
  Json 200 (Storage.getBots (storage st)).

Definition postBotRoute (b : BotBody) (now : Z) (st : Server)
  : Reply Bot.t * Server :=
  match insertBotSchema_safeParse b with
  | None => (Refusal 400 "Invalid bot data", st)
  | Some data =>
      let '(bot, s1) := Storage.createBot data now (storage st) in
      (Json 201 bot, set_storage s1 st)
  end.

(** [param_id] is [parseInt(req.params.id)] in this and the next routes. *)
Definition getBotRoute (param_id : option Z) (st : Server) : Reply Bot.t :=
  match param_id with
  | None => Refusal 400 "Invalid bot ID"
  | Some id =>
      match MemStorage.getBot id (storage st) with
      | None => Refusal 404 "Bot not found"
      | Some bot => Json 200 bot
      end
  end.

Definition patchBotRoute (param_id : option Z) (b : BotBody) (st : Server)
  : Reply (option Bot.t) * Server :=
  match param_id with
  | None => (Refusal 400 "Invalid bot ID", st)
  | Some id =>
      match MemStorage.getBot id (storage st) with
      | None => (Refusal 404 "Bot not found", st)
      | Some bot =>
          match insertBotSchema_partial_safeParse b with
          | None => (Refusal 400 "Invalid bot data", st)
          | Some data =>
              let '(updatedBot, s1) := Storage.updateBot id data (storage st) in
              (Json 200 updatedBot, set_storage s1 st)
          end
      end
  end.

Definition deleteBotRoute (param_id : option Z) (st : Server)
  : Reply unit * Server :=
  match param_id with
  | None => (Refusal 400 "Invalid bot ID", st)
  | Some id =>
      let '(deleted, s1) := Storage.deleteBot id (storage st) in
      if negb deleted then (Refusal 404 "Bot not found", set_storage s1 st)
      else (NoContent 204, set_storage s1 st)
  end.

(** GET /api/chats.  [query_botId] is [None] when [req.query.botId] is
    missing or empty and otherwise the result of [parseInt] on it. *)
Definition getChatsRoute (query_botId : option (option Z)) (st : Server)
  : Reply (list Chat.t) :=
  match query_botId with
  | Some None => Refusal 400 "Invalid bot ID"
  | Some (Some botId) => Json 200 (Storage.getChatsByBotId botId (storage st))
  | None =>
      Json 200
        (mjoin ((λ bot, Storage.getChatsByBotId (Bot.id bot) (storage st))
                  <$> Storage.getBots (storage st)))
  end.

Definition postChatRoute (b : ChatBody) (now : Z) (st : Server)
  : Reply Chat.t * Server :=
  match insertChatSchema_safeParse b with
  | None => (Refusal 400 "Invalid chat data", st)
  | Some (botId, title) =>
      match MemStorage.getBot botId (storage st) with
      | None => (Refusal 400 "Bot not found", st)
      | Some bot =>
          let '(chat, s1) :=
            MemStorage.createChat botId title now (storage st) in
          (Json 201 chat, set_storage s1 st)
      end
  end.

Definition getChatRoute (param_id : option Z) (st : Server) : Reply Chat.t :=
  match param_id with
  | None => Refusal 400 "Invalid chat ID"
  | Some id =>
      match MemStorage.getChat id (storage st) with
      | None => Refusal 404 "Chat not found"
      | Some chat => Json 200 chat
      end
  end.

Definition deleteChatRoute (param_id : option Z) (st : Server)
  : Reply unit * Server :=
  match param_id with
  | None => (Refusal 400 "Invalid chat ID", st)
  | Some id =>
      let '(deleted, s1) := Storage.deleteChat id (storage st) in
      if negb deleted then (Refusal 404 "Chat not found", set_storage s1 st)
      else (NoContent 204, set_storage s1 st)
  end.

(** GET /api/chats/:chatId/messages *)
Definition getMessagesRoute (param : option Z) (st : Server)
  : Reply (list Message.t) :=
  match param with
  | None => Refusal 400 "Invalid chat ID"
  | Some chatId =>
      match MemStorage.getChat chatId (storage st) with
      | None => Refusal 404 "Chat not found"
      | Some chat =>
          Json 200 (Storage.getMessagesByChatId chatId (storage st))
      end
  end.

(** ** server/openai.ts

    A header object is the list of its entries in enumeration order; two
    such objects give the same [JSON.stringify] text exactly when the lists
    are equal.  Header names are taken not to be array indices and header
    values to be strings.  [JSON.parse] is a parameter: the text of a header
    set either parses to one or throws (a text that parses to something else
    counts for the entries a spread of it has). *)

Definition Headers := list (string * string).

(** [a || b] on strings that may be undefined. *)
Definition or_else (a b : option string) : option string :=
  if truthy_env a then a else b.

(** [h[k]] *)
Fixpoint header (k : string) (h : Headers) : option string :=
  match h with
  | [] => None
  | (k', v) :: rest => if String.eqb k k' then Some v else header k rest
  end.

(** [{ ...base, ...over }]: the entries of [base] in place, with the values
    of [over] where it has the name, then the entries only [over] has. *)
Definition spread_headers (base over : Headers) : Headers :=
  ((λ e : string * string, (e.1, default e.2 (header e.1 over))) <$> base)
  ++ List.filter (λ e : string * string,
                    negb (bool_decide (is_Some (header e.1 base)))) over.

(** The [config] handed to [new OpenAI]; a client is identified with it. *)
Record OpenAIConfig := {
  cfg_apiKey : string;
  cfg_baseURL : string;
  cfg_defaultHeaders : option Headers
}.

(** [lastConfig], whose keys are all missing at start. *)
Record LastConfig := {
  last_apiKey : option string;
  last_apiUrl : option string;
  last_customHeaders : option Headers
}.

(** The two module-level variables of openai.ts. *)
Record ClientCache := {
  openaiClient : option OpenAIConfig;
  lastConfig : LastConfig
}.

Definition empty_cache : ClientCache :=
  {| openaiClient := None;
     lastConfig := {| last_apiKey := None; last_apiUrl := None;
                      last_customHeaders := None |} |}.

(** What an [async] function of openai.ts comes to. *)
Inductive Outcome (A : Type) :=
  | Returned (a : A)
  | Thrown (message : string).
Arguments Returned {A} a.
Arguments Thrown {A} message.

Section openai.
Variable JSON_parse : string → option Headers.

Definition getOpenAIClient (env : Env) (apiKey apiUrl : option string)
  (customHeaders : option Headers) (cache : ClientCache)
  : Outcome OpenAIConfig * ClientCache :=
  match or_else apiKey (OPENAI_API_KEY env) with
  | None =>
      (Thrown "API key is required. Set OPENAI_API_KEY in .env or provide it directly.",
       cache)
  | Some finalApiKey =>
      if negb (truthy_string finalApiKey) then
        (Thrown "API key is required. Set OPENAI_API_KEY in .env or provide it directly.",
         cache)
      else
        let finalApiUrl :=
          default "https://api.openai.com/v1"
            (or_else (or_else apiUrl (OPENAI_API_URL env))
                     (Some "https://api.openai.com/v1")) in
        let mergedHeaders := default [] customHeaders in
        let mergedHeaders :=
          if truthy_env (OPENAI_API_HEADERS env) then
            match OPENAI_API_HEADERS env ≫= JSON_parse with
            | Some envHeaders => spread_headers envHeaders mergedHeaders
            | None => mergedHeaders
            end
          else mergedHeaders in
        let needsReinit :=
          negb (bool_decide (is_Some (openaiClient cache)))
          || negb (bool_decide (Some finalApiKey = last_apiKey (lastConfig cache)))
          || negb (bool_decide (Some finalApiUrl = last_apiUrl (lastConfig cache)))
          || negb (bool_decide
                     (Some mergedHeaders = last_customHeaders (lastConfig cache))) in
        let cache1 :=
          if needsReinit then
            {| openaiClient :=
                 Some {| cfg_apiKey := finalApiKey;
                         cfg_baseURL := finalApiUrl;
                         cfg_defaultHeaders :=
                           match mergedHeaders with
                           | [] => None
                           | _ :: _ => Some mergedHeaders
                           end |};
               lastConfig :=
                 {| last_apiKey := Some finalApiKey;
                    last_apiUrl := Some finalApiUrl;
                    last_customHeaders := Some mergedHeaders |} |}
          else cache in
        match openaiClient cache1 with
        | None => (Thrown "Failed to initialize OpenAI client", cache1)
        | Some client => (Returned client, cache1)
        end
  end.

(** [options.customHeaders] of [createChatCompletion]: missing, a text or an
    object. *)
Inductive CustomHeaders :=
  | NoHeaders
  | HeaderText (text : string)
  | HeaderObject (h : Headers).

(** The first lines of [createChatCompletion] and [processFileContent]: a
    text that does not parse is dropped with a warning. *)
Definition parse_custom_headers (c : CustomHeaders) : option Headers :=
  match c with
  | NoHeaders => None
  | HeaderText text => if truthy_string text then JSON_parse text else None
  | HeaderObject h => Some h
  end.

Record ChatTurn := {
  turn_role : string;
  turn_content : string
}.

(** The callback of [messages.map] in [createChatCompletion]. *)
Definition coerce_role (msg : ChatTurn) : ChatTurn :=
  if String.eqb (turn_role msg) "user" then
    {| turn_role := "user"; turn_content := turn_content msg |}
  else if String.eqb (turn_role msg) "assistant" then
    {| turn_role := "assistant"; turn_content := turn_content msg |}
  else if String.eqb (turn_role msg) "system" then
    {| turn_role := "system"; turn_content := turn_content msg |}
  else
    {| turn_role := "user"; turn_content := turn_content msg |}.

(** The options of [createChatCompletion]; [Num] is the type of JavaScript
    numbers, which are only passed on. *)
Record CompletionOptions (Num : Type) := {
  opt_model : option string;
  opt_temperature : option Num;
  opt_max_tokens : option Num;
  opt_top_p : option Num;
  opt_apiUrl : option string;
  opt_customHeaders : CustomHeaders;
  opt_useStreaming : option bool
}.
Arguments opt_model {Num}.
Arguments opt_temperature {Num}.
Arguments opt_max_tokens {Num}.
Arguments opt_top_p {Num}.
Arguments opt_apiUrl {Num}.
Arguments opt_customHeaders {Num}.
Arguments opt_useStreaming {Num}.

(** The argument of [client.chat.completions.create]. *)
Record CompletionRequest (Num : Type) := {
  rq_model : string;
  rq_messages : list ChatTurn;
  rq_temperature : option Num;
  rq_max_tokens : option Num;
  rq_top_p : option Num;
  rq_stream : bool
}.
Arguments rq_model {Num}.
Arguments rq_messages {Num}.
Arguments rq_temperature {Num}.
Arguments rq_max_tokens {Num}.
Arguments rq_top_p {Num}.
Arguments rq_stream {Num}.

(** [createChatCompletion] up to the call it makes: the client it calls and
    the request it passes, or the error it throws before calling. *)
Definition createChatCompletion {Num} (env : Env) (apiKey : option string)
  (messages : list ChatTurn) (options : CompletionOptions Num)
  (cache : ClientCache)
  : Outcome (OpenAIConfig * CompletionRequest Num) * ClientCache :=
  let customHeaders := parse_custom_headers (opt_customHeaders options) in
  match getOpenAIClient env apiKey (opt_apiUrl options) customHeaders cache with
  | (Thrown e, cache1) => (Thrown e, cache1)
  | (Returned client, cache1) =>
      let model := default "gpt-4o" (or_else (opt_model options) (Some "gpt-4o")) in
      let useStreaming :=
        negb (bool_decide (opt_useStreaming options = Some false)) in
      (Returned
         (client,
          {| rq_model := model;
             rq_messages := coerce_role <$> messages;
             rq_temperature := opt_temperature options;
             rq_max_tokens := opt_max_tokens options;
             rq_top_p := opt_top_p options;
             rq_stream := useStreaming |}),
       cache1)
  end.

End openai.

Arguments Returned {A} a.
Arguments Thrown {A} message.
Arguments opt_model {Num}.
Arguments opt_temperature {Num}.
Arguments opt_max_tokens {Num}.
Arguments opt_top_p {Num}.
Arguments opt_apiUrl {Num}.
Arguments opt_customHeaders {Num}.
Arguments opt_useStreaming {Num}.
Arguments rq_model {Num}.
Arguments rq_messages {Num}.
Arguments rq_temperature {Num}.
Arguments rq_max_tokens {Num}.
Arguments rq_top_p {Num}.
Arguments rq_stream {Num}.

(** ** server/routes.ts: what the message handler sends upstream

    The lines of the handler between the key check and the streaming loop
    that build the arguments of [createChatCompletion].  JavaScript numbers
    and the built-ins that make them are parameters, and so is the decoding
    of an attachment, [Buffer.from(content, 'base64').toString('utf-8')].
    The values of the settings row have the types of their columns. *)

(** The line feed. *)
Definition nl : string :=
  String (Ascii.Ascii false true false true false false false false) "".

(** A string column of the settings row: its text, unless [null]. *)
Definition setting_text (settings : option Settings) (k : string)
  : option string :=
  (settings ≫= (.!! k)) ≫= as_string.

Section dispatch.
Context {Num : Type}.
Variables (parseFloat : string → Num) (number : Z → Num).
Variables (point7 point5 : Num).
Variable utf8_of_base64 : string → string.

(** [fileContentPrompt] *)
Definition fileContentPrompt (fileAttachments : list FileAttachment)
  : string :=
  match fileAttachments with
  | [] => ""
  | _ :: _ =>
      foldl (λ prompt file,
               prompt +:+ "File: " +:+ fa_name file +:+ nl +:+ nl
               +:+ utf8_of_base64 (fa_content file) +:+ nl +:+ nl)
            ("The user has shared the following files:" +:+ nl +:+ nl)
            fileAttachments
      +:+ "Please analyze these files and respond to the user's message."
  end.

(** The system message put in front of the history. *)
Definition system_turn (bot : Bot.t) (fileAttachments : list FileAttachment)
  : ChatTurn :=
  {| turn_role := "system";
     turn_content :=
       "You are " +:+ Bot.name bot +:+ ", "
       +:+ default "an AI assistant"
             (or_else (Bot.description bot) (Some "an AI assistant"))
       +:+ ". " +:+ fileContentPrompt fileAttachments |}.

(** [messages] after the [unshift]; [s1] is the store once the user message
    is in it. *)
Definition upstream_messages (chat_id : Z) (bot : Bot.t)
  (fileAttachments : list FileAttachment) (s1 : MemStorage.t)
  : list ChatTurn :=
  system_turn bot fileAttachments
  :: ((λ m, {| turn_role := Message.role m; turn_content := Message.content m |})
        <$> Storage.getMessagesByChatId chat_id s1).

(** The [apiKey] argument: [settings?.apiKey || process.env.OPENAI_API_KEY || '']. *)
Definition upstream_key (settings : option Settings) (env : Env) : string :=
  default ""
    (or_else (or_else (setting_text settings "apiKey") (OPENAI_API_KEY env))
             (Some "")).

(** The [options] argument. *)
Definition upstream_options (settings : option Settings) (env : Env)
  (bot : Bot.t) : CompletionOptions Num :=
  {| opt_model :=
       Some (if truthy_string (Bot.model bot) then Bot.model bot else "gpt-4o");
     opt_temperature :=
       Some (match setting_text settings "temperature" with
             | Some t => if truthy_string t then parseFloat t else point7
             | None => point7
             end);
     opt_max_tokens :=
       Some (match (settings ≫= (.!! "tokenLimit")) ≫= number_of with
             | Some n => if Z.eqb n 0 then number 4000 else number n
             | None => number 4000
             end);
     opt_top_p :=
       Some (match setting_text settings "topK" with
             | Some t => if truthy_string t then parseFloat t else point5
             | None => point5
             end);
     opt_apiUrl :=
       Some (default "https://api.openai.com/v1"
               (or_else (or_else (setting_text settings "apiUrl")
                                 (OPENAI_API_URL env))
                        (Some "https://api.openai.com/v1")));
     opt_customHeaders :=
       match setting_text settings "customApiHeaders" with
       | Some text => if truthy_string text then HeaderText text else NoHeaders
       | None => NoHeaders
       end;
     opt_useStreaming := Some (useStreaming settings) |}.

(** The call itself, for a request that got as far as the placeholder: the
    user message [data] is stored first, the history is read, and the call
    is made once the response was sent. *)
Definition upstream_call (JSON_parse : string → option Headers) (env : Env)
  (chat_id : Z) (bot : Bot.t) (data : InsertMessage.t) (t_user : Z)
  (st : Server) (cache : ClientCache)
  : Outcome (OpenAIConfig * CompletionRequest Num) * ClientCache :=
  let s1 := (MemStorage.createMessage data t_user (storage st)).2 in
  let settings := MemStorage.getSettings s1 in
  createChatCompletion JSON_parse env (Some (upstream_key settings env))
    (upstream_messages chat_id bot (default [] (InsertMessage.files data)) s1)
    (upstream_options settings env bot) cache.

End dispatch.

(** ** File names and file types

    [name.split('.').pop()?.toLowerCase()] is used by the upload filter of
    routes.ts, by [processFileContent] of openai.ts and by the client's
    [isAcceptedFileType] and [getFileIcon].  Strings are sequences of bytes
    here; the full stop is a single byte in every encoding concerned, and the
    extension is only ever compared with lower-case ASCII words without the
    letter k, for which lowering the ASCII letters decides as
    [toLowerCase] does. *)

Definition is_dot (c : Ascii.ascii) : bool :=
  Ascii.eqb c (Ascii.Ascii false true true true false true false false).

(** [s.split('.')] *)
Fixpoint split_dot (s : string) : list string :=
  match s with
  | EmptyString => [EmptyString]
  | String c rest =>
      if is_dot c then EmptyString :: split_dot rest
      else match split_dot rest with
           | seg :: segs => String c seg :: segs
           | [] => [String c EmptyString]
           end
  end.

Definition lower_char (c : Ascii.ascii) : Ascii.ascii :=
  let n := Ascii.nat_of_ascii c in
  if (Nat.leb 65 n && Nat.leb n 90)%bool
  then Ascii.ascii_of_nat (n + 32) else c.

Fixpoint toLowerCase (s : string) : string :=
  match s with
  | EmptyString => EmptyString
  | String c rest => String (lower_char c) (toLowerCase rest)
  end.

(** [name.split('.').pop()?.toLowerCase()] *)
Definition extension (name : string) : option string :=
  toLowerCase <$> last (split_dot name).

(** [list.includes(x)] *)
Definition includes (l : list string) (x : string) : bool :=
  existsb (String.eqb x) l.

(** The [fileFilter] of the upload: [true] for [cb(null, true)], [false]
    for [cb(new Error('Unsupported file type'))]. *)
Definition fileFilter (originalname mimetype : string) : bool :=
  let allowedTypes :=
    ["text/plain"; "application/pdf"; "text/html"; "text/css";
     "application/javascript"; "text/javascript"; "application/typescript";
     "text/x-python"; "text/markdown"; "application/x-typescript"] in
  let allowedExtensions :=
    ["txt"; "pdf"; "py"; "tsx"; "js"; "ts"; "jsx"; "css"; "html"; "md"] in
  let fileExt := extension originalname in
  includes allowedTypes mimetype
  || match fileExt with
     | Some ext => truthy_string ext && includes allowedExtensions ext
     | None => false
     end.

(** The client's [isAcceptedFileType(file)], on [file.name] and
    [file.type]. *)
Definition isAcceptedFileType (name type : string) : bool :=
  let allowedTypes :=
    ["text/plain"; "application/pdf"; "text/html"; "text/css";
     "application/javascript"; "text/javascript"; "application/typescript";
     "text/x-python"; "text/markdown"] in
  let allowedExtensions :=
    ["txt"; "pdf"; "py"; "tsx"; "js"; "ts"; "jsx"; "css"; "html"; "md"] in
  let fileExt := default "" (or_else (extension name) (Some "")) in
  includes allowedTypes type
  || (truthy_string fileExt && includes allowedExtensions fileExt).

(** The client's [getFileIcon(filename)]. *)
Definition getFileIcon (filename : string) : string :=
  match extension filename with
  | Some ext =>
      if String.eqb ext "py" then "🐍"
      else if String.eqb ext "js" || String.eqb ext "jsx" then "📜"
      else if String.eqb ext "ts" || String.eqb ext "tsx" then "📘"
      else if String.eqb ext "html" then "🌐"
      else if String.eqb ext "css" then "🎨"
      else if String.eqb ext "pdf" then "📄"
      else if String.eqb ext "txt" || String.eqb ext "md" then "📝"
      else "📁"
  | None => "📁"
  end.

(** [fileTypeDesc] of [processFileContent]. *)
Definition fileTypeDesc (fileName : string) : string :=
  let extension := extension fileName in
  if bool_decide (extension = Some "py") then "Python"
  else if includes ["js"; "jsx"; "ts"; "tsx"]
            (default "" (or_else extension (Some "")))
       then "JavaScript/TypeScript"
  else if bool_decide (extension = Some "html") then "HTML"
  else if bool_decide (extension = Some "css") then "CSS"
  else if bool_decide (extension = Some "pdf") then "PDF"
  else "text".

(** ** The upload middleware of POST /api/chats/:chatId/messages

    The route is registered as [upload.array('files', 5)] followed by the
    handler, so multer runs first.  It hands every file part of the form to
    [fileFilter], counts the parts against [limits.files] and against the
    [5] of [upload.array], and watches every file against
    [limits.fileSize].  When all parts pass, the handler runs with the
    files in [req.files], in the order of the form.  On a refusal multer
    calls [next(err)]: the handler is never run. *)

(** A file part of the form that carries a file name (a part without one is
    no file for multer), as multer meets it: the name of the form field, the
    file, and [truncated], the flag busboy sets on a file that reached the
    [fileSize] limit (5 * 1024 * 1024 bytes here). *)
Record FilePart := {
  fieldname : string;
  part_file : UploadedFile;
  truncated : bool
}.

(** One part: it has to come in the field ['files'], pass [fileFilter] and
    stay within the size limit. *)
Definition part_accepted (p : FilePart) : bool :=
  String.eqb (fieldname p) "files"
  && fileFilter (originalname (part_file p)) (mimetype (part_file p))
  && negb (truncated p).

(** [upload.array('files', 5)]: [Some files] when the handler is called,
    [files] being [req.files]; [None] when an error is passed on. *)
Definition upload_array (parts : list FilePart) : option (list UploadedFile) :=
  if (length parts <=? 5)%nat && forallb part_accepted parts
  then Some (part_file <$> parts)
  else None.

(** The request as it reaches the route: [form_chatId] is
    [parseInt(req.params.chatId)], [form_content] the text field [content]
    of the form, [form_parts] its file parts in order. *)
Record MultipartRequest := {
  form_chatId : option Z;
  form_content : option string;
  form_parts : list FilePart
}.

(** What the handler is called with once multer let the files through. *)
Definition handler_request (rq : MultipartRequest) (files : list UploadedFile)
  : PostMessageRequest :=
  {| param_chatId := form_chatId rq;
     body_content := form_content rq;
     req_files := files |}.

(** What the client gets: the response of the handler, or, when the upload
    was refused, the answer of the error handling of the application, which
    routes.ts does not contain. *)
Inductive Answer :=
  | Handled (res : Response)
  | UploadRefused.

(** The status of the answer.  Express answers an error passed to [next]
    with the status the error carries and with 500 when it carries none;
    neither [new Error('Unsupported file type')] nor the errors of multer's
    limits carry one. *)
Definition answer_status (a : Answer) : Z :=
  match a with
  | Handled res => status res
  | UploadRefused => 500
  end.

(** The route up to and including the moment the request is answered. *)
Definition postMessageRoute (env : Env) (rq : MultipartRequest)
  (t_user t_bot : Z) (st : Server) : Answer * Server * option Exchange :=
  match upload_array (form_parts rq) with
  | None => (UploadRefused, st, None)
  | Some files =>
      let '(res, st1, ex) :=
        postMessage env (handler_request rq files) t_user t_bot st in
      (Handled res, st1, ex)
  end.

(** The whole route: the answer, the state when it was given, the state
    when the handler is finished. *)
Definition handle_postMessageRoute (env : Env) (rq : MultipartRequest)
  (t_user t_bot : Z) (up : Upstream) (st : Server)
  : Answer * Server * Server :=
  let '(a, st1, ex) := postMessageRoute env rq t_user t_bot st in
  match ex with
  | Some ex => (a, st1, relay ex up st1)
  | None => (a, st1, st1)
  end.

(** * Vocabulary of the statements *)

(** Concatenation of a sequence of texts. *)
Definition concat_text (l : list string) : string := foldr String.append "" l.

(** The content currently stored for a message id. *)
Definition stored_content (id : Z) (st : Server) : option string :=
  Message.content <$> MemStorage.messages (storage st) !! id.

(** The role currently stored for a message id. *)
Definition stored_role (id : Z) (st : Server) : option string :=
  Message.role <$> MemStorage.messages (storage st) !! id.

Definition is_update (f : Frame) : bool :=
  match f with MessageUpdate _ _ => true | _ => false end.

Definition is_complete (f : Frame) : bool :=
  match f with MessageComplete _ _ => true | _ => false end.

Definition is_error (f : Frame) : bool :=
  match f with MessageError _ _ => true | _ => false end.

Definition count_where {A} (P : A → bool) (l : list A) : nat :=
  length (List.filter P l).

(** The history entries added between two states. *)
Definition published_since (st st' : Server) : list (Z * Frame) :=
  drop (length (published st)) (published st').

(** How many entries of a history are frames of kind [P] for [chat]. *)
Definition count_published (chat : Z) (P : Frame → bool)
  (l : list (Z * Frame)) : nat :=
  count_where (λ e, bool_decide (e.1 = chat) && P e.2) l.

(** The successive values of [fullContent] that the loop writes: one per
    chunk with a non-empty text. *)
Fixpoint snapshots (acc : string) (chunks : list Chunk) : list string :=
  match chunks with
  | [] => []
  | chunk :: rest =>
      if truthy_string (delta_text chunk)
      then (acc +:+ delta_text chunk)
             :: snapshots (acc +:+ delta_text chunk) rest
      else snapshots acc rest
  end.

(** A client after a run of broadcast loops for [chat] with frames [fs]. *)
Definition deliver_all (chat : Z) (fs : list Frame) (c : Client) : Client :=
  if receives chat c
  then {| ws := {| readyState := readyState (ws c); sent := sent (ws c) ++ fs |};
          chatId := chatId c |}
  else c.

(** [st'] is [st] after broadcasting [fs] for [chat], in this order, and
    nothing else happened to the clients. *)
Definition emits (chat : Z) (fs : list Frame) (st st' : Server) : Prop :=
  (∀ id, clients st' !! id = deliver_all chat fs <$> clients st !! id)
  ∧ published st' = published st ++ ((λ f, (chat, f)) <$> fs).

(** Ids handed out so far are below the counter. *)
Definition ids_fresh (s : MemStorage.t) : Prop :=
  ∀ id, is_Some (MemStorage.messages s !! id) → id < MemStorage.messageCurrentId s.

(** [{ ...m, content: c }] *)
Definition set_content (c : string) (m : Message.t) : Message.t :=
  MemStorage.spread_message m (PartialMessage.only_content c).

(** The storage after an optional write of a message's content. *)
Definition overwrite (id : Z) (c : option string) (s : MemStorage.t)
  : MemStorage.t :=
  match c with
  | Some c =>
      (MemStorage.updateMessage id (PartialMessage.only_content c) s).2
  | None => s
  end.

(** The [files] field of the user message built from a request. *)
Definition request_files (req : PostMessageRequest)
  : option (list FileAttachment) :=
  let fileAttachments := to_attachment <$> req_files req in
  match fileAttachments with
  | [] => None
  | _ :: _ => Some fileAttachments
  end.

(** The user message a request gives rise to in storage [s]. *)
Definition user_message (req : PostMessageRequest) (chat : Z) (c : string)
  (now : Z) (s : MemStorage.t) : Message.t :=
  Message.mk (MemStorage.messageCurrentId s) chat c "user" now
             (request_files req).

(** The placeholder created right after that user message. *)
Definition placeholder (chat : Z) (now : Z) (s : MemStorage.t) : Message.t :=
  Message.mk (MemStorage.messageCurrentId s + 1) chat "" "assistant" now None.

(** Does the upstream call end with the iterator exhausted? *)
Definition completes (up : Upstream) : bool :=
  match up with
  | Streamed _ Done => true
  | _ => false
  end.

(** The chunks an upstream call delivers before it ends. *)
Definition chunks_of (up : Upstream) : list Chunk :=
  match up with
  | Streamed chunks _ => chunks
  | _ => []
  end.

(** Chunks that carry text. *)
Definition has_text (chunk : Chunk) : bool := truthy_string (delta_text chunk).

(** Two settings rows that differ at most in the value of [apiKey], and
    there only between values of the same truthiness. *)
Definition same_but_key (s s' : Settings) : Prop :=
  delete "apiKey" s = delete "apiKey" s'
  ∧ truthy (s !! "apiKey") = truthy (s' !! "apiKey").

(** A field of the settings object a response carries; a response that
    carries an error message instead has none of the settings fields. *)
Definition settings_field (k : string) (r : Response) : option JVal :=
  match body r with
  | BObject o => o !! k
  | _ => None
  end.

(** ** A concrete server

    The scenario of the specification: chat 7 belongs to the bot "Helper",
    the next message id is 101, a key is configured.  Three sockets are
    connected: "a" watches chat 7, "b" watches chat 8, "c" watches chat 7
    but is closing. *)
Module Example.

Definition env : Env :=
  {| OPENAI_API_KEY := None; OPENAI_API_URL := None;
     OPENAI_API_HEADERS := None |}.

Definition helper : Bot.t :=
  Bot.mk 1 "Helper" "H" "#0078D4" None "gpt-4o" 0.

Definition store : MemStorage.t :=
  MemStorage.mk (<[1 := helper]> ∅)
                (<[7 := Chat.mk 7 1 "Scenario" 0]> ∅)
                ∅
                (Some (<["apiKey" := JStr "sk-secret"]>
                         MemStorage.default_settings))
                2 8 101.

(** The same storage with the settings a fresh [MemStorage] has, whose
    [apiKey] is the empty string. *)
Definition store_without_key : MemStorage.t :=
  MemStorage.with_settings (Some MemStorage.default_settings) store.

Definition viewer (rs : ReadyState) (chat : option Z) : Client :=
  {| ws := {| readyState := rs; sent := [] |}; chatId := chat |}.

Definition hub : gmap string Client :=
  <["a" := viewer OPEN (Some 7)]>
  (<["b" := viewer OPEN (Some 8)]>
  (<["c" := viewer CLOSING (Some 7)]> ∅)).

Definition server : Server :=
  {| storage := store; clients := hub; published := [] |}.

Definition server_without_key : Server :=
  {| storage := store_without_key; clients := hub; published := [] |}.

Definition request (chat : Z) (content : option string)
  : PostMessageRequest :=
  {| param_chatId := Some chat; body_content := content; req_files := [] |}.

Definition hi : PostMessageRequest := request 7 (Some "hi").

(** The exchange the handler starts for [hi]. *)
Definition exchange : Exchange := {| ex_chatId := 7; ex_messageId := 102 |}.

(** The server at the moment [hi] is answered. *)
Definition answered : Server := (postMessage env hi 1 2 server).1.2.

Definition deltas : list Chunk := [Some "Hel"; None; Some ""; Some "lo!"].

(** A server holding one user message, id 101, in chat 7. *)
Definition with_user_message : Server :=
  (postMessage env hi 1 2 server_without_key).1.2.

Definition role_patch : PatchMessageBody :=
  {| pb_chatId := None; pb_content := None;
     pb_role := Some (JStr "system"); pb_files := None |}.

(** [server] with another key in its settings. *)
Definition server_other_key : Server :=
  {| storage :=
       MemStorage.with_settings
         (Some (<["apiKey" := JStr "sk-other"]> MemStorage.default_settings))
         store;
     clients := hub; published := [] |}.

Definition content_patch : PatchMessageBody :=
  {| pb_chatId := None; pb_content := Some (JStr "edited");
     pb_role := None; pb_files := None |}.

(** The form a browser posts for chat [chat]. *)
Definition form (chat : Z) (content : option string) (parts : list FilePart)
  : MultipartRequest :=
  {| form_chatId := Some chat; form_content := content; form_parts := parts |}.

(** A Markdown file, which the upload accepts. *)
Definition notes : FilePart :=
  {| fieldname := "files";
     part_file := {| originalname := "notes.md"; mimetype := "text/markdown";
                     buffer_base64 := "IyBoaQ==" |};
     truncated := false |}.

(** A picture, which the upload refuses. *)
Definition picture : FilePart :=
  {| fieldname := "files";
     part_file := {| originalname := "image.png"; mimetype := "image/png";
                     buffer_base64 := "iVBORw0KGgo=" |};
     truncated := false |}.

End Example.

(** The frames of a run of broadcasts that are addressed to a binding. *)
Definition frames_for (binding : option Z) (evs : list (Z * Frame))
  : list Frame :=
  match binding with
  | Some chat => (List.filter (λ e, bool_decide (e.1 = chat)) evs).*2
  | None => []
  end.

(** What a socket has been sent after a run of broadcasts. *)
Definition outbox_after (evs : list (Z * Frame)) (c : Client) : list Frame :=
  sent (ws c)
  ++ (if bool_decide (readyState (ws c) = OPEN)
      then frames_for (chatId c) evs else []).

Definition is_edited (f : Frame) : bool :=
  match f with MessageEdited _ _ => true | _ => false end.

(** A PATCH body one of whose present keys does not pass its check: [chatId]
    not a number of the 32-bit range, [content] or [role] not a string. *)
Definition ill_typed (b : PatchMessageBody) : Prop :=
  (∃ v, pb_chatId b = Some v ∧ as_number v = None)
  ∨ (∃ v, pb_content b = Some v ∧ as_string v = None)
  ∨ (∃ v, pb_role b = Some v ∧ as_string v = None).

(** Every message is stored under its own id. *)
Definition keyed_by_id (s : MemStorage.t) : Prop :=
  (∀ k m, MemStorage.messages s !! k = Some m → Message.id m = k)
  ∧ (∀ k c, MemStorage.chats s !! k = Some c → Chat.id c = k)
  ∧ (∀ k b, MemStorage.bots s !! k = Some b → Bot.id b = k).

(** Earlier creation time first, the smaller id first among equals. *)
Definition older_message (a b : Message.t) : Prop :=
  Message.createdAt a < Message.createdAt b
  ∨ (Message.createdAt a = Message.createdAt b ∧ Message.id a < Message.id b).

(** Later creation time first, the smaller id first among equals. *)
Definition newer_chat (a b : Chat.t) : Prop :=
  Chat.createdAt b < Chat.createdAt a
  ∨ (Chat.createdAt a = Chat.createdAt b ∧ Chat.id a < Chat.id b).

(** Every record is stored under its own id, and every id in use is below
    the counter of its map. *)
Definition well_formed (s : MemStorage.t) : Prop :=
  keyed_by_id s
  ∧ ids_fresh s
  ∧ (∀ k, is_Some (MemStorage.chats s !! k) → k < MemStorage.chatCurrentId s)
  ∧ (∀ k, is_Some (MemStorage.bots s !! k) → k < MemStorage.botCurrentId s).

(** The keys of the settings schema. *)
Definition settings_keys : list string := insertSettingsSchema.*1.

(** The keys the settings routes compute themselves. *)
Definition computed_keys : list string :=
  ["apiKey"; "hasApiKey"; "envApiUrl"; "hasEnvApiHeaders"].

(** The roles the completion API knows. *)
Definition known_roles : list string := ["user"; "assistant"; "system"].

(** The client [getOpenAIClient] has to return for the key, URL and headers
    it was called with. *)
Definition resolved_config (JSON_parse : string → option Headers) (env : Env)
  (apiKey apiUrl : option string) (customHeaders : option Headers)
  : OpenAIConfig :=
  let merged :=
    match (if truthy_env (OPENAI_API_HEADERS env)
           then OPENAI_API_HEADERS env ≫= JSON_parse else None) with
    | Some envHeaders => spread_headers envHeaders (default [] customHeaders)
    | None => default [] customHeaders
    end in
  {| cfg_apiKey := default "" (or_else apiKey (OPENAI_API_KEY env));
     cfg_baseURL :=
       default "https://api.openai.com/v1"
         (or_else (or_else apiUrl (OPENAI_API_URL env))
                  (Some "https://api.openai.com/v1"));
     cfg_defaultHeaders :=
       match merged with [] => None | _ :: _ => Some merged end |}.

(** The cached client, if any, was built from what [lastConfig] records. *)
Definition coherent (cache : ClientCache) : Prop :=
  match openaiClient cache with
  | None => True
  | Some c =>
      last_apiKey (lastConfig cache) = Some (cfg_apiKey c)
      ∧ last_apiUrl (lastConfig cache) = Some (cfg_baseURL c)
      ∧ ∃ h, last_customHeaders (lastConfig cache) = Some h
             ∧ cfg_defaultHeaders c
               = match h with [] => None | _ :: _ => Some h end
  end.

(** One call of [getOpenAIClient] and a run of calls on the cache. *)
Record ClientCall := {
  call_apiKey : option string;
  call_apiUrl : option string;
  call_headers : option Headers
}.

Definition call_client (JSON_parse : string → option Headers) (env : Env)
  (cache : ClientCache) (c : ClientCall) : ClientCache :=
  (getOpenAIClient JSON_parse env (call_apiKey c) (call_apiUrl c)
     (call_headers c) cache).2.

(** Does the text contain a full stop? *)
Fixpoint has_dot (s : string) : bool :=
  match s with
  | EmptyString => false
  | String c rest => is_dot c || has_dot rest
  end.

(** The extensions both upload checks accept. *)
Definition allowed_extensions : list string :=
  ["txt"; "pdf"; "py"; "tsx"; "js"; "ts"; "jsx"; "css"; "html"; "md"].

(** ** client/src/components/ChatInterface.tsx: the viewer's side

    What the [onMessage] handler of the chat view does with a frame: the
    query cache for the messages of the chat ([None] while nothing was
    fetched) and the number of times the handler invalidated the query.
    The handler is not the only code that invalidates this query: the send
    mutation of Home.tsx does so after every accepted send, and the edit
    mutation of the chat view after every edit.  Those are not counted
    here, and the list a fetch brings in is not modelled. *)
Record ChatView := {
  view_messages : option (list Message.t);
  view_invalidated : nat
}.

(** The [onMessage] handler on a frame that parsed. *)
Definition on_frame (v : ChatView) (f : Frame) : ChatView :=
  match f with
  | MessageUpdate messageId content =>
      {| view_messages :=
           (λ oldData : list Message.t,
              (λ msg, if bool_decide (Message.id msg = messageId)
                      then set_content content msg else msg) <$> oldData)
           <$> view_messages v;
         view_invalidated := view_invalidated v |}
  | MessageComplete _ _ | MessageEdited _ _ =>
      {| view_messages := view_messages v;
         view_invalidated := S (view_invalidated v) |}
  | MessageError _ _ => v
  end.

Definition on_frames (fs : list Frame) (v : ChatView) : ChatView :=
  foldl on_frame v fs.

(** * Lemmas *)

Section strings.

Lemma string_app_nil_r (s : string) : s +:+ "" = s.
Proof.
  induction s as [|a s IH]; [reflexivity|].
  unfold String.append; fold String.append. by rewrite IH.
Qed.

Lemma string_app_assoc (s1 s2 s3 : string) :
  (s1 +:+ s2) +:+ s3 = s1 +:+ (s2 +:+ s3).
Proof.
  induction s1 as [|a s1 IH]; [reflexivity|].
  unfold String.append; fold String.append. by rewrite IH.
Qed.

Lemma truthy_string_false (s : string) : truthy_string s = false ↔ s = "".
Proof. destruct s; simpl; split; congruence. Qed.

Lemma concat_text_app (l1 l2 : list string) :
  concat_text (l1 ++ l2) = concat_text l1 +:+ concat_text l2.
Proof.
  induction l1 as [|x l1 IH]; [reflexivity|].
  unfold concat_text in *. simpl. by rewrite IH, string_app_assoc.
Qed.

End strings.

Section counting.
Context {A : Type} (P : A → bool).

Lemma count_where_app (l1 l2 : list A) :
  count_where P (l1 ++ l2) = (count_where P l1 + count_where P l2)%nat.
Proof. unfold count_where. by rewrite List.filter_app, length_app. Qed.

Lemma count_where_all (l : list A) :
  (∀ x, x ∈ l → P x = true) → count_where P l = length l.
Proof.
  unfold count_where. induction l as [|x l IH]; intros H; [done|].
  simpl. rewrite (H x) by left. simpl. f_equal. apply IH.
  intros y Hy. apply H. by right.
Qed.

Lemma count_where_none (l : list A) :
  (∀ x, x ∈ l → P x = false) → count_where P l = 0%nat.
Proof.
  unfold count_where. induction l as [|x l IH]; intros H; [done|].
  simpl. rewrite (H x) by left. apply IH.
  intros y Hy. apply H. by right.
Qed.

End counting.

Section hub.
Implicit Types (c : Client) (cl : gmap string Client) (st : Server).

Lemma broadcast_lookup chat f cl id :
  broadcast chat f cl !! id = deliver chat f <$> cl !! id.
Proof. apply lookup_fmap. Qed.

Lemma deliver_one chat f c : deliver chat f c = deliver_all chat [f] c.
Proof. reflexivity. Qed.

Lemma deliver_all_nil chat c : deliver_all chat [] c = c.
Proof.
  unfold deliver_all. destruct (receives chat c); [|done].
  destruct c as [[rs out] ch]. simpl. by rewrite app_nil_r.
Qed.

Lemma receives_deliver_all chat fs c :
  receives chat (deliver_all chat fs c) = receives chat c.
Proof.
  unfold deliver_all. destruct (receives chat c) eqn:E; [|done].
  unfold receives in *. done.
Qed.

Lemma deliver_all_app chat fs gs c :
  deliver_all chat gs (deliver_all chat fs c) = deliver_all chat (fs ++ gs) c.
Proof.
  pose proof (receives_deliver_all chat fs c) as Hr.
  unfold deliver_all in *. destruct (receives chat c) eqn:E.
  - rewrite Hr. simpl. by rewrite app_assoc.
  - by rewrite E.
Qed.

Lemma deliver_all_skips chat fs c :
  chatId c ≠ Some chat → deliver_all chat fs c = c.
Proof.
  intros H. unfold deliver_all, receives.
  by rewrite bool_decide_eq_false_2.
Qed.

Lemma emits_same chat st st' :
  clients st' = clients st → published st' = published st →
  emits chat [] st st'.
Proof.
  intros Hc Hp. split.
  - intros id. rewrite Hc. destruct (clients st !! id) as [c|]; [|done].
    simpl. by rewrite deliver_all_nil.
  - rewrite Hp. simpl. by rewrite app_nil_r.
Qed.

Lemma emits_publish chat f st : emits chat [f] st (publish chat f st).
Proof. split; [intros id; apply broadcast_lookup | done]. Qed.

Lemma emits_trans chat fs gs st1 st2 st3 :
  emits chat fs st1 st2 → emits chat gs st2 st3 →
  emits chat (fs ++ gs) st1 st3.
Proof.
  intros [Hc1 Hp1] [Hc2 Hp2]. split.
  - intros id. rewrite Hc2, Hc1.
    destruct (clients st1 !! id) as [c|]; [|done].
    simpl. by rewrite deliver_all_app.
  - rewrite Hp2, Hp1, fmap_app. by rewrite app_assoc.
Qed.

Lemma emits_since chat fs st st' :
  emits chat fs st st' →
  published_since st st' = (λ f, (chat, f)) <$> fs.
Proof.
  intros [_ Hp]. unfold published_since. rewrite Hp.
  by rewrite drop_app_length.
Qed.

Lemma count_published_frames chat P fs :
  count_published chat P ((λ f, (chat, f)) <$> fs) = count_where P fs.
Proof.
  unfold count_published, count_where.
  induction fs as [|f fs IH]; [done|].
  rewrite fmap_cons. simpl. rewrite bool_decide_eq_true_2 by done. simpl.
  destruct (P f); simpl; [f_equal|]; exact IH.
Qed.

End hub.

Section joining.
Implicit Types (cl : gmap string Client).

Lemma on_connection_unbound id cl :
  chatId <$> on_connection id cl !! id = Some None.
Proof. unfold on_connection. by rewrite lookup_insert_eq. Qed.

(** A join replaces whatever the connection was bound to. *)
Lemma on_message_join id chat cl c :
  cl !! id = Some c →
  on_message id (Join chat) cl !! id = Some {| ws := ws c; chatId := chat |}.
Proof. intros H. simpl. rewrite H. apply lookup_insert_eq. Qed.

Lemma on_message_other id data cl id' :
  id' ≠ id → on_message id data cl !! id' = cl !! id'.
Proof.
  intros Hne. destruct data as [chat|]; simpl; [|done].
  destruct (cl !! id); [by rewrite lookup_insert_ne | done].
Qed.

(** A connection that joined a chat is reached by the next broadcast for
    it. *)
Lemma join_then_broadcast id chat f cl :
  broadcast chat f (on_message id (Join (Some chat)) (on_connection id cl)) !! id
  = Some {| ws := {| readyState := OPEN; sent := [f] |};
            chatId := Some chat |}.
Proof.
  rewrite broadcast_lookup.
  erewrite on_message_join by apply lookup_insert_eq. simpl.
  unfold deliver, receives. simpl.
  by rewrite !bool_decide_eq_true_2 by done.
Qed.

End joining.

(** A fresh store streams; only an explicit [false] turns streaming off. *)
Lemma useStreaming_default :
  useStreaming (Some MemStorage.default_settings) = true
  ∧ useStreaming None = true
  ∧ useStreaming
      (Some (<["useStreamingApi" := JBool false]> MemStorage.default_settings))
    = false.
Proof. vm_compute. done. Qed.

Section storage.
Implicit Types (s : MemStorage.t) (m : Message.t).

Lemma updateMessage_lookup id u s id' :
  MemStorage.messages (MemStorage.updateMessage id u s).2 !! id'
  = if decide (id' = id)
    then (λ m, MemStorage.spread_message m u) <$> MemStorage.messages s !! id'
    else MemStorage.messages s !! id'.
Proof.
  unfold MemStorage.updateMessage.
  destruct (MemStorage.messages s !! id) as [m|] eqn:E; simpl.
  - case_decide as Hd.
    + subst. by rewrite lookup_insert_eq, E.
    + by rewrite lookup_insert_ne.
  - case_decide as Hd; [subst; by rewrite E | done].
Qed.

Lemma updateMessage_result id u s :
  (MemStorage.updateMessage id u s).1
  = (λ m, MemStorage.spread_message m u) <$> MemStorage.messages s !! id.
Proof.
  unfold MemStorage.updateMessage.
  by destruct (MemStorage.messages s !! id).
Qed.

Lemma updateMessage_rest id u s :
  let s' := (MemStorage.updateMessage id u s).2 in
  MemStorage.bots s' = MemStorage.bots s
  ∧ MemStorage.chats s' = MemStorage.chats s
  ∧ MemStorage.settings s' = MemStorage.settings s
  ∧ MemStorage.messageCurrentId s' = MemStorage.messageCurrentId s.
Proof.
  unfold MemStorage.updateMessage.
  by destruct (MemStorage.messages s !! id).
Qed.

Lemma overwrite_twice id c1 c2 s :
  overwrite id (Some c2) (overwrite id (Some c1) s) = overwrite id (Some c2) s.
Proof.
  unfold overwrite, MemStorage.updateMessage.
  destruct (MemStorage.messages s !! id) as [m|] eqn:E; simpl.
  - rewrite lookup_insert_eq. simpl.
    unfold MemStorage.with_messages. simpl.
    by rewrite insert_insert_eq.
  - by rewrite E.
Qed.

Lemma overwrite_lookup id c s id' :
  MemStorage.messages (overwrite id c s) !! id'
  = if decide (id' = id)
    then from_option set_content (λ m, m) c <$> MemStorage.messages s !! id'
    else MemStorage.messages s !! id'.
Proof.
  destruct c as [c|]; simpl.
  - apply updateMessage_lookup.
  - case_decide; [|done]. by destruct (MemStorage.messages s !! id').
Qed.

End storage.

Section relay.
Variable ex : Exchange.
Implicit Types (st : Server) (acc : string * Server) (chunks : list Chunk).

Lemma persist_storage c st :
  storage (persist ex c st).2 = overwrite (ex_messageId ex) (Some c) (storage st).
Proof.
  unfold persist, overwrite.
  by destruct (MemStorage.updateMessage _ _ _).
Qed.

Lemma persist_result c st :
  (persist ex c st).1
  = set_content c <$> MemStorage.messages (storage st) !! ex_messageId ex.
Proof.
  unfold persist.
  pose proof (updateMessage_result (ex_messageId ex)
                (PartialMessage.only_content c) (storage st)) as H.
  by destruct (MemStorage.updateMessage _ _ _).
Qed.

Lemma persist_emits c st : emits (ex_chatId ex) [] st (persist ex c st).2.
Proof.
  apply emits_same; unfold persist;
    by destruct (MemStorage.updateMessage _ _ _).
Qed.

Lemma relay_chunk_empty acc chunk :
  delta_text chunk = "" → relay_chunk ex acc chunk = acc.
Proof. intros H. unfold relay_chunk. by rewrite H. Qed.

Lemma relay_chunk_text acc chunk :
  truthy_string (delta_text chunk) = true →
  relay_chunk ex acc chunk
  = (acc.1 +:+ delta_text chunk,
     publish (ex_chatId ex)
       (MessageUpdate (ex_messageId ex) (acc.1 +:+ delta_text chunk))
       (persist ex (acc.1 +:+ delta_text chunk) acc.2).2).
Proof. intros H. unfold relay_chunk. by rewrite H. Qed.

Lemma relay_loop_app chunks1 chunks2 acc :
  relay_loop ex (chunks1 ++ chunks2) acc
  = relay_loop ex chunks2 (relay_loop ex chunks1 acc).
Proof. apply foldl_app. Qed.

Lemma relay_loop_fullContent chunks acc :
  (relay_loop ex chunks acc).1
  = acc.1 +:+ concat_text (delta_text <$> chunks).
Proof.
  revert acc. induction chunks as [|chunk rest IH]; intros acc.
  - simpl. by rewrite string_app_nil_r.
  - change (relay_loop ex (chunk :: rest) acc)
      with (relay_loop ex rest (relay_chunk ex acc chunk)).
    rewrite IH. rewrite fmap_cons.
    change (concat_text (delta_text chunk :: (delta_text <$> rest)))
      with (delta_text chunk +:+ concat_text (delta_text <$> rest)).
    rewrite <- string_app_assoc. f_equal.
    destruct (truthy_string (delta_text chunk)) eqn:E.
    + by rewrite relay_chunk_text.
    + apply truthy_string_false in E.
      rewrite relay_chunk_empty by done. by rewrite E, string_app_nil_r.
Qed.

Lemma snapshots_nil a chunks :
  snapshots a chunks = [] → concat_text (delta_text <$> chunks) = "".
Proof.
  revert a. induction chunks as [|ch r IH]; intros a; [done|].
  simpl. destruct (truthy_string (delta_text ch)) eqn:E; [done|].
  apply truthy_string_false in E. intros S.
  change (delta_text ch +:+ concat_text (delta_text <$> r) = "").
  rewrite E. simpl. by eapply IH.
Qed.

Lemma last_snapshots a chunks c :
  last (snapshots a chunks) = Some c →
  c = a +:+ concat_text (delta_text <$> chunks).
Proof.
  revert a. induction chunks as [|chunk rest IH]; intros a; [done|].
  rewrite fmap_cons.
  change (concat_text (delta_text chunk :: (delta_text <$> rest)))
    with (delta_text chunk +:+ concat_text (delta_text <$> rest)).
  simpl. destruct (truthy_string (delta_text chunk)) eqn:E.
  - rewrite <- string_app_assoc.
    destruct (snapshots (a +:+ delta_text chunk) rest) as [|x l] eqn:S.
    + intros [= <-]. apply snapshots_nil in S.
      by rewrite S, string_app_nil_r.
    + rewrite last_cons_cons, <- S. apply IH.
  - apply truthy_string_false in E. rewrite E. simpl. apply IH.
Qed.

Lemma length_snapshots a chunks :
  length (snapshots a chunks)
  = count_where has_text chunks.
Proof.
  unfold count_where, has_text. revert a.
  induction chunks as [|ch r IH]; intros a; [done|].
  simpl. destruct (truthy_string (delta_text ch)); simpl; by rewrite IH.
Qed.

Lemma relay_loop_storage chunks acc :
  storage (relay_loop ex chunks acc).2
  = overwrite (ex_messageId ex) (last (snapshots acc.1 chunks)) (storage acc.2).
Proof.
  revert acc. induction chunks as [|chunk rest IH]; intros acc; [done|].
  change (relay_loop ex (chunk :: rest) acc)
    with (relay_loop ex rest (relay_chunk ex acc chunk)).
  rewrite IH. simpl.
  destruct (truthy_string (delta_text chunk)) eqn:E.
  - rewrite relay_chunk_text by done. simpl. rewrite persist_storage.
    rewrite last_cons.
    destruct (last (snapshots (acc.1 +:+ delta_text chunk) rest)); [|done].
    apply overwrite_twice.
  - apply truthy_string_false in E. by rewrite relay_chunk_empty.
Qed.

Lemma relay_loop_emits chunks acc :
  emits (ex_chatId ex)
        (MessageUpdate (ex_messageId ex) <$> snapshots acc.1 chunks)
        acc.2 (relay_loop ex chunks acc).2.
Proof.
  revert acc. induction chunks as [|chunk rest IH]; intros acc.
  - by apply emits_same.
  - change (relay_loop ex (chunk :: rest) acc)
      with (relay_loop ex rest (relay_chunk ex acc chunk)).
    specialize (IH (relay_chunk ex acc chunk)). simpl.
    destruct (truthy_string (delta_text chunk)) eqn:E.
    + rewrite relay_chunk_text in * by done. simpl in IH.
      rewrite fmap_cons.
      change (?f :: ?l) with ([] ++ [f] ++ l).
      eapply emits_trans; [apply persist_emits|].
      eapply emits_trans; [apply emits_publish|]. exact IH.
    + apply truthy_string_false in E.
      by rewrite relay_chunk_empty in * by done.
Qed.

(** The stored content follows the accumulator. *)
Lemma relay_loop_content chunks acc m :
  MemStorage.messages (storage acc.2) !! ex_messageId ex = Some m →
  Message.content m = acc.1 →
  stored_content (ex_messageId ex) (relay_loop ex chunks acc).2
  = Some (acc.1 +:+ concat_text (delta_text <$> chunks)).
Proof.
  intros Hm Hc. unfold stored_content.
  rewrite relay_loop_storage, overwrite_lookup, decide_True by done.
  rewrite Hm. simpl. f_equal.
  destruct (last (snapshots acc.1 chunks)) as [c|] eqn:L; simpl.
  - by apply last_snapshots.
  - apply last_None in L. apply snapshots_nil in L.
    by rewrite L, string_app_nil_r.
Qed.

End relay.

Section post_message.
Variables (env : Env) (req : PostMessageRequest) (t_user t_bot : Z).
Implicit Types (st : Server).

(** The accepted request, computed. *)
Lemma postMessage_accepted st chat_id chat c bot :
  param_chatId req = Some chat_id →
  MemStorage.getChat chat_id (storage st) = Some chat →
  body_content req = Some c →
  hasApiKey (MemStorage.getSettings (storage st)) env = true →
  MemStorage.getBot (Chat.botId chat) (storage st) = Some bot →
  let um := user_message req chat_id c t_user (storage st) in
  let bm := placeholder chat_id t_bot (storage st) in
  postMessage env req t_user t_bot st
  = (respond 201 (BExchange um bm),
     set_storage
       (MemStorage.with_messages
          (<[Message.id bm := bm]>
             (<[Message.id um := um]> (MemStorage.messages (storage st))))
          (Message.id bm + 1) (storage st)) st,
     Some {| ex_chatId := chat_id; ex_messageId := Message.id bm |}).
Proof.
  intros Hp Hchat Hc Hkey Hbot. unfold postMessage.
  rewrite Hp, Hchat, Hc. simpl.
  unfold MemStorage.getSettings in *. simpl. rewrite Hkey. simpl.
  unfold MemStorage.getBot in *. simpl. rewrite Hbot.
  reflexivity.
Qed.

(** The request that finds no key, computed. *)
Lemma postMessage_no_key st chat_id chat c :
  param_chatId req = Some chat_id →
  MemStorage.getChat chat_id (storage st) = Some chat →
  body_content req = Some c →
  hasApiKey (MemStorage.getSettings (storage st)) env = false →
  let um := user_message req chat_id c t_user (storage st) in
  postMessage env req t_user t_bot st
  = (respond 400 (BError
       "API key not configured in settings or environment variables (.env)"),
     set_storage
       (MemStorage.with_messages
          (<[Message.id um := um]> (MemStorage.messages (storage st)))
          (Message.id um + 1) (storage st)) st,
     None).
Proof.
  intros Hp Hchat Hc Hkey. unfold postMessage.
  rewrite Hp, Hchat, Hc. simpl.
  unfold MemStorage.getSettings in *. simpl. rewrite Hkey. reflexivity.
Qed.

Lemma postMessage_nan st :
  param_chatId req = None →
  postMessage env req t_user t_bot st
  = (respond 400 (BError "Invalid chat ID"), st, None).
Proof. intros Hp. unfold postMessage. by rewrite Hp. Qed.

Lemma postMessage_unknown_chat st chat_id :
  param_chatId req = Some chat_id →
  MemStorage.getChat chat_id (storage st) = None →
  postMessage env req t_user t_bot st
  = (respond 404 (BError "Chat not found"), st, None).
Proof. intros Hp Hchat. unfold postMessage. by rewrite Hp, Hchat. Qed.

Lemma postMessage_no_content st chat_id chat :
  param_chatId req = Some chat_id →
  MemStorage.getChat chat_id (storage st) = Some chat →
  body_content req = None →
  postMessage env req t_user t_bot st
  = (respond 400 (BError "Invalid message data"), st, None).
Proof.
  intros Hp Hchat Hc. unfold postMessage. by rewrite Hp, Hchat, Hc.
Qed.

Lemma postMessage_no_bot st chat_id chat c :
  param_chatId req = Some chat_id →
  MemStorage.getChat chat_id (storage st) = Some chat →
  body_content req = Some c →
  hasApiKey (MemStorage.getSettings (storage st)) env = true →
  MemStorage.getBot (Chat.botId chat) (storage st) = None →
  let um := user_message req chat_id c t_user (storage st) in
  postMessage env req t_user t_bot st
  = (respond 404 (BError "Bot not found"),
     set_storage
       (MemStorage.with_messages
          (<[Message.id um := um]> (MemStorage.messages (storage st)))
          (Message.id um + 1) (storage st)) st,
     None).
Proof.
  intros Hp Hchat Hc Hkey Hbot. unfold postMessage.
  rewrite Hp, Hchat, Hc. simpl.
  unfold MemStorage.getSettings in *. simpl. rewrite Hkey. simpl.
  unfold MemStorage.getBot in *. simpl. rewrite Hbot.
  reflexivity.
Qed.

(** Only an accepted request starts an exchange. *)
Lemma postMessage_exchange st res st1 ex :
  postMessage env req t_user t_bot st = (res, st1, Some ex) →
  ∃ chat_id chat c bot,
    param_chatId req = Some chat_id
    ∧ MemStorage.getChat chat_id (storage st) = Some chat
    ∧ body_content req = Some c
    ∧ hasApiKey (MemStorage.getSettings (storage st)) env = true
    ∧ MemStorage.getBot (Chat.botId chat) (storage st) = Some bot.
Proof.
  destruct (param_chatId req) as [chat_id|] eqn:Hp;
    [|by rewrite postMessage_nan].
  destruct (MemStorage.getChat chat_id (storage st)) as [chat|] eqn:Hc;
    [|by erewrite postMessage_unknown_chat].
  destruct (body_content req) as [c|] eqn:Hb;
    [|by erewrite postMessage_no_content].
  destruct (hasApiKey (MemStorage.getSettings (storage st)) env) eqn:Hk;
    [|by erewrite postMessage_no_key].
  destruct (MemStorage.getBot (Chat.botId chat) (storage st)) as [bot|] eqn:Hbot;
    [|by erewrite postMessage_no_bot].
  intros _. by exists chat_id, chat, c, bot.
Qed.

(** When an exchange starts, its placeholder is stored, empty. *)
Lemma postMessage_placeholder st res st1 ex :
  postMessage env req t_user t_bot st = (res, st1, Some ex) →
  ∃ m, MemStorage.messages (storage st1) !! ex_messageId ex = Some m
       ∧ Message.content m = ""
       ∧ Message.role m = "assistant"
       ∧ Message.chatId m = ex_chatId ex.
Proof.
  intros H.
  destruct (postMessage_exchange _ _ _ _ H)
    as (chat_id & chat & c & bot & Hp & Hc & Hb & Hk & Hbot).
  rewrite (postMessage_accepted _ _ _ _ _ Hp Hc Hb Hk Hbot) in H.
  injection H as _ <- <-. simpl.
  eexists. rewrite lookup_insert_eq. done.
Qed.

End post_message.

Section relay_end.
Variable ex : Exchange.
Implicit Types (st : Server) (up : Upstream).

Lemma relay_complete_storage c st :
  storage (relay_complete ex c st)
  = overwrite (ex_messageId ex) (Some c) (storage st).
Proof.
  unfold relay_complete. rewrite <- persist_storage.
  by destruct (persist ex c st).
Qed.

Lemma relay_complete_emits c st :
  emits (ex_chatId ex)
    [MessageComplete (ex_messageId ex)
       (set_content c <$> MemStorage.messages (storage st) !! ex_messageId ex)]
    st (relay_complete ex c st).
Proof.
  unfold relay_complete. rewrite <- persist_result.
  pose proof (persist_emits ex c st) as H.
  destruct (persist ex c st) as [m st1]. simpl in *.
  change [MessageComplete (ex_messageId ex) m]
    with ([] ++ [MessageComplete (ex_messageId ex) m]).
  eapply emits_trans; [exact H | apply emits_publish].
Qed.

Lemma relay_catch_storage st :
  storage (relay_catch ex st)
  = overwrite (ex_messageId ex) (Some fallback_content) (storage st).
Proof. unfold relay_catch. simpl. apply persist_storage. Qed.

Lemma relay_catch_emits st :
  emits (ex_chatId ex)
    [MessageError (ex_messageId ex) "Error generating response"]
    st (relay_catch ex st).
Proof.
  unfold relay_catch.
  change [MessageError (ex_messageId ex) "Error generating response"]
    with ([] ++ [MessageError (ex_messageId ex) "Error generating response"]).
  eapply emits_trans; [apply persist_emits | apply emits_publish].
Qed.

(** What a relay broadcasts: one update per chunk with text, then one
    terminal frame, which is a completion exactly when the stream ended
    with the iterator exhausted and an error frame otherwise. *)
Lemma relay_emits up st :
  ∃ terminal,
    emits (ex_chatId ex)
      ((MessageUpdate (ex_messageId ex) <$> snapshots "" (chunks_of up))
         ++ [terminal])
      st (relay ex up st)
    ∧ is_update terminal = false
    ∧ is_complete terminal = completes up
    ∧ is_error terminal = negb (completes up).
Proof.
  destruct up as [| |chunks e]; simpl.
  - eexists. split; [apply relay_catch_emits | done].
  - eexists. split; [apply relay_catch_emits | done].
  - pose proof (relay_loop_emits ex chunks ("", st)) as Hl. simpl in Hl.
    destruct (relay_loop ex chunks ("", st)) as [full st1]. simpl in Hl.
    destruct e.
    + eexists. split;
        [eapply emits_trans; [exact Hl | apply relay_complete_emits] | done].
    + eexists. split;
        [eapply emits_trans; [exact Hl | apply relay_catch_emits] | done].
Qed.

(** What a relay leaves in storage. *)
Lemma relay_storage up st :
  storage (relay ex up st)
  = overwrite (ex_messageId ex)
      (Some (if completes up
             then concat_text (delta_text <$> chunks_of up)
             else fallback_content))
      (storage st).
Proof.
  destruct up as [| |chunks e]; simpl;
    [apply relay_catch_storage | apply relay_catch_storage |].
  pose proof (relay_loop_storage ex chunks ("", st)) as Hs.
  pose proof (relay_loop_fullContent ex chunks ("", st)) as Hf.
  destruct (relay_loop ex chunks ("", st)) as [full st1]. simpl in *.
  assert (∀ c, overwrite (ex_messageId ex) (Some c) (storage st1)
               = overwrite (ex_messageId ex) (Some c) (storage st)) as Hw.
  { intros c. rewrite Hs.
    destruct (last (snapshots "" chunks)); [apply overwrite_twice | done]. }
  destruct e.
  - rewrite relay_complete_storage, Hw. by rewrite Hf.
  - by rewrite relay_catch_storage, Hw.
Qed.

Lemma relay_content up st m :
  MemStorage.messages (storage st) !! ex_messageId ex = Some m →
  stored_content (ex_messageId ex) (relay ex up st)
  = Some (if completes up
          then concat_text (delta_text <$> chunks_of up)
          else fallback_content).
Proof.
  intros Hm. unfold stored_content.
  rewrite relay_storage, overwrite_lookup, decide_True by done.
  by rewrite Hm.
Qed.

Lemma count_updates_in_updates (l : list string) :
  count_where is_update (MessageUpdate (ex_messageId ex) <$> l) = length l.
Proof.
  rewrite count_where_all; [by rewrite length_fmap|].
  intros f [c [-> _]]%list_elem_of_fmap. done.
Qed.

Lemma count_others_in_updates (P : Frame → bool) (l : list string) :
  (∀ id c, P (MessageUpdate id c) = false) →
  count_where P (MessageUpdate (ex_messageId ex) <$> l) = 0%nat.
Proof.
  intros HP. apply count_where_none.
  intros f [c [-> _]]%list_elem_of_fmap. apply HP.
Qed.

End relay_end.

(** * The relay *)

(** A viewer that stays joined to the chat with an open socket gets the
    frames of a run of broadcasts appended to what it had. *)
Lemma emits_viewer chat fs st st' id c :
  emits chat fs st st' →
  clients st !! id = Some c →
  receives chat c = true →
  ∃ c', clients st' !! id = Some c' ∧ sent (ws c') = sent (ws c) ++ fs.
Proof.
  intros [Hc _] Hid Hr. rewrite Hc, Hid. simpl. eexists. split; [done|].
  unfold deliver_all. by rewrite Hr.
Qed.

(** C1.  Streaming: after the handler has processed any prefix of the chunks
    the upstream call delivers, the content stored for the placeholder is the
    concatenation of the texts of that prefix (and the state reached on the
    prefix is the one the loop continues from); when the stream ends with the
    iterator exhausted, the stored content is the concatenation of all texts,
    exactly one message-complete was broadcast for the chat, and every viewer
    joined to the chat with an open socket received exactly one. *)
Theorem relay_persists_concatenation
  env req t_user t_bot st res st1 ex (chunks : list Chunk) :
  postMessage env req t_user t_bot st = (res, st1, Some ex) →
  (∀ k : nat,
     stored_content (ex_messageId ex)
       (relay_loop ex (take k chunks) ("", st1)).2
     = Some (concat_text (delta_text <$> take k chunks))
     ∧ relay_loop ex chunks ("", st1)
       = relay_loop ex (drop k chunks)
           (relay_loop ex (take k chunks) ("", st1)))
  ∧ stored_content (ex_messageId ex) (relay ex (Streamed chunks Done) st1)
    = Some (concat_text (delta_text <$> chunks))
  ∧ count_published (ex_chatId ex) is_complete
      (published_since st1 (relay ex (Streamed chunks Done) st1)) = 1%nat
  ∧ (∀ id c,
       clients st1 !! id = Some c →
       receives (ex_chatId ex) c = true →
       ∃ c', clients (relay ex (Streamed chunks Done) st1) !! id = Some c'
             ∧ count_where is_complete (sent (ws c'))
               = S (count_where is_complete (sent (ws c)))).
Proof.
  intros Hpost.
  destruct (postMessage_placeholder _ _ _ _ _ _ _ _ Hpost)
    as (m & Hm & Hcontent & _).
  destruct (relay_emits ex (Streamed chunks Done) st1)
    as (terminal & Hemits & _ & Hcomplete & _).
  change (chunks_of (Streamed chunks Done)) with chunks in Hemits.
  assert (count_where is_complete
            ((MessageUpdate (ex_messageId ex) <$> snapshots "" chunks)
               ++ [terminal]) = 1%nat) as Hcount.
  { rewrite count_where_app, count_others_in_updates by done.
    unfold count_where. simpl. by rewrite Hcomplete. }
  split; [|split; [|split]].
  - intros k. split.
    + by rewrite (relay_loop_content ex (take k chunks) ("", st1) m).
    + by rewrite <- relay_loop_app, take_drop.
  - by rewrite (relay_content ex (Streamed chunks Done) st1 m).
  - by rewrite (emits_since _ _ _ _ Hemits), count_published_frames.
  - intros id c Hid Hr.
    destruct (emits_viewer _ _ _ _ _ _ Hemits Hid Hr) as (c' & Hc' & Hsent).
    exists c'. split; [done|].
    rewrite Hsent, count_where_app, Hcount. lia.
Qed.

Lemma relay_persists_concatenation_witness :
  postMessage Example.env Example.hi 1 2 Example.server
  = ((postMessage Example.env Example.hi 1 2 Example.server).1.1,
     Example.answered, Some Example.exchange)
  ∧ stored_content 102
      (relay_loop Example.exchange (take 1 Example.deltas)
         ("", Example.answered)).2 = Some "Hel"
  ∧ stored_content 102
      (relay Example.exchange (Streamed Example.deltas Done) Example.answered)
    = Some "Hello!".
Proof.
  assert (postMessage Example.env Example.hi 1 2 Example.server
          = ((postMessage Example.env Example.hi 1 2 Example.server).1.1,
             Example.answered, Some Example.exchange)) as H
    by (vm_compute; reflexivity).
  split; [exact H|].
  pose proof (relay_persists_concatenation _ _ _ _ _ _ _ _ Example.deltas H)
    as (Hprefix & Hall & _).
  split; [exact (proj1 (Hprefix 1%nat)) | exact Hall].
Defined.

(** C2.  Failure: when the upstream call does not end with the iterator
    exhausted (the call is rejected, the iterator throws before or after some
    chunks, or what the call returns cannot be iterated), the content stored
    for the placeholder is the fixed fallback text, exactly one message-error
    was broadcast for the chat and no message-complete was broadcast at
    all. *)
Theorem relay_failure_falls_back
  env req t_user t_bot st res st1 ex (up : Upstream) :
  postMessage env req t_user t_bot st = (res, st1, Some ex) →
  completes up = false →
  stored_content (ex_messageId ex) (relay ex up st1)
  = Some "Sorry, I had trouble generating a response. Please try again."
  ∧ count_published (ex_chatId ex) is_error
      (published_since st1 (relay ex up st1)) = 1%nat
  ∧ count_where (λ e, is_complete e.2)
      (published_since st1 (relay ex up st1)) = 0%nat
  ∧ (∀ id c,
       clients st1 !! id = Some c →
       receives (ex_chatId ex) c = true →
       ∃ c', clients (relay ex up st1) !! id = Some c'
             ∧ count_where is_error (sent (ws c'))
               = S (count_where is_error (sent (ws c)))
             ∧ count_where is_complete (sent (ws c'))
               = count_where is_complete (sent (ws c))).
Proof.
  intros Hpost Hfail.
  destruct (postMessage_placeholder _ _ _ _ _ _ _ _ Hpost) as (m & Hm & _).
  destruct (relay_emits ex up st1)
    as (terminal & Hemits & _ & Hcomplete & Herror).
  rewrite Hfail in Hcomplete, Herror. simpl in Herror.
  set (fs := (MessageUpdate (ex_messageId ex) <$> snapshots "" (chunks_of up))
               ++ [terminal]) in *.
  assert (count_where is_error fs = 1%nat) as Hone.
  { unfold fs. rewrite count_where_app, count_others_in_updates by done.
    unfold count_where. simpl. by rewrite Herror. }
  assert (count_where is_complete fs = 0%nat) as Hnone.
  { unfold fs. rewrite count_where_app, count_others_in_updates by done.
    unfold count_where. simpl. by rewrite Hcomplete. }
  split; [|split; [|split]].
  - rewrite (relay_content ex up st1 m Hm). by rewrite Hfail.
  - by rewrite (emits_since _ _ _ _ Hemits), count_published_frames.
  - rewrite (emits_since _ _ _ _ Hemits). rewrite <- Hnone.
    unfold count_where. clear. induction fs as [|f fs IH]; [done|].
    rewrite fmap_cons. simpl. destruct (is_complete f); simpl; by rewrite IH.
  - intros id c Hid Hr.
    destruct (emits_viewer _ _ _ _ _ _ Hemits Hid Hr) as (c' & Hc' & Hsent).
    exists c'. split; [done|].
    rewrite Hsent, !count_where_app, Hone, Hnone. lia.
Qed.

Lemma relay_failure_falls_back_witness :
  stored_content 102
    (relay Example.exchange (Streamed Example.deltas Failed) Example.answered)
  = Some "Sorry, I had trouble generating a response. Please try again."
  ∧ stored_content 102 (relay Example.exchange Rejected Example.answered)
    = Some "Sorry, I had trouble generating a response. Please try again.".
Proof.
  assert (postMessage Example.env Example.hi 1 2 Example.server
          = ((postMessage Example.env Example.hi 1 2 Example.server).1.1,
             Example.answered, Some Example.exchange)) as H
    by (vm_compute; reflexivity).
  split.
  - exact (proj1 (relay_failure_falls_back _ _ _ _ _ _ _ _
                    (Streamed Example.deltas Failed) H eq_refl)).
  - exact (proj1 (relay_failure_falls_back _ _ _ _ _ _ _ _
                    Rejected H eq_refl)).
Defined.

(** C9.  A chunk whose text is empty or absent leaves the server as it was:
    nothing is stored and nothing is broadcast for it.  Over a whole stream,
    however it ends, the message-update frames broadcast for the chat, and
    those received by a viewer joined to the chat with an open socket, are
    as many as the chunks that carry text. *)
Theorem relay_skips_empty_deltas (ex : Exchange) :
  (∀ acc chunk, delta_text chunk = "" → relay_chunk ex acc chunk = acc)
  ∧ (∀ chunks e st,
       count_published (ex_chatId ex) is_update
         (published_since st (relay ex (Streamed chunks e) st))
       = count_where has_text chunks)
  ∧ (∀ chunks e st id c,
       clients st !! id = Some c →
       receives (ex_chatId ex) c = true →
       ∃ c', clients (relay ex (Streamed chunks e) st) !! id = Some c'
             ∧ count_where is_update (sent (ws c'))
               = (count_where is_update (sent (ws c))
                  + count_where has_text chunks)%nat).
Proof.
  assert (∀ chunks e st, ∃ fs,
            emits (ex_chatId ex) fs st (relay ex (Streamed chunks e) st)
            ∧ count_where is_update fs = count_where has_text chunks) as H.
  { intros chunks e st.
    destruct (relay_emits ex (Streamed chunks e) st)
      as (terminal & Hemits & Hupdate & _).
    eexists. split; [exact Hemits|].
    rewrite count_where_app, count_updates_in_updates.
    rewrite length_snapshots. unfold count_where at 2. simpl.
    rewrite Hupdate. simpl. lia. }
  split; [apply relay_chunk_empty | split].
  - intros chunks e st. destruct (H chunks e st) as (fs & Hemits & Hcount).
    by rewrite (emits_since _ _ _ _ Hemits), count_published_frames.
  - intros chunks e st id c Hid Hr.
    destruct (H chunks e st) as (fs & Hemits & Hcount).
    destruct (emits_viewer _ _ _ _ _ _ Hemits Hid Hr) as (c' & Hc' & Hsent).
    exists c'. split; [done|].
    by rewrite Hsent, count_where_app, Hcount.
Qed.

Lemma relay_skips_empty_deltas_witness :
  relay_chunk Example.exchange ("Hel", Example.answered) (Some "")
  = ("Hel", Example.answered)
  ∧ relay_chunk Example.exchange ("Hel", Example.answered) None
    = ("Hel", Example.answered)
  ∧ ∃ c', clients (relay Example.exchange (Streamed Example.deltas Done)
                     Example.answered) !! "a" = Some c'
          ∧ count_where is_update (sent (ws c')) = 2%nat.
Proof.
  pose proof (relay_skips_empty_deltas Example.exchange) as (Hskip & _ & Hview).
  split; [exact (Hskip _ (Some "") eq_refl)|].
  split; [exact (Hskip _ None eq_refl)|].
  exact (Hview Example.deltas Done Example.answered "a"
           (Example.viewer OPEN (Some 7)) eq_refl eq_refl).
Defined.

(** * Submitting a message *)

Section post_message_route.
Variables (env : Env) (rq : MultipartRequest) (t_user t_bot : Z).
Implicit Types (st : Server).

Lemma postMessageRoute_refused st :
  upload_array (form_parts rq) = None →
  postMessageRoute env rq t_user t_bot st = (UploadRefused, st, None).
Proof. intros H. unfold postMessageRoute. by rewrite H. Qed.

Lemma postMessageRoute_handled st files :
  upload_array (form_parts rq) = Some files →
  postMessageRoute env rq t_user t_bot st
  = (Handled (postMessage env (handler_request rq files) t_user t_bot st).1.1,
     (postMessage env (handler_request rq files) t_user t_bot st).1.2,
     (postMessage env (handler_request rq files) t_user t_bot st).2).
Proof.
  intros H. unfold postMessageRoute. rewrite H.
  by destruct (postMessage env (handler_request rq files) t_user t_bot st)
    as [[res st1] ex].
Qed.

(** What multer lets through passed [fileFilter], part by part, and is at
    most five files. *)
Lemma upload_array_Some files :
  upload_array (form_parts rq) = Some files →
  files = part_file <$> form_parts rq
  ∧ (length files ≤ 5)%nat
  ∧ ∀ f, f ∈ files → fileFilter (originalname f) (mimetype f) = true.
Proof.
  unfold upload_array.
  destruct (length (form_parts rq) <=? 5)%nat eqn:Hn; [|done].
  destruct (forallb part_accepted (form_parts rq)) eqn:Hall; [|done].
  simpl. intros [= <-]. split; [done|]. split.
  - rewrite length_fmap. by apply Nat.leb_le.
  - intros f (p & -> & Hp)%list_elem_of_fmap.
    rewrite forallb_forall in Hall. apply list_elem_of_In in Hp.
    specialize (Hall p Hp). unfold part_accepted in Hall.
    by apply andb_prop in Hall as [[_ ?]%andb_prop _].
Qed.

End post_message_route.

(** C3, amended.  A request that the upload middleware lets through, for an
    existing chat and with a content field in its form, is answered 201
    provided a key is configured (in the settings or in the environment) and
    the chat's bot is in the store.  The answer carries the user message and
    the placeholder, both as stored at that moment; the user message has the
    files of the form, the placeholder's content is the empty string. *)
Theorem post_message_answers_201
  env rq t_user t_bot st files chat_id chat c bot :
  upload_array (form_parts rq) = Some files →
  form_chatId rq = Some chat_id →
  MemStorage.getChat chat_id (storage st) = Some chat →
  form_content rq = Some c →
  hasApiKey (MemStorage.getSettings (storage st)) env = true →
  MemStorage.getBot (Chat.botId chat) (storage st) = Some bot →
  ∃ um bm st1 ex,
    postMessageRoute env rq t_user t_bot st
    = (Handled (respond 201 (BExchange um bm)), st1, Some ex)
    ∧ (Message.chatId um, Message.content um, Message.role um)
      = (chat_id, c, "user")
    ∧ Message.files um
      = match files with
        | [] => None
        | _ :: _ => Some (to_attachment <$> files)
        end
    ∧ MemStorage.messages (storage st1) !! Message.id um = Some um
    ∧ (Message.chatId bm, Message.content bm, Message.role bm)
      = (chat_id, "", "assistant")
    ∧ MemStorage.messages (storage st1) !! Message.id bm = Some bm
    ∧ ex_messageId ex = Message.id bm.
Proof.
  intros Hup Hp Hchat Hc Hkey Hbot.
  rewrite (postMessageRoute_handled env rq t_user t_bot st files Hup).
  rewrite (postMessage_accepted env (handler_request rq files) t_user t_bot
             st chat_id chat c bot Hp Hchat Hc Hkey Hbot).
  eexists _, _, _, _. split; [reflexivity|].
  simpl. split; [done|]. split; [by destruct files|].
  split; [|split; [done|]; split; [|done]].
  - rewrite lookup_insert_ne by lia. apply lookup_insert_eq.
  - apply lookup_insert_eq.
Qed.

Lemma post_message_answers_201_witness :
  ∃ um bm st1 ex,
    postMessageRoute Example.env
      (Example.form 7 (Some "hi") [Example.notes]) 1 2 Example.server
    = (Handled (respond 201 (BExchange um bm)), st1, Some ex)
    ∧ (Message.chatId um, Message.content um, Message.role um)
      = (7, "hi", "user")
    ∧ Message.files um
      = Some [ {| fa_name := "notes.md"; fa_type := "text/markdown";
                  fa_content := "IyBoaQ==" |} ]
    ∧ MemStorage.messages (storage st1) !! Message.id um = Some um
    ∧ (Message.chatId bm, Message.content bm, Message.role bm)
      = (7, "", "assistant")
    ∧ MemStorage.messages (storage st1) !! Message.id bm = Some bm
    ∧ ex_messageId ex = Message.id bm.
Proof.
  apply (post_message_answers_201 Example.env
           (Example.form 7 (Some "hi") [Example.notes]) 1 2 Example.server
           [part_file Example.notes]
           7 (Chat.mk 7 1 "Scenario" 0) "hi" Example.helper);
    vm_compute; reflexivity.
Defined.

(** C3 as stated fails: chat 7 exists and the content is "hi", yet with the
    settings of a fresh store and no key in the environment the answer is
    400; and with a key, the same form carrying a picture is answered 500. *)
Lemma post_message_existing_chat_refused :
  MemStorage.getChat 7 (storage Example.server_without_key)
  = Some (Chat.mk 7 1 "Scenario" 0)
  ∧ form_content (Example.form 7 (Some "hi") []) = Some "hi"
  ∧ answer_status (postMessageRoute Example.env
                     (Example.form 7 (Some "hi") []) 1 2
                     Example.server_without_key).1.1 = 400
  ∧ answer_status (postMessageRoute Example.env
                     (Example.form 7 (Some "hi") [Example.picture]) 1 2
                     Example.server).1.1 = 500.
Proof. vm_compute. done. Qed.

(** C5, amended.  A request whose upload is refused (a file of a type that
    is not accepted, a sixth file, a file that is too large or in another
    field) never reaches the handler: it is answered 500, whatever its chat
    id and content.  Of the requests that the upload lets through, a chat id
    that is not a number is answered 400; a numeric id of no stored chat is
    answered 404; for an existing chat, a form without a content field is
    answered 400, with or without files.  None of the four changes the
    server.  Content that is the empty string is not refused: with a key
    configured and the bot in store it is answered 201. *)
Theorem post_message_rejections env rq t_user t_bot st :
  (upload_array (form_parts rq) = None →
   postMessageRoute env rq t_user t_bot st = (UploadRefused, st, None)
   ∧ answer_status (postMessageRoute env rq t_user t_bot st).1.1 = 500)
  ∧ (is_Some (upload_array (form_parts rq)) →
     form_chatId rq = None →
     postMessageRoute env rq t_user t_bot st
     = (Handled (respond 400 (BError "Invalid chat ID")), st, None))
  ∧ (∀ chat_id,
       is_Some (upload_array (form_parts rq)) →
       form_chatId rq = Some chat_id →
       MemStorage.getChat chat_id (storage st) = None →
       postMessageRoute env rq t_user t_bot st
       = (Handled (respond 404 (BError "Chat not found")), st, None))
  ∧ (∀ chat_id chat,
       is_Some (upload_array (form_parts rq)) →
       form_chatId rq = Some chat_id →
       MemStorage.getChat chat_id (storage st) = Some chat →
       form_content rq = None →
       postMessageRoute env rq t_user t_bot st
       = (Handled (respond 400 (BError "Invalid message data")), st, None))
  ∧ (∀ chat_id chat bot,
       is_Some (upload_array (form_parts rq)) →
       form_chatId rq = Some chat_id →
       MemStorage.getChat chat_id (storage st) = Some chat →
       form_content rq = Some "" →
       hasApiKey (MemStorage.getSettings (storage st)) env = true →
       MemStorage.getBot (Chat.botId chat) (storage st) = Some bot →
       answer_status (postMessageRoute env rq t_user t_bot st).1.1 = 201).
Proof.
  split; [|split; [|split; [|split]]].
  - intros Hup.
    by rewrite (postMessageRoute_refused env rq t_user t_bot st Hup).
  - intros [files Hup] Hp.
    rewrite (postMessageRoute_handled env rq t_user t_bot st files Hup).
    by rewrite (postMessage_nan env (handler_request rq files) t_user t_bot
                  st Hp).
  - intros chat_id [files Hup] Hp Hchat.
    rewrite (postMessageRoute_handled env rq t_user t_bot st files Hup).
    by rewrite (postMessage_unknown_chat env (handler_request rq files)
                  t_user t_bot st chat_id Hp Hchat).
  - intros chat_id chat [files Hup] Hp Hchat Hc.
    rewrite (postMessageRoute_handled env rq t_user t_bot st files Hup).
    by rewrite (postMessage_no_content env (handler_request rq files)
                  t_user t_bot st chat_id chat Hp Hchat Hc).
  - intros chat_id chat bot [files Hup] Hp Hchat Hc Hkey Hbot.
    rewrite (postMessageRoute_handled env rq t_user t_bot st files Hup).
    by rewrite (postMessage_accepted env (handler_request rq files)
                  t_user t_bot st chat_id chat "" bot Hp Hchat Hc Hkey Hbot).
Qed.

Lemma post_message_rejections_witness :
  postMessageRoute Example.env (Example.form 9 (Some "hi") []) 1 2
    Example.server
  = (Handled (respond 404 (BError "Chat not found")), Example.server, None)
  ∧ postMessageRoute Example.env (Example.form 7 None [Example.notes]) 1 2
      Example.server
    = (Handled (respond 400 (BError "Invalid message data")),
       Example.server, None)
  ∧ postMessageRoute Example.env
      (Example.form 7 (Some "hi") [Example.picture]) 1 2 Example.server
    = (UploadRefused, Example.server, None).
Proof.
  split; [|split].
  - exact (proj1 (proj2 (proj2 (post_message_rejections Example.env
             (Example.form 9 (Some "hi") []) 1 2 Example.server)))
             9 (ex_intro _ [] eq_refl) eq_refl eq_refl).
  - exact (proj1 (proj2 (proj2 (proj2 (post_message_rejections Example.env
             (Example.form 7 None [Example.notes]) 1 2 Example.server))))
             7 (Chat.mk 7 1 "Scenario" 0)
             (ex_intro _ [part_file Example.notes] eq_refl)
             eq_refl eq_refl eq_refl).
  - exact (proj1 (proj1 (post_message_rejections Example.env
             (Example.form 7 (Some "hi") [Example.picture]) 1 2
             Example.server) eq_refl)).
Defined.

(** C5 as stated fails twice: chat 9 is unknown and the answer is 404, not
    400; content and files are both empty for chat 7 and the answer is 201. *)
Lemma post_message_unknown_chat_404_empty_content_201 :
  MemStorage.getChat 9 (storage Example.server) = None
  ∧ answer_status (postMessageRoute Example.env
                     (Example.form 9 (Some "hi") []) 1 2
                     Example.server).1.1 = 404
  ∧ form_parts (Example.form 7 (Some "") []) = []
  ∧ answer_status (postMessageRoute Example.env
                     (Example.form 7 (Some "") []) 1 2
                     Example.server).1.1 = 201.
Proof. vm_compute. done. Qed.

(** C7, amended.  With no key in the settings and none in the environment the
    route never starts an exchange and stops where its answer is given, and
    every message in the store afterwards was there before or has the role
    "user": no assistant message is stored for the request.  The answer is
    the 400 of the key check when the request got that far, that is, when
    the upload was let through, the chat exists and the form has a content
    field.  A request stopped earlier gets the answer of the stage that
    stopped it: 500 for a refused upload, 404 for the number of a chat that
    is not stored, and otherwise again 400. *)
Theorem post_message_without_key env rq t_user t_bot up st :
  hasApiKey (MemStorage.getSettings (storage st)) env = false →
  let r := handle_postMessageRoute env rq t_user t_bot up st in
  r.2 = r.1.2
  ∧ (postMessageRoute env rq t_user t_bot st).2 = None
  ∧ answer_status r.1.1
    = match upload_array (form_parts rq), form_chatId rq with
      | None, _ => 500
      | Some _, None => 400
      | Some _, Some chat_id =>
          match MemStorage.getChat chat_id (storage st) with
          | Some _ => 400
          | None => 404
          end
      end
  ∧ (∀ chat_id chat c,
       is_Some (upload_array (form_parts rq)) →
       form_chatId rq = Some chat_id →
       MemStorage.getChat chat_id (storage st) = Some chat →
       form_content rq = Some c →
       r.1.1 = Handled (respond 400 (BError
                 "API key not configured in settings or environment variables (.env)")))
  ∧ (∀ id m,
       MemStorage.messages (storage r.2) !! id = Some m →
       MemStorage.messages (storage st) !! id = Some m
       ∨ Message.role m = "user").
Proof.
  intros Hkey. unfold handle_postMessageRoute.
  destruct (upload_array (form_parts rq)) as [files|] eqn:Hup;
    [|rewrite (postMessageRoute_refused env rq t_user t_bot st Hup); simpl;
      split; [done|split; [done|split; [done|split; [|auto]]]];
      by intros ? ? ? [? ?]].
  rewrite (postMessageRoute_handled env rq t_user t_bot st files Hup).
  set (req := handler_request rq files).
  change (form_chatId rq) with (param_chatId req).
  change (form_content rq) with (body_content req).
  destruct (param_chatId req) as [chat_id|] eqn:Hp;
    [|rewrite (postMessage_nan env req t_user t_bot st Hp); simpl;
      split; [done|split; [done|split; [done|split; [done|auto]]]]].
  destruct (MemStorage.getChat chat_id (storage st)) as [chat|] eqn:Hchat;
    [|rewrite (postMessage_unknown_chat env req t_user t_bot st chat_id
                 Hp Hchat); simpl;
      split; [done|split; [done|split; [done|split; [|auto]]]];
      intros ? ? ? _ [= <-]; congruence].
  destruct (body_content req) as [c|] eqn:Hc;
    [|rewrite (postMessage_no_content env req t_user t_bot st chat_id chat
                 Hp Hchat Hc); simpl;
      split; [done|split; [done|split; [done|split; [done|auto]]]]].
  rewrite (postMessage_no_key env req t_user t_bot st chat_id chat c
             Hp Hchat Hc Hkey). simpl.
  split; [done|split; [done|split; [done|split; [done|]]]].
  intros id m.
  destruct (decide (id = MemStorage.messageCurrentId (storage st))) as [->|Hne].
  - rewrite lookup_insert_eq. intros [= <-]. by right.
  - rewrite lookup_insert_ne by done. by left.
Qed.

Lemma post_message_without_key_witness :
  (handle_postMessageRoute Example.env (Example.form 7 (Some "hi") []) 1 2
     (Streamed Example.deltas Done) Example.server_without_key).1.1
  = Handled (respond 400 (BError
      "API key not configured in settings or environment variables (.env)"))
  ∧ MemStorage.messages
      (storage (handle_postMessageRoute Example.env
                  (Example.form 7 (Some "hi") []) 1 2
                  (Streamed Example.deltas Done)
                  Example.server_without_key).2) !! 102 = None.
Proof.
  pose proof (post_message_without_key Example.env
                (Example.form 7 (Some "hi") []) 1 2
                (Streamed Example.deltas Done) Example.server_without_key
                eq_refl) as (_ & _ & _ & H400 & _).
  split; [exact (H400 7 (Chat.mk 7 1 "Scenario" 0) "hi"
                   (ex_intro _ [] eq_refl) eq_refl eq_refl eq_refl)|].
  vm_compute. reflexivity.
Defined.

(** C7 as stated fails: without a key, a message for the unknown chat 9 is
    answered 404, and a message for chat 7 that carries a picture 500. *)
Lemma post_message_without_key_not_400 :
  hasApiKey (MemStorage.getSettings (storage Example.server_without_key))
    Example.env = false
  ∧ answer_status (postMessageRoute Example.env
                     (Example.form 9 (Some "hi") []) 1 2
                     Example.server_without_key).1.1 = 404
  ∧ answer_status (postMessageRoute Example.env
                     (Example.form 7 (Some "hi") [Example.picture]) 1 2
                     Example.server_without_key).1.1 = 500.
Proof. vm_compute. done. Qed.

(** C10.  When the handler answers 400 for want of a key, the user message of
    the request is in the store, under the id the counter had, and the
    handler does nothing after its response. *)
Theorem post_message_keeps_user_message
  env req t_user t_bot up st chat_id chat c :
  param_chatId req = Some chat_id →
  MemStorage.getChat chat_id (storage st) = Some chat →
  body_content req = Some c →
  hasApiKey (MemStorage.getSettings (storage st)) env = false →
  let r := handle_postMessage env req t_user t_bot up st in
  r.1.1 = respond 400 (BError
            "API key not configured in settings or environment variables (.env)")
  ∧ r.2 = r.1.2
  ∧ MemStorage.messages (storage r.2)
      !! MemStorage.messageCurrentId (storage st)
    = Some (Message.mk (MemStorage.messageCurrentId (storage st))
              chat_id c "user" t_user (request_files req)).
Proof.
  intros Hp Hchat Hc Hkey. unfold handle_postMessage.
  erewrite postMessage_no_key by done. simpl.
  split; [done|split; [done|]]. apply lookup_insert_eq.
Qed.

Lemma post_message_keeps_user_message_witness :
  status (handle_postMessage Example.env Example.hi 1 2 Rejected
            Example.server_without_key).1.1 = 400
  ∧ MemStorage.messages
      (storage (handle_postMessage Example.env Example.hi 1 2 Rejected
                  Example.server_without_key).2) !! 101
    = Some (Message.mk 101 7 "hi" "user" 1 None).
Proof.
  pose proof (post_message_keeps_user_message Example.env Example.hi 1 2
                Rejected Example.server_without_key 7
                (Chat.mk 7 1 "Scenario" 0) "hi"
                eq_refl eq_refl eq_refl eq_refl) as (Hres & _ & Hmsg).
  split; [exact (f_equal status Hres) | exact Hmsg].
Defined.

(** * The clients map *)

(** C4, amended.  A broadcast for a chat appends the frame to the socket of
    every registered connection that is bound to that chat and whose socket
    is open, and leaves every other connection (bound elsewhere, unbound, or
    not open) exactly as it was; what happens to one connection does not
    depend on the others.  A broadcast removes no connection, whatever the
    state of its socket: connections leave the map in the close handler,
    which removes that connection and no other. *)
Theorem broadcast_reaches_open_viewers
  (chat : Z) (f : Frame) (cl : gmap string Client) :
  (∀ id c,
     cl !! id = Some c →
     chatId c = Some chat → readyState (ws c) = OPEN →
     broadcast chat f cl !! id
     = Some {| ws := {| readyState := OPEN; sent := sent (ws c) ++ [f] |};
               chatId := Some chat |})
  ∧ (∀ id c,
       cl !! id = Some c →
       chatId c ≠ Some chat ∨ readyState (ws c) ≠ OPEN →
       broadcast chat f cl !! id = Some c)
  ∧ dom (broadcast chat f cl) = dom cl
  ∧ (∀ id,
       on_close id cl !! id = None
       ∧ ∀ id', id' ≠ id → on_close id cl !! id' = cl !! id').
Proof.
  split; [|split; [|split]].
  - intros id c Hid Hchat Hopen. rewrite broadcast_lookup, Hid. simpl.
    unfold deliver, receives, send.
    rewrite !bool_decide_eq_true_2 by done. simpl. by rewrite Hchat, Hopen.
  - intros id c Hid Hskip. rewrite broadcast_lookup, Hid. simpl.
    unfold deliver, receives.
    destruct Hskip as [H|H]; rewrite (bool_decide_eq_false_2 _ H);
      [done | by rewrite andb_false_r].
  - apply dom_fmap_L.
  - intros id. unfold on_close. split; [apply lookup_delete_eq|].
    intros id' Hne. by rewrite lookup_delete_ne.
Qed.

Lemma broadcast_reaches_open_viewers_witness :
  broadcast 7 (MessageUpdate 102 "Hel") Example.hub !! "a"
  = Some {| ws := {| readyState := OPEN; sent := [MessageUpdate 102 "Hel"] |};
            chatId := Some 7 |}
  ∧ broadcast 7 (MessageUpdate 102 "Hel") Example.hub !! "b"
    = Some (Example.viewer OPEN (Some 8)).
Proof.
  pose proof (broadcast_reaches_open_viewers 7 (MessageUpdate 102 "Hel")
                Example.hub) as (Hsend & Hskip & _).
  split.
  - exact (Hsend "a" (Example.viewer OPEN (Some 7)) eq_refl eq_refl eq_refl).
  - apply (Hskip "b" (Example.viewer OPEN (Some 8)) eq_refl).
    left. simpl. congruence.
Defined.

(** C4 as stated fails: connection "c" is bound to chat 7 but its socket is
    closing; a broadcast for chat 7 sends it nothing and leaves it
    registered. *)
Lemma broadcast_keeps_closing_viewer :
  Example.hub !! "c"
  = Some {| ws := {| readyState := CLOSING; sent := [] |}; chatId := Some 7 |}
  ∧ broadcast 7 (MessageUpdate 102 "Hel") Example.hub !! "c"
    = Some {| ws := {| readyState := CLOSING; sent := [] |};
              chatId := Some 7 |}.
Proof. vm_compute. done. Qed.

(** * Settings *)

Section settings.
Variable env : Env.
Implicit Types (s : gmap string JVal).

Lemma safe_settings_body_apiKey s : safe_settings_body env s !! "apiKey" = None.
Proof.
  unfold safe_settings_body.
  rewrite lookup_insert_ne by done.
  destruct (OPENAI_API_URL env) as [url|]; [destruct (truthy_string url)|];
    rewrite ?(lookup_insert_ne _ "envApiUrl"),
            ?(lookup_delete_ne _ "envApiUrl") by done;
    rewrite lookup_insert_ne by done; apply lookup_delete_eq.
Qed.

Lemma safe_settings_body_hasApiKey s :
  safe_settings_body env s !! "hasApiKey"
  = Some (JBool (truthy (s !! "apiKey") || truthy_env (OPENAI_API_KEY env))).
Proof.
  unfold safe_settings_body.
  rewrite lookup_insert_ne by done.
  destruct (OPENAI_API_URL env) as [url|]; [destruct (truthy_string url)|];
    rewrite ?(lookup_insert_ne _ "envApiUrl"),
            ?(lookup_delete_ne _ "envApiUrl") by done;
    apply lookup_insert_eq.
Qed.

Lemma safe_settings_body_same s s' :
  same_but_key s s' → safe_settings_body env s = safe_settings_body env s'.
Proof. intros [Hd Ht]. unfold safe_settings_body. by rewrite Hd, Ht. Qed.

Lemma same_but_key_union (data s s' : gmap string JVal) :
  same_but_key s s' → same_but_key (data ∪ s) (data ∪ s').
Proof.
  intros [Hd Ht]. split.
  - by rewrite !delete_union, Hd.
  - rewrite !lookup_union.
    by destruct (data !! "apiKey"), (s !! "apiKey"), (s' !! "apiKey").
Qed.

End settings.

Lemma settings_present (ops : list StorageOp) (s : MemStorage.t) :
  is_Some (MemStorage.getSettings s) →
  is_Some (MemStorage.getSettings (apply_ops ops s)).
Proof.
  revert s. induction ops as [|op ops IH]; intros s Hs; [done|].
  apply IH. clear IH. unfold MemStorage.getSettings in *.
  destruct op; simpl; try done;
    unfold Storage.updateBot, Storage.updateChat, MemStorage.updateMessage;
    repeat case_match; simpl; done.
Qed.

(** C8, amended.  The stored key never reaches a client, and [hasApiKey] is
    in every response that carries the settings, not in every response.  GET
    /api/settings answers 200 whenever the store has settings, which a store
    of the program always has; PATCH /api/settings answers 200 whenever the
    body is accepted.  The object of a 200 has no [apiKey] field and has a
    boolean [hasApiKey], true exactly when the stored key is truthy or the
    environment has a key.  A refused PATCH is answered 400 with a message
    and without [hasApiKey].  And every response is the same for any two
    stored keys of the same truthiness, all else being equal: nothing of
    the stored key but whether there is one can be told from a response. *)
Theorem settings_responses_hide_key (env : Env) :
  (∀ st s,
     MemStorage.getSettings (storage st) = Some s →
     status (getSettingsRoute env st) = 200
     ∧ settings_field "apiKey" (getSettingsRoute env st) = None
     ∧ settings_field "hasApiKey" (getSettingsRoute env st)
       = Some (JBool (truthy (s !! "apiKey")
                      || truthy_env (OPENAI_API_KEY env))))
  ∧ (∀ now ops,
       is_Some (MemStorage.getSettings
                  (apply_ops ops (MemStorage.create now))))
  ∧ (∀ b st data,
       insertSettingsSchema_partial_safeParse b = Some data →
       status (patchSettingsRoute env b st).1 = 200
       ∧ settings_field "apiKey" (patchSettingsRoute env b st).1 = None
       ∧ settings_field "hasApiKey" (patchSettingsRoute env b st).1
         = Some (JBool
                   (truthy ((MemStorage.updateSettings data (storage st)).1
                              !! "apiKey")
                    || truthy_env (OPENAI_API_KEY env))))
  ∧ (∀ b st,
       insertSettingsSchema_partial_safeParse b = None →
       patchSettingsRoute env b st
       = (respond 400 (BError "Invalid settings data"), st)
       ∧ settings_field "hasApiKey" (patchSettingsRoute env b st).1 = None)
  ∧ (∀ st st' s s',
       MemStorage.getSettings (storage st) = Some s →
       MemStorage.getSettings (storage st') = Some s' →
       same_but_key s s' →
       getSettingsRoute env st = getSettingsRoute env st'
       ∧ ∀ b, (patchSettingsRoute env b st).1 = (patchSettingsRoute env b st').1).
Proof.
  split; [|split; [|split; [|split]]].
  - intros st s Hs. unfold getSettingsRoute, settings_field.
    rewrite Hs. simpl.
    split; [done|]. split; [apply safe_settings_body_apiKey|].
    apply safe_settings_body_hasApiKey.
  - intros now ops. by apply settings_present.
  - intros b st data Hd. unfold patchSettingsRoute, settings_field.
    rewrite Hd. simpl.
    split; [done|]. split; [apply safe_settings_body_apiKey|].
    apply safe_settings_body_hasApiKey.
  - intros b st Hd. unfold patchSettingsRoute. by rewrite Hd.
  - intros st st' s s' Hs Hs' Hsame. split.
    + unfold getSettingsRoute. rewrite Hs, Hs'.
      by rewrite (safe_settings_body_same env s s').
    + intros b. unfold patchSettingsRoute.
      destruct (insertSettingsSchema_partial_safeParse b) as [data|]; [|done].
      simpl. unfold MemStorage.getSettings in *. rewrite Hs, Hs'. simpl.
      by rewrite (safe_settings_body_same env (data ∪ s) (data ∪ s'))
        by by apply same_but_key_union.
Qed.

Lemma settings_responses_hide_key_witness :
  getSettingsRoute Example.env Example.server
  = getSettingsRoute Example.env Example.server_other_key
  ∧ (patchSettingsRoute Example.env ∅ Example.server).1
    = (patchSettingsRoute Example.env ∅ Example.server_other_key).1
  ∧ settings_field "apiKey" (getSettingsRoute Example.env Example.server)
    = None
  ∧ settings_field "hasApiKey" (getSettingsRoute Example.env Example.server)
    = Some (JBool true).
Proof.
  pose proof (settings_responses_hide_key Example.env)
    as (Hget & _ & _ & _ & H).
  assert (same_but_key
            (<["apiKey" := JStr "sk-secret"]> MemStorage.default_settings)
            (<["apiKey" := JStr "sk-other"]> MemStorage.default_settings))
    as Hsame by (split; vm_compute; reflexivity).
  destruct (H Example.server Example.server_other_key _ _
              eq_refl eq_refl Hsame) as [Hsame_get Hsame_patch].
  destruct (Hget Example.server _ eq_refl) as (_ & Hkey & Hflag).
  split; [exact Hsame_get|]. split; [exact (Hsame_patch ∅)|].
  split; [exact Hkey | exact Hflag].
Defined.

(** C8 as stated fails in its second half: a PATCH whose [tokenLimit] is a
    string is answered 400 with a message, and that response has no
    [hasApiKey] field. *)
Lemma settings_refusal_lacks_hasApiKey :
  (patchSettingsRoute Example.env (<["tokenLimit" := JStr "many"]> ∅)
     Example.server).1
  = respond 400 (BError "Invalid settings data")
  ∧ settings_field "hasApiKey"
      (patchSettingsRoute Example.env (<["tokenLimit" := JStr "many"]> ∅)
         Example.server).1 = None.
Proof. vm_compute. done. Qed.

(** * Roles *)

Section roles.
Implicit Types (s : MemStorage.t) (st : Server) (u : PartialMessage.t).

Lemma updateMessage_role id u s id' :
  PartialMessage.role u = None →
  Message.role <$> MemStorage.messages (MemStorage.updateMessage id u s).2 !! id'
  = Message.role <$> MemStorage.messages s !! id'.
Proof.
  intros Hu. rewrite updateMessage_lookup. case_decide; [|done].
  destruct (MemStorage.messages s !! id') as [m|]; [|done].
  simpl. by rewrite Hu.
Qed.

Lemma overwrite_role id c s id' :
  Message.role <$> MemStorage.messages (overwrite id c s) !! id'
  = Message.role <$> MemStorage.messages s !! id'.
Proof. destruct c as [c|]; [by apply updateMessage_role | done]. Qed.

Lemma overwrite_counter id c s :
  MemStorage.messageCurrentId (overwrite id c s) = MemStorage.messageCurrentId s.
Proof. destruct c as [c|]; [apply updateMessage_rest | done]. Qed.

Lemma relay_role ex up st id' :
  stored_role id' (relay ex up st) = stored_role id' st.
Proof. unfold stored_role. rewrite relay_storage. apply overwrite_role. Qed.

Lemma safeParse_role b data :
  insertMessageSchema_partial_safeParse b = Some data →
  PartialMessage.role data = pb_role b ≫= as_string.
Proof.
  unfold insertMessageSchema_partial_safeParse.
  destruct (parse_optional as_number (pb_chatId b)) as [chat|]; [|done].
  destruct (parse_optional as_string (pb_content b)) as [content|]; [|done].
  simpl.
  destruct (pb_role b) as [v|] eqn:Hr; simpl.
  - destruct (as_string v); simpl; [|done]. by intros [= <-].
  - by intros [= <-].
Qed.

Lemma patchMessage_storage id b st m data :
  MemStorage.getMessage id (storage st) = Some m →
  insertMessageSchema_partial_safeParse b = Some data →
  storage (patchMessage (Some id) b st).2
  = (MemStorage.updateMessage id data (storage st)).2.
Proof.
  intros Hm Hd. unfold patchMessage. rewrite Hm, Hd.
  by destruct (MemStorage.updateMessage id data (storage st)).
Qed.

Lemma patchMessage_role_absent pid b st id' :
  pb_role b = None →
  stored_role id' (patchMessage pid b st).2 = stored_role id' st.
Proof.
  intros Hr. destruct pid as [id|]; [|done].
  destruct (MemStorage.getMessage id (storage st)) as [m|] eqn:Hm;
    [|by unfold patchMessage; rewrite Hm].
  destruct (insertMessageSchema_partial_safeParse b) as [data|] eqn:Hd;
    [|by unfold patchMessage; rewrite Hm, Hd].
  unfold stored_role. rewrite (patchMessage_storage id b st m data) by done.
  apply updateMessage_role. by rewrite (safeParse_role b data), Hr.
Qed.

Lemma patchMessage_role_present id b st m data r :
  MemStorage.getMessage id (storage st) = Some m →
  insertMessageSchema_partial_safeParse b = Some data →
  pb_role b = Some (JStr r) →
  stored_role id (patchMessage (Some id) b st).2 = Some r.
Proof.
  intros Hm Hd Hr. unfold stored_role.
  rewrite (patchMessage_storage id b st m data) by done.
  rewrite updateMessage_lookup, decide_True by done.
  unfold MemStorage.getMessage in Hm. rewrite Hm. simpl.
  by rewrite (safeParse_role b data), Hr.
Qed.

Lemma postMessage_messages env req t_user t_bot st id' :
  ids_fresh (storage st) →
  is_Some (MemStorage.messages (storage st) !! id') →
  MemStorage.messages (storage (postMessage env req t_user t_bot st).1.2) !! id'
  = MemStorage.messages (storage st) !! id'.
Proof.
  intros Hfresh Hsome. apply Hfresh in Hsome.
  destruct (param_chatId req) as [chat_id|] eqn:Hp;
    [|by rewrite postMessage_nan].
  destruct (MemStorage.getChat chat_id (storage st)) as [chat|] eqn:Hc;
    [|by erewrite postMessage_unknown_chat].
  destruct (body_content req) as [c|] eqn:Hb;
    [|by erewrite postMessage_no_content].
  destruct (hasApiKey (MemStorage.getSettings (storage st)) env) eqn:Hk;
    [|erewrite postMessage_no_key by done; simpl;
      by rewrite lookup_insert_ne by lia].
  destruct (MemStorage.getBot (Chat.botId chat) (storage st)) as [bot|] eqn:Hbot;
    [|erewrite postMessage_no_bot by done; simpl;
      by rewrite lookup_insert_ne by lia].
  erewrite postMessage_accepted by done. simpl.
  by rewrite !lookup_insert_ne by lia.
Qed.

End roles.

Section invariant.
Implicit Types (s : MemStorage.t) (st : Server).

Lemma ids_fresh_create now : ids_fresh (MemStorage.create now).
Proof. intros id [m Hm]. simpl in Hm. by rewrite lookup_empty in Hm. Qed.

Lemma ids_fresh_createMessage ins now s :
  ids_fresh s → ids_fresh (MemStorage.createMessage ins now s).2.
Proof.
  intros H id. simpl.
  destruct (decide (id = MemStorage.messageCurrentId s)) as [->|Hne]; [lia|].
  rewrite lookup_insert_ne by done. intros Hs. apply H in Hs. lia.
Qed.

Lemma ids_fresh_updateMessage id u s :
  ids_fresh s → ids_fresh (MemStorage.updateMessage id u s).2.
Proof.
  intros H id'. rewrite updateMessage_lookup.
  destruct (updateMessage_rest id u s) as (_ & _ & _ & ->).
  case_decide; [|apply H]. rewrite fmap_is_Some. apply H.
Qed.

Lemma ids_fresh_relay ex up st :
  ids_fresh (storage st) → ids_fresh (storage (relay ex up st)).
Proof. rewrite relay_storage. apply ids_fresh_updateMessage. Qed.

Lemma ids_fresh_patchMessage pid b st :
  ids_fresh (storage st) → ids_fresh (storage (patchMessage pid b st).2).
Proof.
  intros H. destruct pid as [id|]; [|done].
  destruct (MemStorage.getMessage id (storage st)) as [m|] eqn:Hm;
    [|by unfold patchMessage; rewrite Hm].
  destruct (insertMessageSchema_partial_safeParse b) as [data|] eqn:Hd;
    [|by unfold patchMessage; rewrite Hm, Hd].
  rewrite (patchMessage_storage id b st m data) by done.
  by apply ids_fresh_updateMessage.
Qed.

Lemma ids_fresh_postMessage env req t_user t_bot st :
  ids_fresh (storage st) →
  ids_fresh (storage (postMessage env req t_user t_bot st).1.2).
Proof.
  intros H.
  destruct (param_chatId req) as [chat_id|] eqn:Hp;
    [|by rewrite postMessage_nan].
  destruct (MemStorage.getChat chat_id (storage st)) as [chat|] eqn:Hc;
    [|by erewrite postMessage_unknown_chat].
  destruct (body_content req) as [c|] eqn:Hb;
    [|by erewrite postMessage_no_content].
  pose proof (ids_fresh_createMessage
                (InsertMessage.mk chat_id c "user" (request_files req))
                t_user _ H) as H1.
  destruct (hasApiKey (MemStorage.getSettings (storage st)) env) eqn:Hk;
    [|erewrite postMessage_no_key by done; exact H1].
  destruct (MemStorage.getBot (Chat.botId chat) (storage st)) as [bot|] eqn:Hbot;
    [|erewrite postMessage_no_bot by done; exact H1].
  erewrite postMessage_accepted by done.
  exact (ids_fresh_createMessage
           (InsertMessage.mk chat_id "" "assistant" None) t_bot _ H1).
Qed.

End invariant.

(** C6, amended.  The role of a stored message is left as it is by every
    [updateMessage] whose update carries no role, hence by every write of the
    relay (snapshots, final content, fallback) and by PATCH /api/messages/:id
    with a body that has no role key; submitting a message does not touch the
    role of any message already stored.  A PATCH body with a role key is
    accepted, and the stored role becomes the one it carries. *)
Theorem role_changes_only_by_patch :
  (∀ id u s id',
     PartialMessage.role u = None →
     Message.role <$> MemStorage.messages (MemStorage.updateMessage id u s).2 !! id'
     = Message.role <$> MemStorage.messages s !! id')
  ∧ (∀ ex up st id', stored_role id' (relay ex up st) = stored_role id' st)
  ∧ (∀ pid b st id',
       pb_role b = None →
       stored_role id' (patchMessage pid b st).2 = stored_role id' st)
  ∧ (∀ env req t_user t_bot st id',
       ids_fresh (storage st) →
       is_Some (MemStorage.messages (storage st) !! id') →
       stored_role id' (postMessage env req t_user t_bot st).1.2
       = stored_role id' st)
  ∧ (∀ id b st m data r,
       MemStorage.getMessage id (storage st) = Some m →
       insertMessageSchema_partial_safeParse b = Some data →
       pb_role b = Some (JStr r) →
       stored_role id (patchMessage (Some id) b st).2 = Some r).
Proof.
  split; [apply updateMessage_role|].
  split; [apply relay_role|].
  split; [apply patchMessage_role_absent|].
  split; [|apply patchMessage_role_present].
  intros env req t_user t_bot st id' Hfresh Hsome. unfold stored_role.
  by rewrite postMessage_messages.
Qed.

Lemma role_changes_only_by_patch_witness :
  stored_role 101
    (patchMessage (Some 101) Example.content_patch Example.with_user_message).2
  = Some "user"
  ∧ stored_content 101
      (patchMessage (Some 101) Example.content_patch
         Example.with_user_message).2
    = Some "edited".
Proof.
  pose proof role_changes_only_by_patch as (_ & _ & Hpatch & _).
  split.
  - exact (Hpatch (Some 101) Example.content_patch Example.with_user_message
             101 eq_refl).
  - vm_compute. reflexivity.
Defined.

(** C6 as stated fails: message 101 was created with the role "user"; a
    PATCH whose body is [{ role: "system" }] is answered 200 and the stored
    role is "system" afterwards. *)
Lemma patch_message_rewrites_role :
  stored_role 101 Example.with_user_message = Some "user"
  ∧ status (patchMessage (Some 101) Example.role_patch
              Example.with_user_message).1 = 200
  ∧ stored_role 101
      (patchMessage (Some 101) Example.role_patch
         Example.with_user_message).2 = Some "system".
Proof. vm_compute. done. Qed.

(** * More on the clients map *)

Section fan_out.
Implicit Types (cl : gmap string Client) (c : Client).

Lemma deliver_outbox chat f c :
  deliver chat f c
  = {| ws := {| readyState := readyState (ws c);
                sent := outbox_after [(chat, f)] c |};
       chatId := chatId c |}.
Proof.
  unfold deliver, receives, outbox_after, frames_for, send.
  destruct c as [[rs out] [b|]]; simpl;
    repeat case_bool_decide; simplify_eq/=; rewrite ?app_nil_r; done.
Qed.

Lemma outbox_after_cons e evs c :
  outbox_after evs (deliver e.1 e.2 c) = outbox_after (e :: evs) c.
Proof.
  destruct e as [chat f]. rewrite deliver_outbox.
  unfold outbox_after, frames_for. simpl.
  destruct (bool_decide (readyState (ws c) = OPEN)); [|by rewrite !app_nil_r].
  destruct (chatId c) as [b|]; [|by rewrite !app_nil_r].
  destruct (bool_decide (chat = b)); simpl; [|by rewrite app_nil_r].
  by rewrite <- app_assoc.
Qed.

Lemma broadcast_all_lookup evs cl id :
  broadcast_all evs cl !! id
  = (λ c, {| ws := {| readyState := readyState (ws c);
                      sent := outbox_after evs c |};
             chatId := chatId c |}) <$> cl !! id.
Proof.
  revert cl. induction evs as [|e evs IH]; intros cl.
  - simpl. destruct (cl !! id) as [[[rs out] b]|]; [|done]. simpl.
    unfold outbox_after, frames_for. simpl.
    by destruct (bool_decide _), b; rewrite ?app_nil_r.
  - change (broadcast_all (e :: evs) cl)
      with (broadcast_all evs (broadcast e.1 e.2 cl)).
    rewrite IH, broadcast_lookup.
    destruct (cl !! id) as [c|]; [|done]. simpl.
    rewrite outbox_after_cons. f_equal.
    rewrite deliver_outbox. done.
Qed.

End fan_out.

(** X1.  Over any run of broadcasts, a registered connection whose socket is
    open has been sent exactly the frames broadcast for the chat it is bound
    to, in the order of the broadcasts, after what it had been sent before; an
    unbound connection and one whose socket is not open have been sent
    nothing. *)
Theorem broadcasts_arrive_in_order
  (evs : list (Z * Frame)) (cl : gmap string Client) id c :
  cl !! id = Some c →
  ∃ c',
    broadcast_all evs cl !! id = Some c'
    ∧ chatId c' = chatId c
    ∧ readyState (ws c') = readyState (ws c)
    ∧ sent (ws c')
      = sent (ws c)
        ++ (if bool_decide (readyState (ws c) = OPEN)
            then match chatId c with
                 | Some chat =>
                     (List.filter (λ e, bool_decide (e.1 = chat)) evs).*2
                 | None => []
                 end
            else []).
Proof.
  intros H. rewrite broadcast_all_lookup, H. simpl. by eexists.
Qed.

Lemma broadcasts_arrive_in_order_witness :
  ∃ c',
    broadcast_all
      [(7, MessageUpdate 102 "Hel"); (8, MessageUpdate 200 "x");
       (7, MessageUpdate 102 "Hello!"); (7, MessageError 102 "e")]
      Example.hub !! "a" = Some c'
    ∧ chatId c' = Some 7
    ∧ readyState (ws c') = OPEN
    ∧ sent (ws c')
      = [MessageUpdate 102 "Hel"; MessageUpdate 102 "Hello!";
         MessageError 102 "e"].
Proof.
  exact (broadcasts_arrive_in_order
           [(7, MessageUpdate 102 "Hel"); (8, MessageUpdate 200 "x");
            (7, MessageUpdate 102 "Hello!"); (7, MessageError 102 "e")]
           Example.hub "a" (Example.viewer OPEN (Some 7)) eq_refl).
Defined.

(** X2.  A join request rebinds the connection: whatever it was bound to
    before, an open connection is from then on sent the frames broadcast for
    the chat named in the request and no others (none at all when the request
    names no chat); the socket and what it was sent so far are untouched.  A
    message from an id that is not registered, and a message that is not a
    join request, change nothing. *)
Theorem join_rebinds (cl : gmap string Client) id :
  (∀ c chat evs,
     cl !! id = Some c →
     readyState (ws c) = OPEN →
     ∃ c',
       broadcast_all evs (on_message id (Join chat) cl) !! id = Some c'
       ∧ chatId c' = chat
       ∧ sent (ws c') = sent (ws c) ++ frames_for chat evs)
  ∧ (∀ data, cl !! id = None → on_message id data cl = cl)
  ∧ on_message id Ignored cl = cl
  ∧ (∀ chat, dom (on_message id (Join chat) cl) = dom cl).
Proof.
  split; [|split; [|split]].
  - intros c chat evs Hc Hopen.
    rewrite broadcast_all_lookup.
    rewrite (on_message_join id chat cl c Hc). simpl.
    eexists. split; [done|]. split; [done|]. simpl.
    unfold outbox_after. simpl. by rewrite Hopen.
  - intros data Hnone. destruct data as [chat|]; simpl; [|done].
    by rewrite Hnone.
  - done.
  - intros chat. simpl. destruct (cl !! id) as [c|] eqn:Hc; [|done].
    by apply dom_insert_lookup_L.
Qed.

Lemma join_rebinds_witness :
  ∃ c',
    broadcast_all [(7, MessageUpdate 102 "Hel"); (8, MessageUpdate 200 "x")]
      (on_message "a" (Join (Some 8)) Example.hub) !! "a" = Some c'
    ∧ chatId c' = Some 8
    ∧ sent (ws c') = [MessageUpdate 200 "x"].
Proof.
  exact (proj1 (join_rebinds Example.hub "a")
           (Example.viewer OPEN (Some 7)) (Some 8)
           [(7, MessageUpdate 102 "Hel"); (8, MessageUpdate 200 "x")]
           eq_refl eq_refl).
Defined.

Section closing.
Implicit Types (cl : gmap string Client).

Lemma hub_step_absent cl e id :
  e ≠ HConnect id → cl !! id = None → hub_step cl e !! id = None.
Proof.
  intros Hne Hnone. destruct e as [id'|id' data|id'|chat f]; simpl.
  - unfold on_connection. rewrite lookup_insert_ne; [done|congruence].
  - destruct (decide (id' = id)) as [->|Hd].
    + destruct data as [chat|]; simpl; [by rewrite Hnone | done].
    + by rewrite on_message_other.
  - unfold on_close. destruct (decide (id' = id)) as [->|Hd];
      [apply lookup_delete_eq | by rewrite lookup_delete_ne].
  - by rewrite broadcast_lookup, Hnone.
Qed.

Lemma hub_run_absent evs cl id :
  Forall (λ e, e ≠ HConnect id) evs →
  cl !! id = None → hub_run evs cl !! id = None.
Proof.
  intros Hall. revert cl. induction Hall as [|e evs He _ IH]; intros cl Hnone;
    [done|].
  apply IH. by apply hub_step_absent.
Qed.

End closing.

(** X3.  Closing unregisters for good: once the close listener has run for
    a connection id, no later join request from that id and no broadcast
    brings the id back, so nothing is ever sent for it; only a new connection
    that draws the same id registers it again.  Closing twice is closing
    once, and closing touches no other connection. *)
Theorem closed_connection_stays_out
  (evs : list HubEvent) (cl : gmap string Client) id :
  Forall (λ e, e ≠ HConnect id) evs →
  hub_run evs (on_close id cl) !! id = None
  ∧ on_close id (on_close id cl) = on_close id cl
  ∧ dom (on_close id cl) = dom cl ∖ {[id]}.
Proof.
  intros Hall. split; [|split].
  - apply hub_run_absent; [done|]. apply lookup_delete_eq.
  - unfold on_close. apply delete_delete_eq.
  - unfold on_close. apply dom_delete_L.
Qed.

Lemma closed_connection_stays_out_witness :
  hub_run [HMessage "a" (Join (Some 7)); HBroadcast 7 (MessageUpdate 102 "x");
           HConnect "z"; HClose "b"]
    (on_close "a" Example.hub) !! "a" = None.
Proof.
  refine (proj1 (closed_connection_stays_out
           [HMessage "a" (Join (Some 7)); HBroadcast 7 (MessageUpdate 102 "x");
            HConnect "z"; HClose "b"] Example.hub "a" _)).
  repeat constructor; discriminate.
Defined.

(** * Editing a message *)

Section patch_message.
Implicit Types (b : PatchMessageBody) (st : Server).

Lemma parse_optional_None {A} (check : JVal → option A) v :
  parse_optional check v = None ↔ ∃ x, v = Some x ∧ check x = None.
Proof.
  destruct v as [x|]; simpl.
  - destruct (check x) eqn:E; simpl; split; try done.
    + intros (y & [= <-] & Hy). congruence.
    + intros _. by exists x.
  - split; [done|]. by intros (x & ? & _).
Qed.

Lemma safeParse_None b :
  insertMessageSchema_partial_safeParse b = None ↔ ill_typed b.
Proof.
  unfold insertMessageSchema_partial_safeParse, ill_typed.
  rewrite <- !parse_optional_None.
  destruct (parse_optional as_number (pb_chatId b)); simpl;
    [|split; [intros _; by auto | done]].
  destruct (parse_optional as_string (pb_content b)); simpl;
    [|split; [intros _; by auto | done]].
  destruct (parse_optional as_string (pb_role b)); simpl;
    [|split; [intros _; by auto | done]].
  split; [done|]. by intros [|[|]].
Qed.

Lemma safeParse_content b data :
  insertMessageSchema_partial_safeParse b = Some data →
  PartialMessage.content data = pb_content b ≫= as_string.
Proof.
  unfold insertMessageSchema_partial_safeParse.
  destruct (parse_optional as_number (pb_chatId b)) as [chat|]; [|done].
  simpl.
  destruct (pb_content b) as [v|] eqn:Hr; simpl.
  - destruct (as_string v); simpl; [|done].
    destruct (parse_optional as_string (pb_role b)); simpl; [|done].
    by intros [= <-].
  - destruct (parse_optional as_string (pb_role b)); simpl; [|done].
    by intros [= <-].
Qed.

Lemma patchMessage_accepted id b st m data :
  MemStorage.getMessage id (storage st) = Some m →
  insertMessageSchema_partial_safeParse b = Some data →
  patchMessage (Some id) b st
  = (respond 200 (BMessage (Some (MemStorage.spread_message m data))),
     publish (Message.chatId m)
       (MessageEdited id (Some (MemStorage.spread_message m data)))
       (set_storage
          (MemStorage.with_messages
             (<[id := MemStorage.spread_message m data]>
                (MemStorage.messages (storage st)))
             (MemStorage.messageCurrentId (storage st)) (storage st)) st)).
Proof.
  intros Hm Hd. unfold patchMessage. rewrite Hm, Hd.
  unfold MemStorage.updateMessage. unfold MemStorage.getMessage in Hm.
  by rewrite Hm.
Qed.

End patch_message.

(** X4.  An edit overwrites the content whatever the role of the message:
    for a stored message and a body that passes the schema (a [chatId], when
    present, is a number of the 32-bit range, a [role] a string) and whose
    content is the string [c], the answer is 200 with the updated message,
    the stored content is [c], the id and the creation time are as before
    and no other message is touched.  Exactly one message-edited frame is broadcast; it carries the
    updated message and goes to the viewers of the chat the message belonged
    to before the edit. *)
Theorem patch_message_overwrites_content id b st m c :
  MemStorage.getMessage id (storage st) = Some m →
  pb_content b = Some (JStr c) →
  is_Some (insertMessageSchema_partial_safeParse b) →
  ∃ m',
    (patchMessage (Some id) b st).1 = respond 200 (BMessage (Some m'))
    ∧ MemStorage.messages (storage (patchMessage (Some id) b st).2) !! id
      = Some m'
    ∧ Message.content m' = c
    ∧ Message.id m' = Message.id m
    ∧ Message.createdAt m' = Message.createdAt m
    ∧ (∀ id', id' ≠ id →
         MemStorage.messages (storage (patchMessage (Some id) b st).2) !! id'
         = MemStorage.messages (storage st) !! id')
    ∧ published_since st (patchMessage (Some id) b st).2
      = [(Message.chatId m, MessageEdited id (Some m'))]
    ∧ clients (patchMessage (Some id) b st).2
      = broadcast (Message.chatId m) (MessageEdited id (Some m')) (clients st).
Proof.
  intros Hm Hc [data Hd].
  pose proof (safeParse_content b data Hd) as Hdc. rewrite Hc in Hdc.
  rewrite (patchMessage_accepted id b st m data Hm Hd). simpl.
  eexists. split; [done|]. split; [apply lookup_insert_eq|].
  split; [unfold MemStorage.spread_message; simpl; by rewrite Hdc|].
  split; [done|]. split; [done|].
  split; [intros id' Hne; by rewrite lookup_insert_ne|].
  split; [|done].
  unfold published_since. simpl. by rewrite drop_app_length.
Qed.

Lemma patch_message_overwrites_content_witness :
  ∃ m',
    (patchMessage (Some 101) Example.content_patch
       Example.with_user_message).1 = respond 200 (BMessage (Some m'))
    ∧ Message.content m' = "edited"
    ∧ Message.role m' = "user"
    ∧ published_since Example.with_user_message
        (patchMessage (Some 101) Example.content_patch
           Example.with_user_message).2
      = [(7, MessageEdited 101 (Some m'))].
Proof.
  destruct (patch_message_overwrites_content 101 Example.content_patch
              Example.with_user_message
              (Message.mk 101 7 "hi" "user" 1 None) "edited"
              eq_refl eq_refl (ex_intro _ _ eq_refl))
    as (m' & Hres & Hstored & Hc & _ & _ & _ & Hpub & _).
  exists m'. split; [exact Hres|]. split; [exact Hc|]. split; [|exact Hpub].
  vm_compute in Hstored. by injection Hstored as <-.
Defined.

(** X5.  A PATCH is refused without any effect on the server: 400 when the
    id is not a number, 404 when no message has the id (whatever the body),
    and 400 when the message exists but a key of the body does not pass the
    schema (chatId not a number or a number outside the 32-bit range,
    content or role not a string, [null] included).  Only such bodies are
    refused. *)
Theorem patch_message_rejections b st :
  patchMessage None b st = (respond 400 (BError "Invalid message ID"), st)
  ∧ (∀ id,
       MemStorage.getMessage id (storage st) = None →
       patchMessage (Some id) b st
       = (respond 404 (BError "Message not found"), st))
  ∧ (∀ id m,
       MemStorage.getMessage id (storage st) = Some m →
       ill_typed b →
       patchMessage (Some id) b st
       = (respond 400 (BError "Invalid message data"), st))
  ∧ (ill_typed b ↔ insertMessageSchema_partial_safeParse b = None).
Proof.
  split; [done|]. split; [|split].
  - intros id Hm. unfold patchMessage. by rewrite Hm.
  - intros id m Hm Hill. apply safeParse_None in Hill.
    unfold patchMessage. by rewrite Hm, Hill.
  - symmetry. apply safeParse_None.
Qed.

Lemma patch_message_rejections_witness :
  patchMessage (Some 55) Example.content_patch Example.with_user_message
  = (respond 404 (BError "Message not found"), Example.with_user_message)
  ∧ patchMessage (Some 101)
      {| pb_chatId := None; pb_content := Some JNull; pb_role := None;
         pb_files := None |} Example.with_user_message
    = (respond 400 (BError "Invalid message data"),
       Example.with_user_message)
  ∧ patchMessage (Some 101)
      {| pb_chatId := Some (JNum 2147483648); pb_content := None;
         pb_role := None; pb_files := None |} Example.with_user_message
    = (respond 400 (BError "Invalid message data"),
       Example.with_user_message).
Proof.
  split; [|split].
  - exact (proj1 (proj2 (patch_message_rejections Example.content_patch
                           Example.with_user_message)) 55 eq_refl).
  - refine (proj1 (proj2 (proj2 (patch_message_rejections _
                           Example.with_user_message)))
              101 (Message.mk 101 7 "hi" "user" 1 None) eq_refl _).
    right. left. by exists JNull.
  - refine (proj1 (proj2 (proj2 (patch_message_rejections _
                           Example.with_user_message)))
              101 (Message.mk 101 7 "hi" "user" 1 None) eq_refl _).
    left. by exists (JNum 2147483648).
Defined.

(** * Listing in order *)

Section insertion.
Context {A : Type}.

Lemma elem_of_insert_by (f : A → A → bool) x y l :
  y ∈ insert_by f x l ↔ y = x ∨ y ∈ l.
Proof.
  induction l as [|z l IH]; simpl.
  - rewrite list_elem_of_singleton. split; [by left | intros [|H]; [done|]].
    by apply elem_of_nil in H.
  - destruct (f x z).
    + by rewrite elem_of_cons.
    + rewrite !elem_of_cons, IH. tauto.
Qed.

Lemma elem_of_sort_by (f : A → A → bool) x l : x ∈ sort_by f l ↔ x ∈ l.
Proof.
  induction l as [|z l IH]; [done|].
  change (sort_by f (z :: l)) with (insert_by f z (sort_by f l)).
  by rewrite elem_of_insert_by, elem_of_cons, IH.
Qed.

Lemma insert_by_Permutation (f : A → A → bool) x l :
  insert_by f x l ≡ₚ x :: l.
Proof.
  induction l as [|z l IH]; simpl; [done|].
  destruct (f x z); [done|]. rewrite IH. apply Permutation_swap.
Qed.

Lemma sort_by_Permutation (f : A → A → bool) l : sort_by f l ≡ₚ l.
Proof.
  induction l as [|z l IH]; [done|].
  change (sort_by f (z :: l)) with (insert_by f z (sort_by f l)).
  by rewrite insert_by_Permutation, IH.
Qed.

End insertion.

Section sorting.
Context {A : Type} (key rank : A → Z).

Let le (a b : A) : bool := key a <=? key b.

Let lex (a b : A) : Prop :=
  key a < key b ∨ (key a = key b ∧ rank a < rank b).

Lemma insert_by_sorted x l :
  StronglySorted (λ a b, key a ≤ key b) l →
  StronglySorted (λ a b, key a ≤ key b) (insert_by le x l).
Proof.
  induction 1 as [|y l Hs IH Hy]; simpl; [repeat constructor|].
  unfold le at 1. destruct (Z.leb_spec (key x) (key y)) as [Hle|Hlt].
  - constructor; [by constructor|]. constructor; [done|].
    eapply Forall_impl; [exact Hy|]. simpl. lia.
  - constructor; [done|]. apply Forall_forall. intros z Hz.
    apply elem_of_insert_by in Hz as [->|Hz]; [lia|].
    by eapply Forall_forall in Hy.
Qed.

Lemma sort_by_sorted l :
  StronglySorted (λ a b, key a ≤ key b) (sort_by le l).
Proof.
  induction l as [|z l IH]; [constructor|].
  change (sort_by le (z :: l)) with (insert_by le z (sort_by le l)).
  by apply insert_by_sorted.
Qed.

Lemma insert_by_lex x l :
  StronglySorted lex l →
  Forall (λ y, rank x < rank y) l →
  StronglySorted lex (insert_by le x l).
Proof.
  induction 1 as [|y l Hs IH Hy]; simpl; intros Hr; [repeat constructor|].
  apply Forall_cons in Hr as [Hxy Hr].
  unfold le at 1. destruct (Z.leb_spec (key x) (key y)) as [Hle|Hlt].
  - constructor; [by constructor|]. constructor; [unfold lex; lia|].
    apply Forall_forall. intros z Hz.
    eapply Forall_forall in Hy; [|done]. eapply Forall_forall in Hr; [|done].
    unfold lex in *. lia.
  - constructor; [by apply IH|]. apply Forall_forall. intros z Hz.
    apply elem_of_insert_by in Hz as [->|Hz]; [unfold lex; lia|].
    by eapply Forall_forall in Hy.
Qed.

(** Stability: sorting a list that was in [rank] order by [key] leaves equal
    keys in [rank] order. *)
Lemma sort_by_lex l :
  StronglySorted (λ a b, rank a < rank b) l →
  StronglySorted lex (sort_by le l).
Proof.
  induction 1 as [|z l Hs IH Hz]; [constructor|].
  change (sort_by le (z :: l)) with (insert_by le z (sort_by le l)).
  apply insert_by_lex; [done|].
  apply Forall_forall. intros y Hy. apply elem_of_sort_by in Hy.
  by eapply Forall_forall in Hz.
Qed.

End sorting.

Section filtering.
Context {A : Type}.

Lemma filter_sorted (R : A → A → Prop) (P : A → bool) l :
  StronglySorted R l → StronglySorted R (List.filter P l).
Proof.
  induction 1 as [|z l Hs IH Hz]; simpl; [constructor|].
  destruct (P z); [|done]. constructor; [done|].
  apply Forall_forall. intros y Hy.
  apply list_elem_of_In, List.filter_In in Hy as [Hy _].
  apply list_elem_of_In in Hy. by eapply Forall_forall in Hz.
Qed.

End filtering.

Section values.
Context {A : Type}.
Implicit Types (m : gmap Z A).

Lemma elem_of_values_by_id m x :
  x ∈ values_by_id m ↔ ∃ k, m !! k = Some x.
Proof.
  unfold values_by_id. rewrite list_elem_of_fmap. split.
  - intros ([k y] & -> & H). apply elem_of_sort_by in H.
    apply elem_of_map_to_list in H. by exists k.
  - intros [k H]. exists (k, x). split; [done|].
    apply elem_of_sort_by. by apply elem_of_map_to_list.
Qed.

Lemma values_by_id_ranked (rank : A → Z) m :
  (∀ k x, m !! k = Some x → rank x = k) →
  StronglySorted (λ a b, rank a < rank b) (values_by_id m).
Proof.
  intros Hrank. unfold values_by_id.
  set (l := sort_by _ _).
  assert (StronglySorted (λ a b : Z * A, a.1 ≤ b.1) l) as Hs
    by apply (sort_by_sorted fst).
  assert (NoDup l.*1) as Hnd.
  { unfold l. rewrite sort_by_Permutation. apply NoDup_fst_map_to_list. }
  assert (Forall (λ p : Z * A, rank p.2 = p.1) l) as Hk.
  { apply Forall_forall. intros [k x] H. apply elem_of_sort_by in H.
    apply elem_of_map_to_list in H. by apply Hrank. }
  clearbody l. clear Hrank.
  induction Hs as [|[k x] l Hs IH Hle]; simpl; [constructor|].
  apply NoDup_cons in Hnd as [Hnotin Hnd]. simpl in Hnotin.
  apply Forall_cons in Hk as [Hkx Hk]. simpl in Hkx.
  constructor; [by apply IH|].
  apply Forall_forall. intros y Hy.
  apply list_elem_of_fmap in Hy as ([k' y'] & -> & Hy). simpl.
  pose proof Hy as Hy'. eapply Forall_forall in Hy'; [|exact Hle].
  pose proof Hy as Hy''. eapply Forall_forall in Hy''; [|exact Hk].
  simpl in *. assert (k ≠ k'); [|lia].
  intros ->. apply Hnotin. apply list_elem_of_fmap. by exists (k', y').
Qed.

End values.

(** X6.  [getMessagesByChatId] returns exactly the stored messages of the
    chat, each once, oldest first, and messages created at the same instant
    in the order of their ids. *)
Theorem chat_messages_listed_in_order (chat : Z) (s : MemStorage.t) :
  keyed_by_id s →
  (∀ m, m ∈ Storage.getMessagesByChatId chat s
        ↔ MemStorage.messages s !! Message.id m = Some m
          ∧ Message.chatId m = chat)
  ∧ StronglySorted older_message (Storage.getMessagesByChatId chat s).
Proof.
  intros (Hkey & _ & _). unfold Storage.getMessagesByChatId. split.
  - intros m. rewrite elem_of_sort_by, list_elem_of_In, List.filter_In.
    rewrite <- list_elem_of_In, elem_of_values_by_id, bool_decide_eq_true.
    split.
    + intros [[k Hk] Hc]. by rewrite (Hkey k m Hk).
    + intros [Hm Hc]. eauto.
  - apply (sort_by_lex Message.createdAt Message.id).
    apply filter_sorted. by apply values_by_id_ranked.
Qed.

Lemma chat_messages_listed_in_order_witness :
  Message.id <$> Storage.getMessagesByChatId 7 (storage Example.answered)
  = [101; 102]
  ∧ StronglySorted older_message
      (Storage.getMessagesByChatId 7 (storage Example.answered)).
Proof.
  split; [vm_compute; reflexivity|].
  refine (proj2 (chat_messages_listed_in_order 7 (storage Example.answered) _)).
  repeat split.
  - apply (bool_decide_unpack
             (map_Forall (λ k m, Message.id m = k)
                (MemStorage.messages (storage Example.answered)))).
    vm_compute. exact I.
  - apply (bool_decide_unpack
             (map_Forall (λ k c, Chat.id c = k)
                (MemStorage.chats (storage Example.answered)))).
    vm_compute. exact I.
  - apply (bool_decide_unpack
             (map_Forall (λ k b, Bot.id b = k)
                (MemStorage.bots (storage Example.answered)))).
    vm_compute. exact I.
Defined.

Lemma sort_by_ext {A} (f g : A → A → bool) (l : list A) :
  (∀ a b, f a b = g a b) → sort_by f l = sort_by g l.
Proof.
  intros H. induction l as [|x l IH]; [done|].
  change (insert_by f x (sort_by f l) = insert_by g x (sort_by g l)).
  rewrite IH. generalize (sort_by g l) as s.
  induction s as [|y s IHs]; simpl; [done|]. by rewrite H, IHs.
Qed.

Lemma sorted_weaken {A} (R R' : A → A → Prop) (l : list A) :
  (∀ a b, R a b → R' a b) → StronglySorted R l → StronglySorted R' l.
Proof.
  intros H. induction 1 as [|x l Hs IH Hx]; constructor; [done|].
  eapply Forall_impl; [exact Hx|]. intros y. apply H.
Qed.

Lemma elem_of_getChatsByBotId (botId : Z) (s : MemStorage.t) (c : Chat.t) :
  c ∈ Storage.getChatsByBotId botId s
  ↔ (∃ k, MemStorage.chats s !! k = Some c) ∧ Chat.botId c = botId.
Proof.
  unfold Storage.getChatsByBotId.
  rewrite elem_of_sort_by, list_elem_of_In, List.filter_In.
  by rewrite <- list_elem_of_In, elem_of_values_by_id, bool_decide_eq_true.
Qed.

(** X7.  [getChatsByBotId] returns exactly the stored chats of the bot, each
    once, newest first, and chats created at the same instant in the order
    of their ids. *)
Theorem bot_chats_listed_newest_first (botId : Z) (s : MemStorage.t) :
  keyed_by_id s →
  (∀ c, c ∈ Storage.getChatsByBotId botId s
        ↔ MemStorage.chats s !! Chat.id c = Some c ∧ Chat.botId c = botId)
  ∧ StronglySorted newer_chat (Storage.getChatsByBotId botId s).
Proof.
  intros (_ & Hkey & _). split.
  - intros c. rewrite elem_of_getChatsByBotId. split.
    + intros [[k Hk] Hc]. by rewrite (Hkey k c Hk).
    + intros [Hm Hc]. eauto.
  - unfold Storage.getChatsByBotId. rewrite (sort_by_ext _ (λ a b, - Chat.createdAt a <=? - Chat.createdAt b))
      by (intros a b; apply eq_true_iff_eq; rewrite !Z.leb_le; lia).
    eapply sorted_weaken;
      [|apply (sort_by_lex (λ c, - Chat.createdAt c) Chat.id);
        apply filter_sorted; by apply values_by_id_ranked].
    intros a b. unfold newer_chat. simpl. lia.
Qed.

Lemma bot_chats_listed_newest_first_witness :
  Chat.id <$>
    Storage.getChatsByBotId 1
      (apply_ops [OpCreateChat 1 "later" 5; OpCreateChat 2 "other" 6;
                  OpCreateChat 1 "same instant" 5] Example.store)
  = [8; 10; 7]
  ∧ StronglySorted newer_chat
      (Storage.getChatsByBotId 1
         (apply_ops [OpCreateChat 1 "later" 5; OpCreateChat 2 "other" 6;
                     OpCreateChat 1 "same instant" 5] Example.store)).
Proof.
  split; [vm_compute; reflexivity|].
  refine (proj2 (bot_chats_listed_newest_first 1 _ _)).
  repeat split.
  - apply (bool_decide_unpack (map_Forall (λ k m, Message.id m = k) _)).
    vm_compute. exact I.
  - apply (bool_decide_unpack (map_Forall (λ k c, Chat.id c = k) _)).
    vm_compute. exact I.
  - apply (bool_decide_unpack (map_Forall (λ k b, Bot.id b = k) _)).
    vm_compute. exact I.
Defined.

(** * The store *)

Section store.
Implicit Types (s : MemStorage.t).

Lemma insert_keyed {A} (get : A → Z) (m : gmap Z A) k x :
  get x = k →
  (∀ i y, m !! i = Some y → get y = i) →
  ∀ i y, <[k := x]> m !! i = Some y → get y = i.
Proof.
  intros Hx Hm i y. destruct (decide (i = k)) as [->|Hne].
  - rewrite lookup_insert_eq. by intros [= <-].
  - rewrite lookup_insert_ne by done. apply Hm.
Qed.

Lemma delete_keyed {A} (get : A → Z) (m : gmap Z A) k :
  (∀ i y, m !! i = Some y → get y = i) →
  ∀ i y, delete k m !! i = Some y → get y = i.
Proof.
  intros Hm i y H. apply Hm.
  by apply lookup_delete_Some in H as [_ H].
Qed.

Lemma insert_below {A} (m : gmap Z A) k x n n' :
  k < n' → n ≤ n' →
  (∀ i, is_Some (m !! i) → i < n) →
  ∀ i, is_Some (<[k := x]> m !! i) → i < n'.
Proof.
  intros Hk Hn Hm i. destruct (decide (i = k)) as [->|Hne]; [done|].
  rewrite lookup_insert_ne by done. intros H. apply Hm in H. lia.
Qed.

Lemma delete_below {A} (m : gmap Z A) k n :
  (∀ i, is_Some (m !! i) → i < n) →
  ∀ i, is_Some (delete k m !! i) → i < n.
Proof.
  intros Hm i [y H]. apply Hm.
  apply lookup_delete_Some in H as [_ H]. by exists y.
Qed.

Lemma well_formed_create now : well_formed (MemStorage.create now).
Proof.
  repeat split; simpl.
  - intros k m H. by rewrite lookup_empty in H.
  - intros k c H. by rewrite lookup_empty in H.
  - apply insert_keyed; [done|]. intros i y H. by rewrite lookup_empty in H.
  - intros k [m H]. simpl in H. by rewrite lookup_empty in H.
  - intros k [m H]. by rewrite lookup_empty in H.
  - apply (insert_below ∅ 1 _ 0 2); [lia|lia|].
    intros i [y H]. by rewrite lookup_empty in H.
Qed.

Lemma well_formed_apply_op s op : well_formed s → well_formed (apply_op s op).
Proof.
  intros ((Hm & Hc & Hb) & Hfm & Hfc & Hfb).
  destruct op as [ins now|id u|id|botId title now|id u|id|ins now|id u|id|u];
    simpl.
  - repeat split; simpl; try done.
    + by apply insert_keyed.
    + eapply insert_below; [| |exact Hfb]; lia.
  - unfold Storage.updateBot.
    destruct (MemStorage.bots s !! id) as [b|] eqn:E; [|done].
    repeat split; simpl; try done.
    + apply insert_keyed; [|done]. simpl. by apply Hb.
    + eapply insert_below; [| |exact Hfb]; [|lia].
      apply Hfb. by rewrite E.
  - repeat split; simpl; try done.
    + by apply delete_keyed.
    + by apply delete_below.
  - repeat split; simpl; try done.
    + by apply insert_keyed.
    + eapply insert_below; [| |exact Hfc]; lia.
  - unfold Storage.updateChat.
    destruct (MemStorage.chats s !! id) as [c|] eqn:E; [|done].
    repeat split; simpl; try done.
    + apply insert_keyed; [|done]. simpl. by apply Hc.
    + eapply insert_below; [| |exact Hfc]; [|lia].
      apply Hfc. by rewrite E.
  - repeat split; simpl; try done.
    + by apply delete_keyed.
    + by apply delete_below.
  - repeat split; simpl; try done.
    + by apply insert_keyed.
    + unfold ids_fresh. simpl. eapply insert_below; [| |exact Hfm]; lia.
  - unfold MemStorage.updateMessage.
    destruct (MemStorage.messages s !! id) as [m|] eqn:E; [|done].
    repeat split; simpl; try done.
    + apply insert_keyed; [|done]. simpl. by apply Hm.
    + unfold ids_fresh. simpl. eapply insert_below; [| |exact Hfm]; [|lia].
      apply Hfm. by rewrite E.
  - repeat split; simpl; try done.
    + by apply delete_keyed.
    + unfold ids_fresh. simpl. by apply delete_below.
  - done.
Qed.

Lemma counter_apply_op s op :
  MemStorage.messageCurrentId s ≤ MemStorage.messageCurrentId (apply_op s op).
Proof.
  destruct op; simpl; try lia.
  - unfold Storage.updateBot. destruct (_ !! _); simpl; lia.
  - unfold Storage.updateChat. destruct (_ !! _); simpl; lia.
  - unfold MemStorage.updateMessage. destruct (_ !! _); simpl; lia.
Qed.

Lemma counter_apply_ops ops s :
  MemStorage.messageCurrentId s ≤ MemStorage.messageCurrentId (apply_ops ops s).
Proof.
  revert s. induction ops as [|op ops IH]; intros s; [done|].
  change (apply_ops (op :: ops) s) with (apply_ops ops (apply_op s op)).
  etrans; [apply counter_apply_op | apply IH].
Qed.

End store.

(** X8.  The store a fresh [MemStorage] starts with is well formed, and every
    method keeps it so: each bot, chat and message sits under its own id,
    and every id in use is below the counter that hands out the next one. *)
Theorem store_stays_well_formed (now : Z) (ops : list StorageOp) :
  well_formed (apply_ops ops (MemStorage.create now)).
Proof.
  generalize (well_formed_create now).
  generalize (MemStorage.create now) as s.
  induction ops as [|op ops IH]; intros s H; [done|].
  apply IH. by apply well_formed_apply_op.
Qed.

(** X9.  Message ids are never handed out twice: whatever is done to the
    store after a message was created, deleting that message included, a
    message created later gets a larger id. *)
Theorem message_ids_never_reused
  (s : MemStorage.t) ins now (ops : list StorageOp) ins' now' :
  Message.id (MemStorage.createMessage ins now s).1
  < Message.id
      (MemStorage.createMessage ins' now'
         (apply_ops ops (MemStorage.createMessage ins now s).2)).1.
Proof.
  simpl.
  pose proof (counter_apply_ops ops (MemStorage.createMessage ins now s).2).
  simpl in *. lia.
Qed.

Section updates.
Implicit Types (s : MemStorage.t) (m : Message.t) (u : PartialMessage.t).

Lemma spread_message_twice m u1 u2 :
  MemStorage.spread_message (MemStorage.spread_message m u1) u2
  = MemStorage.spread_message m (spread_partial u1 u2).
Proof.
  destruct u1 as [c1 t1 r1 f1], u2 as [c2 t2 r2 f2].
  unfold MemStorage.spread_message, spread_partial. simpl.
  by destruct c2, t2, r2, f2.
Qed.

Lemma spread_message_nothing m :
  MemStorage.spread_message m (PartialMessage.mk None None None None) = m.
Proof. by destruct m. Qed.

Lemma with_messages_same s :
  MemStorage.with_messages (MemStorage.messages s)
    (MemStorage.messageCurrentId s) s = s.
Proof. by destruct s. Qed.

End updates.

(** X10.  [updateMessage] on an id that is not stored returns nothing and
    leaves the store as it is; an update without any key leaves a stored
    message and the store as they are; and two updates of the same message
    in a row amount to the single update [{ ...u1, ...u2 }]: for every key
    the later update that carries it wins, and keys that neither carries
    keep their value. *)
Theorem update_message_composes (id : Z) (s : MemStorage.t) :
  (∀ u, MemStorage.messages s !! id = None →
        MemStorage.updateMessage id u s = (None, s))
  ∧ (∀ m, MemStorage.messages s !! id = Some m →
          MemStorage.updateMessage id
            (PartialMessage.mk None None None None) s = (Some m, s))
  ∧ (∀ u1 u2,
       MemStorage.updateMessage id u2 (MemStorage.updateMessage id u1 s).2
       = ((MemStorage.updateMessage id (spread_partial u1 u2) s).1,
          (MemStorage.updateMessage id (spread_partial u1 u2) s).2)).
Proof.
  split; [|split].
  - intros u H. unfold MemStorage.updateMessage. by rewrite H.
  - intros m H. unfold MemStorage.updateMessage. rewrite H.
    rewrite spread_message_nothing, insert_id by done.
    by rewrite with_messages_same.
  - intros u1 u2. unfold MemStorage.updateMessage.
    destruct (MemStorage.messages s !! id) as [m|] eqn:E; simpl.
    + rewrite lookup_insert_eq. simpl. rewrite spread_message_twice.
      unfold MemStorage.with_messages. simpl. by rewrite insert_insert_eq.
    + by rewrite E.
Qed.

Lemma update_message_composes_witness :
  MemStorage.updateMessage 101 (PartialMessage.only_content "second")
    (MemStorage.updateMessage 101
       (PartialMessage.mk None (Some "first") (Some "system") None)
       (storage Example.with_user_message)).2
  = (Some (Message.mk 101 7 "second" "system" 1 None),
     (MemStorage.updateMessage 101
        (PartialMessage.mk None (Some "second") (Some "system") None)
        (storage Example.with_user_message)).2)
  ∧ MemStorage.updateMessage 55 (PartialMessage.only_content "x")
      (storage Example.with_user_message)
    = (None, storage Example.with_user_message).
Proof.
  pose proof (update_message_composes 101 (storage Example.with_user_message))
    as (_ & _ & Hcomp).
  pose proof (update_message_composes 55 (storage Example.with_user_message))
    as (Hnone & _).
  split.
  - exact (Hcomp (PartialMessage.mk None (Some "first") (Some "system") None)
             (PartialMessage.only_content "second")).
  - exact (Hnone _ eq_refl).
Defined.

(** X11.  [updateSettings] overrides exactly the keys the update carries:
    afterwards every such key has the update's value and every other key the
    value it had.  An empty update changes nothing, and two updates in a row
    amount to the single update in which the later one wins on the keys both
    carry. *)
Theorem update_settings_merges (s : MemStorage.t) :
  (∀ u k,
     (MemStorage.updateSettings u s).1 !! k
     = match u !! k with
       | Some v => Some v
       | None => MemStorage.settings s ≫= (.!! k)
       end)
  ∧ (∀ u, MemStorage.getSettings (MemStorage.updateSettings u s).2
          = Some (MemStorage.updateSettings u s).1)
  ∧ (∀ d, MemStorage.settings s = Some d →
          MemStorage.updateSettings ∅ s = (d, s))
  ∧ (∀ u1 u2,
       MemStorage.updateSettings u2 (MemStorage.updateSettings u1 s).2
       = MemStorage.updateSettings (u2 ∪ u1) s).
Proof.
  split; [|split; [|split]].
  - intros u k. simpl. rewrite lookup_union.
    destruct (u !! k) as [v|], (MemStorage.settings s) as [d|]; simpl;
      rewrite ?lookup_empty; try done; by destruct (d !! k).
  - done.
  - intros d H. unfold MemStorage.updateSettings. rewrite H. simpl.
    rewrite (left_id_L ∅ (∪)). f_equal.
    destruct s; simpl in *. by rewrite H.
  - intros u1 u2. unfold MemStorage.updateSettings. simpl.
    by rewrite (assoc_L (∪)).
Qed.

Lemma update_settings_merges_witness :
  MemStorage.updateSettings ∅ Example.store
  = (<["apiKey" := JStr "sk-secret"]> MemStorage.default_settings,
     Example.store).
Proof.
  exact (proj1 (proj2 (proj2 (update_settings_merges Example.store)))
           _ eq_refl).
Defined.

(** * Bots and chats *)

Section crud.
Implicit Types (st : Server).

Lemma postBotRoute_accepted b now st ins :
  insertBotSchema_safeParse b = Some ins →
  postBotRoute b now st
  = (Json 201 (Storage.createBot ins now (storage st)).1,
     set_storage (Storage.createBot ins now (storage st)).2 st).
Proof. intros H. unfold postBotRoute. by rewrite H. Qed.

Lemma deleteBotRoute_found id st bot :
  MemStorage.getBot id (storage st) = Some bot →
  deleteBotRoute (Some id) st
  = (NoContent 204, set_storage (Storage.deleteBot id (storage st)).2 st).
Proof.
  intros H. unfold deleteBotRoute, Storage.deleteBot.
  unfold MemStorage.getBot in H. rewrite H.
  by rewrite bool_decide_eq_true_2 by done.
Qed.

Lemma deleteBotRoute_missing id st :
  MemStorage.getBot id (storage st) = None →
  (deleteBotRoute (Some id) st).1 = Refusal 404 "Bot not found"
  ∧ storage (deleteBotRoute (Some id) st).2 = storage st.
Proof.
  intros H. unfold deleteBotRoute, Storage.deleteBot.
  unfold MemStorage.getBot in H. rewrite H.
  rewrite bool_decide_eq_false_2 by by intros [? ?].
  simpl. split; [done|]. rewrite delete_id by done.
  by destruct (storage st).
Qed.

Lemma deleteChatRoute_found id st chat :
  MemStorage.getChat id (storage st) = Some chat →
  deleteChatRoute (Some id) st
  = (NoContent 204, set_storage (Storage.deleteChat id (storage st)).2 st).
Proof.
  intros H. unfold deleteChatRoute, Storage.deleteChat.
  unfold MemStorage.getChat in H. rewrite H.
  by rewrite bool_decide_eq_true_2 by done.
Qed.

End crud.

(** X12.  A bot posted with a valid body is answered 201 with the id the
    counter had and the fields of the body; GET /api/bots/:id then returns
    that very bot; DELETE answers 204, after which GET answers 404 and a
    second DELETE answers 404 as well, without changing the store. *)
Theorem bot_posted_fetched_deleted b now st ins :
  insertBotSchema_safeParse b = Some ins →
  ∃ bot st1 st2,
    postBotRoute b now st = (Json 201 bot, st1)
    ∧ bot = Bot.mk (MemStorage.botCurrentId (storage st))
              (InsertBot.name ins) (InsertBot.avatar ins)
              (InsertBot.color ins) (InsertBot.description ins)
              (InsertBot.model ins) now
    ∧ getBotRoute (Some (Bot.id bot)) st1 = Json 200 bot
    ∧ deleteBotRoute (Some (Bot.id bot)) st1 = (NoContent 204, st2)
    ∧ getBotRoute (Some (Bot.id bot)) st2 = Refusal 404 "Bot not found"
    ∧ (deleteBotRoute (Some (Bot.id bot)) st2).1
      = Refusal 404 "Bot not found"
    ∧ storage (deleteBotRoute (Some (Bot.id bot)) st2).2 = storage st2.
Proof.
  intros H.
  set (bot := (Storage.createBot ins now (storage st)).1).
  set (st1 := set_storage (Storage.createBot ins now (storage st)).2 st).
  assert (MemStorage.getBot (Bot.id bot) (storage st1) = Some bot) as Hget
    by apply lookup_insert_eq.
  set (st2 := set_storage (Storage.deleteBot (Bot.id bot) (storage st1)).2 st1).
  assert (MemStorage.getBot (Bot.id bot) (storage st2) = None) as Hgone
    by apply lookup_delete_eq.
  exists bot, st1, st2.
  split; [by apply postBotRoute_accepted|]. split; [done|].
  split; [unfold getBotRoute; by rewrite Hget|].
  split; [by apply (deleteBotRoute_found _ _ bot)|].
  split; [unfold getBotRoute; by rewrite Hgone|].
  by apply deleteBotRoute_missing.
Qed.

Lemma bot_posted_fetched_deleted_witness :
  ∃ bot st1 st2,
    postBotRoute
      {| bb_name := Some (JStr "Coder"); bb_avatar := Some (JStr "C");
         bb_color := Some (JStr "#000"); bb_description := Some JNull;
         bb_model := Some (JStr "gpt-4o") |} 3 Example.server
    = (Json 201 bot, st1)
    ∧ bot = Bot.mk 2 "Coder" "C" "#000" None "gpt-4o" 3
    ∧ getBotRoute (Some (Bot.id bot)) st1 = Json 200 bot
    ∧ deleteBotRoute (Some (Bot.id bot)) st1 = (NoContent 204, st2)
    ∧ getBotRoute (Some (Bot.id bot)) st2 = Refusal 404 "Bot not found"
    ∧ (deleteBotRoute (Some (Bot.id bot)) st2).1
      = Refusal 404 "Bot not found"
    ∧ storage (deleteBotRoute (Some (Bot.id bot)) st2).2 = storage st2.
Proof.
  exact (bot_posted_fetched_deleted
           {| bb_name := Some (JStr "Coder"); bb_avatar := Some (JStr "C");
              bb_color := Some (JStr "#000"); bb_description := Some JNull;
              bb_model := Some (JStr "gpt-4o") |} 3 Example.server
           (InsertBot.mk "Coder" "C" "#000" None "gpt-4o") eq_refl).
Defined.

(** X13.  POST /api/chats creates a chat only for a stored bot: a well-typed
    body naming a bot that is not in the store is answered 400 and changes
    nothing; naming a stored bot it is answered 201 with a chat that has the
    id the counter had, the bot and the title of the body, and that GET
    /api/chats/:id returns from then on. *)
Theorem chat_needs_stored_bot b now st botId title :
  insertChatSchema_safeParse b = Some (botId, title) →
  (MemStorage.getBot botId (storage st) = None →
   postChatRoute b now st = (Refusal 400 "Bot not found", st))
  ∧ (is_Some (MemStorage.getBot botId (storage st)) →
     ∃ st1,
       postChatRoute b now st
       = (Json 201 (Chat.mk (MemStorage.chatCurrentId (storage st))
                      botId title now), st1)
       ∧ getChatRoute (Some (MemStorage.chatCurrentId (storage st))) st1
         = Json 200 (Chat.mk (MemStorage.chatCurrentId (storage st))
                       botId title now)).
Proof.
  intros H. unfold postChatRoute. rewrite H. split.
  - by intros ->.
  - intros [bot ->]. eexists. split; [done|].
    unfold getChatRoute, MemStorage.getChat. simpl.
    by rewrite lookup_insert_eq.
Qed.

Lemma chat_needs_stored_bot_witness :
  postChatRoute {| cb_botId := Some (JNum 5); cb_title := Some (JStr "t") |}
    9 Example.server
  = (Refusal 400 "Bot not found", Example.server)
  ∧ (postChatRoute {| cb_botId := Some (JNum 1); cb_title := Some (JStr "t") |}
       9 Example.server).1
    = Json 201 (Chat.mk 8 1 "t" 9).
Proof.
  split.
  - exact (proj1 (chat_needs_stored_bot
                    {| cb_botId := Some (JNum 5); cb_title := Some (JStr "t") |}
                    9 Example.server 5 "t" eq_refl)
             eq_refl).
  - destruct (proj2 (chat_needs_stored_bot
                       {| cb_botId := Some (JNum 1);
                          cb_title := Some (JStr "t") |}
                       9 Example.server 1 "t" eq_refl)
                (ex_intro _ Example.helper eq_refl)) as (st1 & H & _).
    exact (f_equal fst H).
Defined.

(** X14.  Deleting a bot does not delete its chats.  After DELETE
    /api/bots/:id was answered 204, a chat of that bot is still returned by
    GET /api/chats/:id; a message posted to it (with a key configured, a
    content field, and files that the upload lets through) is answered 404,
    starts no exchange, and its user message is stored all the same. *)
Theorem deleted_bot_leaves_chats st id chat_id chat :
  is_Some (MemStorage.getBot id (storage st)) →
  MemStorage.getChat chat_id (storage st) = Some chat →
  Chat.botId chat = id →
  (deleteBotRoute (Some id) st).1 = NoContent 204
  ∧ getChatRoute (Some chat_id) (deleteBotRoute (Some id) st).2
    = Json 200 chat
  ∧ (∀ env rq t_user t_bot files c,
       upload_array (form_parts rq) = Some files →
       form_chatId rq = Some chat_id →
       form_content rq = Some c →
       hasApiKey (MemStorage.getSettings (storage st)) env = true →
       let r := postMessageRoute env rq t_user t_bot
                  (deleteBotRoute (Some id) st).2 in
       r.1.1 = Handled (respond 404 (BError "Bot not found"))
       ∧ r.2 = None
       ∧ MemStorage.messages (storage r.1.2)
           !! MemStorage.messageCurrentId (storage st)
         = Some (Message.mk (MemStorage.messageCurrentId (storage st))
                   chat_id c "user" t_user
                   (request_files (handler_request rq files)))).
Proof.
  intros [bot Hbot] Hchat Hid.
  rewrite (deleteBotRoute_found id st bot Hbot).
  set (st1 := set_storage (Storage.deleteBot id (storage st)).2 st).
  assert (MemStorage.getChat chat_id (storage st1) = Some chat) as Hchat1
    by exact Hchat.
  assert (MemStorage.getBot (Chat.botId chat) (storage st1) = None) as Hgone
    by (rewrite Hid; apply lookup_delete_eq).
  change ((NoContent 204, st1).2) with st1. change ((NoContent 204, st1).1)
    with (@NoContent unit 204).
  split; [done|]. split; [unfold getChatRoute; by rewrite Hchat1|].
  intros env rq t_user t_bot files c Hup Hp Hc Hkey.
  rewrite (postMessageRoute_handled env rq t_user t_bot st1 files Hup).
  rewrite (postMessage_no_bot env (handler_request rq files) t_user t_bot st1
             chat_id chat c Hp Hchat1 Hc Hkey Hgone).
  split; [done|]. split; [done|]. apply lookup_insert_eq.
Qed.

Lemma deleted_bot_leaves_chats_witness :
  getChatRoute (Some 7) (deleteBotRoute (Some 1) Example.server).2
  = Json 200 (Chat.mk 7 1 "Scenario" 0)
  ∧ (postMessageRoute Example.env
       (Example.form 7 (Some "hi") [Example.notes]) 1 2
       (deleteBotRoute (Some 1) Example.server).2).1.1
    = Handled (respond 404 (BError "Bot not found")).
Proof.
  pose proof (deleted_bot_leaves_chats Example.server 1 7
                (Chat.mk 7 1 "Scenario" 0)
                (ex_intro _ Example.helper eq_refl) eq_refl eq_refl)
    as (_ & Hchat & Hpost).
  split; [exact Hchat|].
  exact (proj1 (Hpost Example.env
                  (Example.form 7 (Some "hi") [Example.notes]) 1 2
                  [part_file Example.notes] "hi"
                  eq_refl eq_refl eq_refl eq_refl)).
Defined.

(** X15.  Deleting a chat does not delete its messages.  After DELETE
    /api/chats/:id was answered 204 the list of its messages answers 404,
    yet every message is still in the store and PATCH /api/messages/:id
    still edits it and answers 200. *)
Theorem deleted_chat_leaves_messages st chat_id :
  is_Some (MemStorage.getChat chat_id (storage st)) →
  (deleteChatRoute (Some chat_id) st).1 = NoContent 204
  ∧ getMessagesRoute (Some chat_id) (deleteChatRoute (Some chat_id) st).2
    = Refusal 404 "Chat not found"
  ∧ MemStorage.messages (storage (deleteChatRoute (Some chat_id) st).2)
    = MemStorage.messages (storage st)
  ∧ (∀ id b m data,
       MemStorage.getMessage id (storage st) = Some m →
       insertMessageSchema_partial_safeParse b = Some data →
       (patchMessage (Some id) b (deleteChatRoute (Some chat_id) st).2).1
       = respond 200 (BMessage (Some (MemStorage.spread_message m data)))).
Proof.
  intros [chat Hchat].
  rewrite (deleteChatRoute_found chat_id st chat Hchat).
  set (st1 := set_storage (Storage.deleteChat chat_id (storage st)).2 st).
  change ((NoContent 204, st1).2) with st1. change ((NoContent 204, st1).1)
    with (@NoContent unit 204).
  assert (MemStorage.getChat chat_id (storage st1) = None) as Hgone
    by apply lookup_delete_eq.
  split; [done|]. split; [|split; [done|]].
  - unfold getMessagesRoute. by rewrite Hgone.
  - intros id b m data Hm Hd.
    by rewrite (patchMessage_accepted id b st1 m data Hm Hd).
Qed.

Lemma deleted_chat_leaves_messages_witness :
  getMessagesRoute (Some 7)
    (deleteChatRoute (Some 7) Example.with_user_message).2
  = Refusal 404 "Chat not found"
  ∧ MemStorage.getMessage 101
      (storage (deleteChatRoute (Some 7) Example.with_user_message).2)
    = Some (Message.mk 101 7 "hi" "user" 1 None).
Proof.
  pose proof (deleted_chat_leaves_messages Example.with_user_message 7
                (ex_intro _ (Chat.mk 7 1 "Scenario" 0) eq_refl))
    as (_ & H404 & Hmsgs & _).
  split; [exact H404|].
  unfold MemStorage.getMessage. rewrite Hmsgs. vm_compute. reflexivity.
Defined.

(** X16.  GET /api/chats without a bot id walks the stored bots, so it
    lists exactly the stored chats whose bot is stored: a chat whose bot was
    deleted is not listed, although GET /api/chats?botId= still lists it. *)
Theorem all_chats_skip_deleted_bots st :
  keyed_by_id (storage st) →
  ∃ l,
    getChatsRoute None st = Json 200 l
    ∧ (∀ c, c ∈ l
          ↔ MemStorage.chats (storage st) !! Chat.id c = Some c
            ∧ is_Some (MemStorage.bots (storage st) !! Chat.botId c))
    ∧ (∀ c, MemStorage.chats (storage st) !! Chat.id c = Some c →
            ∃ l', getChatsRoute (Some (Some (Chat.botId c))) st = Json 200 l'
                  ∧ c ∈ l').
Proof.
  intros (_ & Hc & Hb). eexists. split; [done|]. split.
  - intros c. rewrite list_elem_of_join. split.
    + intros (l & Hin & Hl).
      apply list_elem_of_fmap in Hl as (bot & -> & Hbot).
      apply elem_of_getChatsByBotId in Hin as [[k Hk] Hbid].
      apply elem_of_values_by_id in Hbot as [kb Hkb].
      rewrite (Hc k c Hk). split; [done|].
      rewrite Hbid, (Hb kb bot Hkb). by exists bot.
    + intros [Hk [bot Hbot]].
      exists (Storage.getChatsByBotId (Bot.id bot) (storage st)). split.
      * apply elem_of_getChatsByBotId. split; [eauto|].
        by rewrite (Hb _ _ Hbot).
      * apply list_elem_of_fmap. exists bot. split; [done|].
        apply elem_of_values_by_id. eauto.
  - intros c Hk. eexists. split; [done|].
    apply elem_of_getChatsByBotId. eauto.
Qed.

Lemma all_chats_skip_deleted_bots_witness :
  getChatsRoute None (deleteBotRoute (Some 1) Example.server).2 = Json 200 []
  ∧ getChatsRoute (Some (Some 1)) (deleteBotRoute (Some 1) Example.server).2
    = Json 200 [Chat.mk 7 1 "Scenario" 0].
Proof.
  assert (keyed_by_id (storage (deleteBotRoute (Some 1) Example.server).2))
    as H.
  { repeat split.
    - apply (bool_decide_unpack (map_Forall (λ k m, Message.id m = k) _)).
      vm_compute. exact I.
    - apply (bool_decide_unpack (map_Forall (λ k c, Chat.id c = k) _)).
      vm_compute. exact I.
    - apply (bool_decide_unpack (map_Forall (λ k b, Bot.id b = k) _)).
      vm_compute. exact I. }
  destruct (all_chats_skip_deleted_bots _ H) as (l & Hl & _ & _).
  split; [|vm_compute; reflexivity].
  rewrite Hl. vm_compute in Hl. by injection Hl as <-.
Defined.

(** * More on settings *)

Section settings_patch.
Implicit Types (b data : gmap string JVal) (st : Server).

Lemma lookup_parsed (keys : list (string * FieldType)) b k :
  (list_to_map (omap (λ '(k, _), (λ v, (k, v)) <$> b !! k) keys)
     : gmap string JVal) !! k
  = if decide (k ∈ keys.*1) then b !! k else None.
Proof.
  induction keys as [|[k0 ty] keys IH].
  - case_decide as H; [by apply elem_of_nil in H | done].
  - rewrite fmap_cons. change ((k0, ty).1) with k0.
    set (rhs := if decide (k ∈ k0 :: keys.*1) then b !! k else None).
    set (rest := omap _ keys) in *.
    assert ((list_to_map (omap (λ '(k, _), (λ v, (k, v)) <$> b !! k)
                            ((k0, ty) :: keys)) : gmap string JVal) !! k
            = match b !! k0 with
              | Some v => <[k0 := v]> (list_to_map rest : gmap string JVal) !! k
              | None => (list_to_map rest : gmap string JVal) !! k
              end) as -> by (simpl; destruct (b !! k0); reflexivity).
    subst rhs. destruct (b !! k0) as [v|] eqn:E.
    + destruct (decide (k = k0)) as [->|Hne].
      * rewrite lookup_insert_eq, decide_True by left. by rewrite E.
      * rewrite lookup_insert_ne, IH by done.
        destruct (decide (k ∈ keys.*1)) as [Hin|Hnin].
        -- by rewrite decide_True by by right.
        -- rewrite decide_False; [done|]. by intros [?|?]%elem_of_cons.
    + rewrite IH. destruct (decide (k ∈ keys.*1)) as [Hin|Hnin].
      * by rewrite decide_True by by right.
      * destruct (decide (k ∈ k0 :: keys.*1)) as [[->|?]%elem_of_cons|];
          [by rewrite E | done | done].
Qed.

Lemma safeParse_settings_lookup b data k :
  insertSettingsSchema_partial_safeParse b = Some data →
  data !! k = if decide (k ∈ settings_keys) then b !! k else None.
Proof.
  unfold insertSettingsSchema_partial_safeParse.
  destruct (forallb _ _); [|done]. intros H. injection H as H.
  rewrite <- H. exact (lookup_parsed insertSettingsSchema b k).
Qed.

Lemma forallb_false {A} (f : A → bool) (l : list A) :
  forallb f l = false ↔ ∃ x, x ∈ l ∧ f x = false.
Proof.
  induction l as [|y l IH]; simpl.
  - split; [done|]. intros (x & Hx & _). by apply elem_of_nil in Hx.
  - rewrite andb_false_iff, IH. split.
    + intros [Hy|(x & Hx & Hf)]; [exists y | exists x]; split; try done;
        [left | by right].
    + intros (x & [->|Hx]%elem_of_cons & Hf); [by left | right; eauto].
Qed.

Lemma safeParse_settings_None b :
  insertSettingsSchema_partial_safeParse b = None
  ↔ ∃ k ty v, (k, ty) ∈ insertSettingsSchema ∧ b !! k = Some v
              ∧ accepts ty v = false.
Proof.
  unfold insertSettingsSchema_partial_safeParse.
  destruct (forallb _ _) eqn:E.
  - split; [done|]. intros (k & ty & v & Hin & Hv & Hacc).
    rewrite forallb_forall in E. apply list_elem_of_In in Hin.
    specialize (E _ Hin). simpl in E. rewrite Hv in E. congruence.
  - split; [intros _|done].
    apply forallb_false in E as ([k ty] & Hin & Hf).
    exists k, ty. destruct (b !! k) as [v|] eqn:Hv; [|done].
    by exists v.
Qed.

Lemma patchSettingsRoute_accepted env b st data :
  insertSettingsSchema_partial_safeParse b = Some data →
  patchSettingsRoute env b st
  = (respond 200
       (BObject (safe_settings_body env
                   (data ∪ default ∅ (MemStorage.settings (storage st))))),
     set_storage
       (MemStorage.with_settings
          (Some (data ∪ default ∅ (MemStorage.settings (storage st))))
          (storage st)) st).
Proof. intros H. unfold patchSettingsRoute. by rewrite H. Qed.

Lemma safe_settings_body_other env (s : gmap string JVal) k :
  k ∉ computed_keys → safe_settings_body env s !! k = s !! k.
Proof.
  intros Hk. unfold computed_keys in Hk.
  rewrite !not_elem_of_cons in Hk. destruct Hk as (H1 & H2 & H3 & H4 & _).
  unfold safe_settings_body.
  rewrite lookup_insert_ne by done.
  destruct (OPENAI_API_URL env) as [url|]; [destruct (truthy_string url)|];
    rewrite ?(lookup_insert_ne _ "envApiUrl"),
            ?(lookup_delete_ne _ "envApiUrl") by done;
    rewrite lookup_insert_ne by done; by rewrite lookup_delete_ne.
Qed.

End settings_patch.

(** X17.  PATCH /api/settings is refused with 400, changing nothing, exactly
    when a key of the schema is present in the body with a value that its
    column does not take: a value of the wrong type, or, for [tokenLimit],
    a number outside the 32-bit range ([null] is always accepted).  When it
    is accepted, every
    schema key present in the body is stored with the body's value, and every
    key outside the schema, the row's id among them, keeps the stored
    value whatever the body says. *)
Theorem patch_settings_stores_known_keys env (b : gmap string JVal) st :
  ((∃ k ty v, (k, ty) ∈ insertSettingsSchema ∧ b !! k = Some v
              ∧ accepts ty v = false)
   → patchSettingsRoute env b st
     = (respond 400 (BError "Invalid settings data"), st))
  ∧ ((¬ ∃ k ty v, (k, ty) ∈ insertSettingsSchema ∧ b !! k = Some v
                  ∧ accepts ty v = false)
     → status (patchSettingsRoute env b st).1 = 200
       ∧ ∀ k,
           MemStorage.settings (storage (patchSettingsRoute env b st).2)
             ≫= (.!! k)
           = if decide (k ∈ settings_keys)
             then match b !! k with
                  | Some v => Some v
                  | None => MemStorage.settings (storage st) ≫= (.!! k)
                  end
             else MemStorage.settings (storage st) ≫= (.!! k)).
Proof.
  split.
  - intros H. apply safeParse_settings_None in H.
    unfold patchSettingsRoute. by rewrite H.
  - intros H.
    destruct (insertSettingsSchema_partial_safeParse b) as [data|] eqn:E;
      [|by apply safeParse_settings_None in E].
    rewrite (patchSettingsRoute_accepted env b st data E).
    split; [done|]. intros k. simpl. rewrite lookup_union.
    rewrite (safeParse_settings_lookup b data k E).
    destruct (decide (k ∈ settings_keys)).
    + destruct (b !! k) as [v|], (MemStorage.settings (storage st)) as [d|];
        simpl; rewrite ?lookup_empty; try done; by destruct (d !! k).
    + destruct (MemStorage.settings (storage st)) as [d|]; simpl;
        rewrite ?lookup_empty; try done; by destruct (d !! k).
Qed.

Lemma patch_settings_stores_known_keys_witness :
  patchSettingsRoute Example.env (<["tokenLimit" := JStr "many"]> ∅)
    Example.server
  = (respond 400 (BError "Invalid settings data"), Example.server)
  ∧ patchSettingsRoute Example.env (<["tokenLimit" := JNum 2147483648]> ∅)
      Example.server
    = (respond 400 (BError "Invalid settings data"), Example.server)
  ∧ MemStorage.settings
      (storage (patchSettingsRoute Example.env
                  (<["id" := JNum 9]> (<["tokenLimit" := JNum 100]> ∅))
                  Example.server).2) ≫= (.!! "id")
    = Some (JNum 1).
Proof.
  split; [|split].
  - refine (proj1 (patch_settings_stores_known_keys Example.env
                     (<["tokenLimit" := JStr "many"]> ∅) Example.server) _).
    exists "tokenLimit", TInt, (JStr "many").
    split; [|by vm_compute]. unfold insertSettingsSchema.
    do 2 right. left.
  - refine (proj1 (patch_settings_stores_known_keys Example.env
                     (<["tokenLimit" := JNum 2147483648]> ∅)
                     Example.server) _).
    exists "tokenLimit", TInt, (JNum 2147483648).
    split; [|by vm_compute]. unfold insertSettingsSchema.
    do 2 right. left.
  - refine (proj2 (proj2 (patch_settings_stores_known_keys Example.env
                     (<["id" := JNum 9]> (<["tokenLimit" := JNum 100]> ∅))
                     Example.server) _) "id").
    intros H. apply safeParse_settings_None in H.
    vm_compute in H. discriminate.
Defined.

(** X18.  The [hasApiKey] that GET and PATCH /api/settings answer is
    computed from the key alone: it is true exactly when the key in the store
    (after the update, for PATCH) is truthy or the environment has one,
    whatever [hasApiKey] the row stores or the body submits; and every field
    other than the four the routes compute is echoed as stored (after the
    update, for PATCH). *)
Theorem settings_has_api_key_is_computed env st (s : gmap string JVal) :
  MemStorage.getSettings (storage st) = Some s →
  (∃ o,
     getSettingsRoute env st = respond 200 (BObject o)
     ∧ o !! "hasApiKey"
       = Some (JBool (truthy (s !! "apiKey")
                      || truthy_env (OPENAI_API_KEY env)))
     ∧ (∀ k, k ∉ computed_keys → o !! k = s !! k)
     ∧ (∀ flag,
          getSettingsRoute env
            (set_storage
               (MemStorage.with_settings
                  (Some (<["hasApiKey" := flag]> s)) (storage st)) st)
          = getSettingsRoute env st))
  ∧ (∀ b data,
       insertSettingsSchema_partial_safeParse b = Some data →
       ∃ o,
         (patchSettingsRoute env b st).1 = respond 200 (BObject o)
         ∧ o !! "hasApiKey"
           = Some (JBool (truthy (match b !! "apiKey" with
                                  | Some key => Some key
                                  | None => s !! "apiKey"
                                  end)
                          || truthy_env (OPENAI_API_KEY env)))
         ∧ (∀ k, k ∉ computed_keys →
              o !! k = if decide (k ∈ settings_keys)
                       then match b !! k with
                            | Some v => Some v
                            | None => s !! k
                            end
                       else s !! k)).
Proof.
  intros Hs. split.
  - unfold getSettingsRoute. rewrite Hs. eexists. split; [done|].
    split; [apply safe_settings_body_hasApiKey|].
    split; [intros k; apply safe_settings_body_other|].
    intros flag. simpl. do 2 f_equal. unfold safe_settings_body.
    rewrite lookup_insert_ne by done. do 3 f_equal.
    rewrite delete_insert_ne by done.
    by rewrite insert_insert_eq.
  - intros b data Hd.
    rewrite (patchSettingsRoute_accepted env b st data Hd).
    unfold MemStorage.getSettings in Hs. rewrite Hs. simpl.
    eexists. split; [done|].
    assert (∀ k, (data ∪ s) !! k
                 = if decide (k ∈ settings_keys)
                   then match b !! k with
                        | Some v => Some v
                        | None => s !! k
                        end
                   else s !! k) as Hmerged.
    { intros k. rewrite lookup_union.
      rewrite (safeParse_settings_lookup b data k Hd).
      destruct (decide (k ∈ settings_keys)).
      - by destruct (b !! k), (s !! k).
      - by destruct (s !! k). }
    split.
    + rewrite safe_settings_body_hasApiKey, (Hmerged "apiKey").
      by rewrite decide_True by (unfold settings_keys; simpl; left).
    + intros k Hk. by rewrite safe_settings_body_other, Hmerged.
Qed.

Lemma settings_has_api_key_is_computed_witness :
  (∃ o,
     getSettingsRoute Example.env Example.server_without_key
     = respond 200 (BObject o)
     ∧ o !! "hasApiKey" = Some (JBool false)
     ∧ o !! "tokenLimit" = Some (JNum 4000))
  ∧ (∃ o,
       (patchSettingsRoute Example.env
          (<["hasApiKey" := JBool true]> ∅) Example.server_without_key).1
       = respond 200 (BObject o)
       ∧ o !! "hasApiKey" = Some (JBool false)).
Proof.
  destruct (settings_has_api_key_is_computed Example.env
              Example.server_without_key MemStorage.default_settings eq_refl)
    as [(o & Hres & Hflag & Hother & _) Hpatch].
  split.
  - exists o. split; [exact Hres|]. split; [exact Hflag|].
    rewrite (Hother "tokenLimit"); [vm_compute; reflexivity|].
    unfold computed_keys. rewrite !not_elem_of_cons.
    repeat split; try discriminate. apply not_elem_of_nil.
  - destruct (Hpatch (<["hasApiKey" := JBool true]> ∅)
                (<["hasApiKey" := JBool true]> ∅))
      as (o' & Hres' & Hflag' & _); [vm_compute; reflexivity|].
    exists o'. split; [exact Hres' | exact Hflag'].
Defined.

(** X19.  The key is read afresh for every message.  Once a PATCH
    /api/settings has stored a non-empty key, a message posted for an
    existing chat with a stored bot (with a content field, and files that
    the upload lets through) is answered 201, whatever the environment; once
    it has stored the empty string or [null] and the environment has no key,
    such a message is answered 400. *)
Theorem settings_key_decides_next_message
  env (b : gmap string JVal) st key rq t_user t_bot chat_id chat c bot :
  is_Some (insertSettingsSchema_partial_safeParse b) →
  b !! "apiKey" = Some key →
  is_Some (upload_array (form_parts rq)) →
  form_chatId rq = Some chat_id →
  MemStorage.getChat chat_id (storage st) = Some chat →
  form_content rq = Some c →
  MemStorage.getBot (Chat.botId chat) (storage st) = Some bot →
  answer_status (postMessageRoute env rq t_user t_bot
                   (patchSettingsRoute env b st).2).1.1
  = if truthy (Some key) || truthy_env (OPENAI_API_KEY env)
    then 201 else 400.
Proof.
  intros [data Hd] Hkey [files Hup] Hp Hchat Hc Hbot.
  rewrite (patchSettingsRoute_accepted env b st data Hd).
  set (st1 := set_storage _ st).
  assert (hasApiKey (MemStorage.getSettings (storage st1)) env
          = truthy (Some key) || truthy_env (OPENAI_API_KEY env)) as Hhas.
  { unfold hasApiKey. simpl. rewrite lookup_union.
    rewrite (safeParse_settings_lookup b data "apiKey" Hd).
    rewrite decide_True by (unfold settings_keys; simpl; left).
    rewrite Hkey. by destruct (default ∅ _ !! "apiKey"). }
  change ((?r, st1).2) with st1.
  rewrite (postMessageRoute_handled env rq t_user t_bot st1 files Hup).
  destruct (truthy (Some key) || truthy_env (OPENAI_API_KEY env)).
  - by rewrite (postMessage_accepted env (handler_request rq files) t_user
                  t_bot st1 chat_id chat c bot Hp Hchat Hc Hhas Hbot).
  - by rewrite (postMessage_no_key env (handler_request rq files) t_user
                  t_bot st1 chat_id chat c Hp Hchat Hc Hhas).
Qed.

Lemma settings_key_decides_next_message_witness :
  answer_status
    (postMessageRoute Example.env (Example.form 7 (Some "hi") []) 1 2
       (patchSettingsRoute Example.env (<["apiKey" := JStr "sk-new"]> ∅)
          Example.server_without_key).2).1.1 = 201
  ∧ answer_status
      (postMessageRoute Example.env (Example.form 7 (Some "hi") []) 1 2
         (patchSettingsRoute Example.env (<["apiKey" := JNull]> ∅)
            Example.server).2).1.1 = 400.
Proof.
  split.
  - apply (settings_key_decides_next_message Example.env
             (<["apiKey" := JStr "sk-new"]> ∅) Example.server_without_key
             (JStr "sk-new") (Example.form 7 (Some "hi") []) 1 2
             7 (Chat.mk 7 1 "Scenario" 0) "hi" Example.helper);
      try reflexivity; vm_compute; eexists; reflexivity.
  - apply (settings_key_decides_next_message Example.env
             (<["apiKey" := JNull]> ∅) Example.server
             JNull (Example.form 7 (Some "hi") []) 1 2
             7 (Chat.mk 7 1 "Scenario" 0) "hi" Example.helper);
      try reflexivity; vm_compute; eexists; reflexivity.
Defined.

(** * The completion client *)

Section client.
Variable JSON_parse : string → option Headers.
Implicit Types (cache : ClientCache) (env : Env).

Lemma getOpenAIClient_no_key env apiKey apiUrl h cache :
  truthy_env (or_else apiKey (OPENAI_API_KEY env)) = false →
  getOpenAIClient JSON_parse env apiKey apiUrl h cache
  = (Thrown "API key is required. Set OPENAI_API_KEY in .env or provide it directly.",
     cache).
Proof.
  unfold getOpenAIClient.
  destruct (or_else apiKey (OPENAI_API_KEY env)) as [k|]; simpl; [|done].
  by intros ->.
Qed.

Lemma getOpenAIClient_key env apiKey apiUrl h cache :
  truthy_env (or_else apiKey (OPENAI_API_KEY env)) = true →
  coherent cache →
  (getOpenAIClient JSON_parse env apiKey apiUrl h cache).1
  = Returned (resolved_config JSON_parse env apiKey apiUrl h)
  ∧ openaiClient (getOpenAIClient JSON_parse env apiKey apiUrl h cache).2
    = Some (resolved_config JSON_parse env apiKey apiUrl h)
  ∧ coherent (getOpenAIClient JSON_parse env apiKey apiUrl h cache).2.
Proof.
  unfold getOpenAIClient, resolved_config.
  destruct (or_else apiKey (OPENAI_API_KEY env)) as [k|]; simpl; [|done].
  intros -> Hcoh. simpl.
  set (url := default _ (or_else (or_else apiUrl _) _)).
  set (merged := if truthy_env (OPENAI_API_HEADERS env) then _ else _).
  assert (match (if truthy_env (OPENAI_API_HEADERS env)
                 then OPENAI_API_HEADERS env ≫= JSON_parse else None) with
          | Some envHeaders => spread_headers envHeaders (default [] h)
          | None => default [] h
          end = merged) as ->.
  { unfold merged. by destruct (truthy_env (OPENAI_API_HEADERS env)). }
  destruct (openaiClient cache) as [c|] eqn:Hc.
  - unfold coherent in Hcoh. rewrite Hc in Hcoh.
    destruct Hcoh as (Hk & Hu & h0 & Hh & Hd).
    rewrite bool_decide_eq_true_2 by done. simpl.
    destruct (decide (Some k = last_apiKey (lastConfig cache))) as [Ek|Ek];
      [rewrite (bool_decide_eq_true_2 _ Ek)
      |rewrite (bool_decide_eq_false_2 _ Ek); simpl;
       split; [done|split; [done|]]; unfold coherent; simpl; eauto].
    destruct (decide (Some url = last_apiUrl (lastConfig cache))) as [Eu|Eu];
      [rewrite (bool_decide_eq_true_2 _ Eu)
      |rewrite (bool_decide_eq_false_2 _ Eu); simpl;
       split; [done|split; [done|]]; unfold coherent; simpl; eauto].
    destruct (decide (Some merged = last_customHeaders (lastConfig cache)))
      as [Em|Em];
      [rewrite (bool_decide_eq_true_2 _ Em)
      |rewrite (bool_decide_eq_false_2 _ Em); simpl;
       split; [done|split; [done|]]; unfold coherent; simpl; eauto].
    simpl. rewrite Hc.
    assert (c = {| cfg_apiKey := k; cfg_baseURL := url;
                   cfg_defaultHeaders :=
                     match merged with [] => None | _ :: _ => Some merged end |})
      as <-.
    { destruct c as [ck cu cd]. simpl in *.
      rewrite Hk in Ek. rewrite Hu in Eu. rewrite Hh in Em.
      injection Ek as ->. injection Eu as ->. injection Em as ->.
      by rewrite Hd. }
    split; [done|split; [done|]]. unfold coherent. simpl. rewrite Hc. eauto.
  - rewrite bool_decide_eq_false_2 by by intros [? ?]. simpl.
    split; [done|split; [done|]]. unfold coherent. simpl. eauto.
Qed.

Lemma coherent_call env cache c :
  coherent cache → coherent (call_client JSON_parse env cache c).
Proof.
  intros H. unfold call_client.
  destruct (truthy_env (or_else (call_apiKey c) (OPENAI_API_KEY env))) eqn:E.
  - by apply getOpenAIClient_key.
  - by rewrite getOpenAIClient_no_key.
Qed.

Lemma coherent_calls env calls cache :
  coherent cache →
  coherent (foldl (call_client JSON_parse env) cache calls).
Proof.
  revert cache. induction calls as [|c calls IH]; intros cache H; [done|].
  apply IH. by apply coherent_call.
Qed.

End client.

(** X20.  The cached client is never stale.  After any run of earlier calls
    on the module's cache, [getOpenAIClient] throws exactly when neither the
    key passed in nor the key of the environment is non-empty, and then
    leaves the cache alone; otherwise it returns the client for the key,
    URL and headers of this very call: the key passed in before the
    environment's, the URL passed in before the environment's before the
    default, the environment's headers overridden by the ones passed in. *)
Theorem client_cache_is_never_stale
  (JSON_parse : string → option Headers) env (calls : list ClientCall)
  apiKey apiUrl h :
  let cache := foldl (call_client JSON_parse env) empty_cache calls in
  (truthy_env (or_else apiKey (OPENAI_API_KEY env)) = false →
   getOpenAIClient JSON_parse env apiKey apiUrl h cache
   = (Thrown "API key is required. Set OPENAI_API_KEY in .env or provide it directly.",
      cache))
  ∧ (truthy_env (or_else apiKey (OPENAI_API_KEY env)) = true →
     (getOpenAIClient JSON_parse env apiKey apiUrl h cache).1
     = Returned (resolved_config JSON_parse env apiKey apiUrl h)).
Proof.
  intros cache. split.
  - apply getOpenAIClient_no_key.
  - intros Hk. apply getOpenAIClient_key; [done|].
    apply coherent_calls. exact I.
Qed.

Lemma client_cache_is_never_stale_witness :
  (getOpenAIClient (λ _, None)
     {| OPENAI_API_KEY := Some "sk-env"; OPENAI_API_URL := None;
        OPENAI_API_HEADERS := None |}
     (Some "") (Some "https://proxy") (Some [("x-org", "acme")])
     (foldl (call_client (λ _, None)
               {| OPENAI_API_KEY := Some "sk-env"; OPENAI_API_URL := None;
                  OPENAI_API_HEADERS := None |})
        empty_cache
        [{| call_apiKey := Some "sk-one"; call_apiUrl := None;
            call_headers := None |}])).1
  = Returned {| cfg_apiKey := "sk-env"; cfg_baseURL := "https://proxy";
                cfg_defaultHeaders := Some [("x-org", "acme")] |}.
Proof.
  exact (proj2 (client_cache_is_never_stale (λ _, None)
                  {| OPENAI_API_KEY := Some "sk-env"; OPENAI_API_URL := None;
                     OPENAI_API_HEADERS := None |}
                  [{| call_apiKey := Some "sk-one"; call_apiUrl := None;
                      call_headers := None |}]
                  (Some "") (Some "https://proxy") (Some [("x-org", "acme")]))
           eq_refl).
Defined.

(** X21.  Asking again is free: a second call of [getOpenAIClient] with the
    same arguments, right after the first, returns what the first returned
    and leaves the cache as the first left it. *)
Theorem client_is_reused
  (JSON_parse : string → option Headers) env apiKey apiUrl h cache :
  getOpenAIClient JSON_parse env apiKey apiUrl h
    (getOpenAIClient JSON_parse env apiKey apiUrl h cache).2
  = getOpenAIClient JSON_parse env apiKey apiUrl h cache.
Proof.
  unfold getOpenAIClient.
  destruct (or_else apiKey (OPENAI_API_KEY env)) as [k|]; [|done].
  destruct (truthy_string k); simpl; [|done].
  set (url := default _ (or_else (or_else apiUrl _) _)).
  set (merged := if truthy_env (OPENAI_API_HEADERS env) then _ else _).
  destruct (openaiClient cache) as [c|] eqn:Hc.
  - rewrite (bool_decide_eq_true_2 (is_Some (Some c))) by done. simpl.
    destruct (decide (Some k = last_apiKey (lastConfig cache))) as [Ek|Ek];
      [rewrite (bool_decide_eq_true_2 _ Ek)
      |rewrite (bool_decide_eq_false_2 _ Ek); simpl;
       by rewrite !bool_decide_eq_true_2 by done].
    destruct (decide (Some url = last_apiUrl (lastConfig cache))) as [Eu|Eu];
      [rewrite (bool_decide_eq_true_2 _ Eu)
      |rewrite (bool_decide_eq_false_2 _ Eu); simpl;
       by rewrite !bool_decide_eq_true_2 by done].
    destruct (decide (Some merged = last_customHeaders (lastConfig cache)))
      as [Em|Em];
      [rewrite (bool_decide_eq_true_2 _ Em)
      |rewrite (bool_decide_eq_false_2 _ Em); simpl;
       by rewrite !bool_decide_eq_true_2 by done].
    simpl. rewrite Hc. simpl. rewrite Hc.
    rewrite !bool_decide_eq_true_2 by done. simpl. by rewrite Hc.
  - rewrite (bool_decide_eq_false_2 (is_Some None)) by by intros [? ?].
    simpl. by rewrite !bool_decide_eq_true_2 by done.
Qed.

Lemma coerce_role_known msg :
  turn_role (coerce_role msg) ∈ known_roles
  ∧ turn_content (coerce_role msg) = turn_content msg
  ∧ (turn_role msg ∈ known_roles → coerce_role msg = msg)
  ∧ (turn_role msg ∉ known_roles → turn_role (coerce_role msg) = "user").
Proof.
  unfold coerce_role, known_roles. destruct msg as [r c]. simpl.
  destruct (String.eqb_spec r "user") as [->|H1];
    [|destruct (String.eqb_spec r "assistant") as [->|H2];
      [|destruct (String.eqb_spec r "system") as [->|H3]]];
    simpl; rewrite ?elem_of_cons, ?elem_of_nil;
    repeat split; try done; intuition congruence.
Qed.

Section completion.
Context {Num : Type} (JSON_parse : string → option Headers).
Implicit Types (cache : ClientCache) (env : Env)
  (options : CompletionOptions Num).

Lemma getOpenAIClient_returns env apiKey apiUrl h cache :
  truthy_env (or_else apiKey (OPENAI_API_KEY env)) = true →
  ∃ c, (getOpenAIClient JSON_parse env apiKey apiUrl h cache).1 = Returned c.
Proof.
  unfold getOpenAIClient.
  destruct (or_else apiKey (OPENAI_API_KEY env)) as [k|]; simpl; [|done].
  intros ->. simpl.
  destruct (openaiClient cache) as [c|] eqn:Hc.
  - rewrite (bool_decide_eq_true_2 (is_Some (Some c))) by done. simpl.
    match goal with
    | |- context [if ?b then _ else cache] => destruct b
    end; simpl; [eauto|]. rewrite Hc. eauto.
  - rewrite (bool_decide_eq_false_2 (is_Some None)) by by intros [? ?].
    simpl. eauto.
Qed.

Lemma createChatCompletion_request env apiKey messages options cache client rq :
  (createChatCompletion JSON_parse env apiKey messages options cache).1
  = Returned (client, rq) →
  rq = {| rq_model :=
            default "gpt-4o" (or_else (opt_model options) (Some "gpt-4o"));
          rq_messages := coerce_role <$> messages;
          rq_temperature := opt_temperature options;
          rq_max_tokens := opt_max_tokens options;
          rq_top_p := opt_top_p options;
          rq_stream :=
            negb (bool_decide (opt_useStreaming options = Some false)) |}.
Proof.
  unfold createChatCompletion.
  destruct (getOpenAIClient _ _ _ _ _ _) as [[c|e] cache1]; simpl; [|done].
  by intros [= _ <-].
Qed.

End completion.

(** X22.  Whatever roles the caller passes, every message of the request
    that [createChatCompletion] makes has the role user, assistant or
    system: a message that had one of the three is passed on as it is, any
    other becomes a user message; the contents, the number and the order of
    the messages are those of the caller. *)
Theorem completion_roles_are_coerced {Num}
  (JSON_parse : string → option Headers) env apiKey (messages : list ChatTurn)
  (options : CompletionOptions Num) cache client rq :
  (createChatCompletion JSON_parse env apiKey messages options cache).1
  = Returned (client, rq) →
  length (rq_messages rq) = length messages
  ∧ turn_content <$> rq_messages rq = turn_content <$> messages
  ∧ Forall (λ t, turn_role t ∈ known_roles) (rq_messages rq)
  ∧ (∀ i t, messages !! i = Some t →
       rq_messages rq !! i
       = Some (if bool_decide (turn_role t ∈ known_roles) then t
               else {| turn_role := "user"; turn_content := turn_content t |})).
Proof.
  intros H. apply createChatCompletion_request in H. subst rq. simpl.
  split; [apply length_fmap|]. split; [|split].
  - rewrite <- list_fmap_compose. apply list_fmap_ext.
    intros i t _. apply coerce_role_known.
  - apply Forall_fmap, Forall_forall. intros t _. apply coerce_role_known.
  - intros i t Hi. rewrite list_lookup_fmap, Hi. simpl. f_equal.
    destruct (coerce_role_known t) as (_ & Hc & Hknown & Hother).
    case_bool_decide as Hin; [by apply Hknown|].
    specialize (Hother Hin). destruct (coerce_role t) as [r c].
    simpl in *. by subst.
Qed.

Lemma completion_roles_are_coerced_witness :
  ∃ client rq,
    (createChatCompletion (Num := Z) (λ _, None) Example.env (Some "sk")
       [{| turn_role := "system"; turn_content := "s" |};
        {| turn_role := "tool"; turn_content := "t" |}]
       {| opt_model := Some ""; opt_temperature := None;
          opt_max_tokens := None; opt_top_p := None; opt_apiUrl := None;
          opt_customHeaders := NoHeaders; opt_useStreaming := None |}
       empty_cache).1 = Returned (client, rq)
    ∧ rq_messages rq
      = [{| turn_role := "system"; turn_content := "s" |};
         {| turn_role := "user"; turn_content := "t" |}]
    ∧ Forall (λ t, turn_role t ∈ known_roles) (rq_messages rq).
Proof.
  eexists _, _. split; [vm_compute; reflexivity|]. split; [reflexivity|].
  refine (proj1 (proj2 (proj2 (completion_roles_are_coerced (Num := Z)
            (λ _, None) Example.env (Some "sk")
            [{| turn_role := "system"; turn_content := "s" |};
             {| turn_role := "tool"; turn_content := "t" |}]
            {| opt_model := Some ""; opt_temperature := None;
               opt_max_tokens := None; opt_top_p := None; opt_apiUrl := None;
               opt_customHeaders := NoHeaders; opt_useStreaming := None |}
            empty_cache _ _ _)))).
  vm_compute. reflexivity.
Defined.

(** X23.  [createChatCompletion] throws before calling the API exactly when
    neither the key passed in nor the key of the environment is non-empty.
    In particular custom headers never make it throw: a header text that
    does not parse is dropped, and the call proceeds exactly as if no custom
    headers had been given.  The model is "gpt-4o" unless a non-empty one is
    given, and the request streams unless streaming is explicitly false. *)
Theorem completion_fails_only_without_key {Num}
  (JSON_parse : string → option Headers) env apiKey (messages : list ChatTurn)
  (options : CompletionOptions Num) cache :
  ((∃ e, (createChatCompletion JSON_parse env apiKey messages options cache).1
         = Thrown e)
   ↔ truthy_env (or_else apiKey (OPENAI_API_KEY env)) = false)
  ∧ (∀ text,
       opt_customHeaders options = HeaderText text →
       JSON_parse text = None →
       createChatCompletion JSON_parse env apiKey messages options cache
       = createChatCompletion JSON_parse env apiKey messages
           {| opt_model := opt_model options;
              opt_temperature := opt_temperature options;
              opt_max_tokens := opt_max_tokens options;
              opt_top_p := opt_top_p options;
              opt_apiUrl := opt_apiUrl options;
              opt_customHeaders := NoHeaders;
              opt_useStreaming := opt_useStreaming options |} cache)
  ∧ (∀ client rq,
       (createChatCompletion JSON_parse env apiKey messages options cache).1
       = Returned (client, rq) →
       rq_model rq
       = (match opt_model options with
          | Some m => if truthy_string m then m else "gpt-4o"
          | None => "gpt-4o"
          end)
       ∧ rq_stream rq
         = negb (bool_decide (opt_useStreaming options = Some false))).
Proof.
  split; [|split].
  - unfold createChatCompletion.
    destruct (truthy_env (or_else apiKey (OPENAI_API_KEY env))) eqn:E.
    + destruct (getOpenAIClient_returns JSON_parse env apiKey
                  (opt_apiUrl options)
                  (parse_custom_headers JSON_parse (opt_customHeaders options))
                  cache E) as [c Hc].
      destruct (getOpenAIClient _ _ _ _ _ _) as [[c'|e] cache1];
        simpl in *; [|done].
      split; [by intros [? ?] | done].
    + rewrite getOpenAIClient_no_key by done. split; [done|eauto].
  - intros text Hh Hparse. unfold createChatCompletion. simpl.
    rewrite Hh. simpl. rewrite Hparse. by destruct (truthy_string text).
  - intros client rq H. apply createChatCompletion_request in H. subst rq.
    simpl. split; [|done].
    unfold or_else. destruct (opt_model options) as [m|]; simpl; [|done].
    by destruct (truthy_string m).
Qed.

Lemma completion_fails_only_without_key_witness :
  createChatCompletion (Num := Z) (λ _, None) Example.env (Some "sk") []
    {| opt_model := None; opt_temperature := None; opt_max_tokens := None;
       opt_top_p := None; opt_apiUrl := None;
       opt_customHeaders := HeaderText "{not json";
       opt_useStreaming := Some false |} empty_cache
  = createChatCompletion (Num := Z) (λ _, None) Example.env (Some "sk") []
      {| opt_model := None; opt_temperature := None; opt_max_tokens := None;
         opt_top_p := None; opt_apiUrl := None;
         opt_customHeaders := NoHeaders;
         opt_useStreaming := Some false |} empty_cache.
Proof.
  exact (proj1 (proj2 (completion_fails_only_without_key (Num := Z)
           (λ _, None) Example.env (Some "sk") []
           {| opt_model := None; opt_temperature := None;
              opt_max_tokens := None; opt_top_p := None; opt_apiUrl := None;
              opt_customHeaders := HeaderText "{not json";
              opt_useStreaming := Some false |} empty_cache))
           "{not json" eq_refl eq_refl).
Defined.

(** * What goes upstream *)

Lemma elem_of_getMessagesByChatId (chat : Z) (s : MemStorage.t) (m : Message.t) :
  m ∈ Storage.getMessagesByChatId chat s
  ↔ (∃ k, MemStorage.messages s !! k = Some m) ∧ Message.chatId m = chat.
Proof.
  unfold Storage.getMessagesByChatId.
  rewrite elem_of_sort_by, list_elem_of_In, List.filter_In.
  by rewrite <- list_elem_of_In, elem_of_values_by_id, bool_decide_eq_true.
Qed.

Lemma truthy_text (v : option JVal) :
  (∀ x, v = Some x → x = JNull ∨ ∃ s, x = JStr s) →
  truthy v = truthy_env (v ≫= as_string).
Proof.
  intros H. destruct v as [x|]; [|done].
  destruct (H x eq_refl) as [->|[s ->]]; done.
Qed.

(** X24.  The handler never calls the API without a key.  When the key
    check of the handler has passed, the call it makes afterwards does not
    throw, whatever the settings hold for headers: it goes out with the
    stored key if that is non-empty and with the environment's otherwise,
    streams unless [useStreamingApi] is [false], names the bot's model
    ("gpt-4o" if that is empty), starts with a system message, and carries
    the message the user just posted, with the role user and its content. *)
Theorem upstream_call_goes_out {Num}
  (parseFloat : string → Num) (number : Z → Num) (point7 point5 : Num)
  (utf8_of_base64 : string → string) (JSON_parse : string → option Headers)
  env chat_id bot c files t_user st cache :
  hasApiKey (MemStorage.getSettings (storage st)) env = true →
  (∀ x, MemStorage.getSettings (storage st) ≫= (.!! "apiKey") = Some x →
        x = JNull ∨ ∃ s, x = JStr s) →
  coherent cache →
  ∃ client rq,
    (upstream_call parseFloat number point7 point5 utf8_of_base64 JSON_parse
       env chat_id bot (InsertMessage.mk chat_id c "user" files) t_user
       st cache).1 = Returned (client, rq)
    ∧ cfg_apiKey client
      = default ""
          (or_else (setting_text (MemStorage.getSettings (storage st)) "apiKey")
                   (OPENAI_API_KEY env))
    ∧ truthy_string (cfg_apiKey client) = true
    ∧ rq_stream rq = useStreaming (MemStorage.getSettings (storage st))
    ∧ rq_model rq
      = (if truthy_string (Bot.model bot) then Bot.model bot else "gpt-4o")
    ∧ turn_role <$> head (rq_messages rq) = Some "system"
    ∧ {| turn_role := "user"; turn_content := c |} ∈ tail (rq_messages rq).
Proof.
  intros Hkey Htyped Hcoh. unfold upstream_call.
  set (s1 := (MemStorage.createMessage _ t_user (storage st)).2).
  change (MemStorage.getSettings s1)
    with (MemStorage.getSettings (storage st)).
  set (settings := MemStorage.getSettings (storage st)) in *.
  set (sk := setting_text settings "apiKey").
  assert (truthy_env (or_else sk (OPENAI_API_KEY env)) = true) as Hor.
  { unfold hasApiKey in Hkey. rewrite (truthy_text _ Htyped) in Hkey.
    change (truthy_env sk || truthy_env (OPENAI_API_KEY env) = true) in Hkey.
    unfold or_else. destruct (truthy_env sk) eqn:E; [done|].
    exact Hkey. }
  assert (or_else (Some (upstream_key settings env)) (OPENAI_API_KEY env)
          = or_else sk (OPENAI_API_KEY env)) as Hsame.
  { unfold upstream_key. fold sk. unfold or_else at 2. rewrite Hor.
    destruct (or_else sk (OPENAI_API_KEY env)) as [k|] eqn:Ek; [|done].
    simpl in *. unfold or_else at 1. simpl. by rewrite Hor. }
  unfold createChatCompletion.
  destruct (getOpenAIClient_key JSON_parse env
              (Some (upstream_key settings env))
              (opt_apiUrl (upstream_options parseFloat number point7 point5
                             settings env bot))
              (parse_custom_headers JSON_parse
                 (opt_customHeaders
                    (upstream_options parseFloat number point7 point5
                       settings env bot)))
              cache) as (Hret & _); [by rewrite Hsame | done |].
  destruct (getOpenAIClient _ _ _ _ _ _) as [[client|e] cache1];
    simpl in Hret; [|done].
  injection Hret as ->. eexists _, _. split; [done|]. simpl.
  rewrite Hsame.
  split; [done|].
  split; [by destruct (or_else sk (OPENAI_API_KEY env))|].
  split; [by destruct (useStreaming settings)|].
  split; [destruct (truthy_string (Bot.model bot)) eqn:E;
          unfold or_else; simpl; by rewrite ?E|].
  split; [done|].
  apply list_elem_of_fmap.
  exists {| turn_role := "user"; turn_content := c |}. split; [done|].
  apply list_elem_of_fmap.
  exists (Message.mk (MemStorage.messageCurrentId (storage st))
            chat_id c "user" t_user files).
  split; [done|]. apply elem_of_getMessagesByChatId. split; [|done].
  eexists. apply lookup_insert_eq.
Qed.

Lemma upstream_call_goes_out_witness :
  ∃ client rq,
    (upstream_call (Num := Z) (λ _, 0) (λ n, n) 7 5 (λ s, s) (λ _, None)
       Example.env 7 Example.helper
       (InsertMessage.mk 7 "hi" "user" None) 1 Example.server empty_cache).1
    = Returned (client, rq)
    ∧ cfg_apiKey client = "sk-secret"
    ∧ rq_messages rq
      = [{| turn_role := "system";
            turn_content := "You are Helper, an AI assistant. " |};
         {| turn_role := "user"; turn_content := "hi" |}].
Proof.
  destruct (upstream_call_goes_out (Num := Z) (λ _, 0) (λ n, n) 7 5
              (λ s, s) (λ _, None) Example.env 7 Example.helper "hi" None 1
              Example.server empty_cache eq_refl)
    as (client & rq & Hcall & Hkey & _); [|exact I|].
  - intros x Hx. vm_compute in Hx. injection Hx as <-. right. by eexists.
  - exists client, rq. split; [exact Hcall|]. split; [exact Hkey|].
    vm_compute in Hcall. by injection Hcall as _ <-.
Defined.

(** * File names *)

Section file_names.

Lemma split_dot_cons s : ∃ seg segs, split_dot s = seg :: segs.
Proof.
  induction s as [|c s (seg & segs & IH)]; simpl; [by eexists _, _|].
  destruct (is_dot c); [by eexists _, _|]. rewrite IH. by eexists _, _.
Qed.

(** Splitting distributes over a full stop. *)
Lemma split_dot_app a b :
  split_dot (a +:+ String (Ascii.Ascii false true true true false true false false) b)
  = split_dot a ++ split_dot b.
Proof.
  induction a as [|c a IH].
  - done.
  - change (String c a +:+ ?x) with (String c (a +:+ x)).
    simpl. rewrite IH. destruct (is_dot c); [done|].
    by destruct (split_dot_cons a) as (seg & segs & ->).
Qed.

Lemma split_dot_dotless s : has_dot s = false → split_dot s = [s].
Proof.
  induction s as [|c s IH]; simpl; [done|].
  intros [-> H]%orb_false_iff. by rewrite IH.
Qed.

Lemma last_split_dot_app a b :
  last (split_dot a ++ split_dot b) = last (split_dot b).
Proof.
  destruct (split_dot_cons b) as (seg & segs & ->).
  induction (split_dot a) as [|x l IH]; [done|].
  change ((x :: l) ++ seg :: segs) with (x :: (l ++ seg :: segs)).
  destruct (l ++ seg :: segs) eqn:E; [by destruct l|].
  by rewrite last_cons_cons.
Qed.

End file_names.

(** X25.  The extension that the upload filter, the file-type description
    and the client's checks look at is the lower-cased text after the last
    full stop of the name: everything before that full stop is irrelevant.
    A name without a full stop is its own extension, and a name that ends
    in a full stop has the empty extension. *)
Theorem extension_is_after_last_dot (base ext : string) :
  has_dot ext = false →
  extension (base +:+ "." +:+ ext) = Some (toLowerCase ext)
  ∧ extension ext = Some (toLowerCase ext)
  ∧ extension (base +:+ ".") = Some "".
Proof.
  intros H. unfold extension.
  change (base +:+ "." +:+ ext)
    with (base +:+ String (Ascii.Ascii false true true true false true false false) ext).
  change (base +:+ ".")
    with (base +:+ String (Ascii.Ascii false true true true false true false false) "").
  rewrite !split_dot_app, !last_split_dot_app.
  by rewrite (split_dot_dotless ext H).
Qed.

Lemma extension_is_after_last_dot_witness :
  extension ("archive.tar" +:+ "." +:+ "GZ") = Some "gz"
  ∧ extension "py" = Some "py".
Proof.
  pose proof (extension_is_after_last_dot "archive.tar" "GZ" eq_refl)
    as (H1 & _ & _).
  pose proof (extension_is_after_last_dot "" "py" eq_refl) as (_ & H2 & _).
  split; [exact H1 | exact H2].
Defined.

(** X26.  What the client's [isAcceptedFileType] lets through, the
    server's upload filter lets through as well, for the same file name and
    for the media type the browser reports (or any other, when the browser
    reports none); the two agree on every file that is judged by its
    extension.  The converse fails only for the type
    application/x-typescript, which the server alone accepts. *)
Theorem client_accepts_less_than_server (name type mimetype : string) :
  (isAcceptedFileType name type = true →
   mimetype = type ∨ type = "" →
   fileFilter name mimetype = true)
  ∧ isAcceptedFileType name "" = fileFilter name ""
  ∧ (fileFilter name type = true →
     isAcceptedFileType name type = true ∨ type = "application/x-typescript").
Proof.
  unfold isAcceptedFileType, fileFilter, includes, or_else.
  destruct (extension name) as [ext|]; simpl.
  - destruct (truthy_string ext) eqn:E; simpl; rewrite ?E; simpl.
    + split; [|split].
      * rewrite !orb_true_iff, !String.eqb_eq.
        intros H [->| ->]; [|simpl in H]; intuition congruence.
      * done.
      * rewrite !orb_true_iff, !String.eqb_eq. intuition congruence.
    + split; [|split].
      * rewrite !orb_true_iff, !String.eqb_eq.
        intros H [->| ->]; [|simpl in H]; intuition congruence.
      * done.
      * rewrite !orb_true_iff, !String.eqb_eq. intuition congruence.
  - split; [|split].
    + rewrite !orb_true_iff, !String.eqb_eq.
      intros H [->| ->]; [|simpl in H]; intuition congruence.
    + done.
    + rewrite !orb_true_iff, !String.eqb_eq. intuition congruence.
Qed.

Lemma client_accepts_less_than_server_witness :
  fileFilter "notes.MD" "application/octet-stream" = true
  ∧ fileFilter "x.bin" "application/x-typescript" = true
  ∧ isAcceptedFileType "x.bin" "application/x-typescript" = false.
Proof.
  split; [|by vm_compute].
  exact (proj1 (client_accepts_less_than_server "notes.MD" ""
                  "application/octet-stream") eq_refl (or_intror eq_refl)).
Defined.

(** X27.  The icon and the checks agree: [getFileIcon] gives the generic
    folder icon exactly for the names whose extension the upload checks
    refuse, and [fileTypeDesc] says "text" exactly for the names that get
    the text icon or the generic one. *)
Theorem icons_match_accepted_extensions (name : string) :
  (getFileIcon name = "📁"
   ↔ ∀ ext, extension name = Some ext → includes allowed_extensions ext = false)
  ∧ (fileTypeDesc name = "text"
     ↔ getFileIcon name = "📝" ∨ getFileIcon name = "📁").
Proof.
  unfold getFileIcon, fileTypeDesc, includes, allowed_extensions, or_else.
  destruct (extension name) as [ext|]; simpl.
  - assert (∀ P : string → Prop, (∀ e, Some ext = Some e → P e) ↔ P ext) as Hall.
    { intros P. split; [auto|]. by intros ? ? [= <-]. }
    rewrite Hall.
    destruct (String.eqb_spec ext "py") as [->|?]; [by vm_compute; intuition|].
    destruct (String.eqb_spec ext "js") as [->|?]; [by vm_compute; intuition|].
    destruct (String.eqb_spec ext "jsx") as [->|?]; [by vm_compute; intuition|].
    destruct (String.eqb_spec ext "ts") as [->|?]; [by vm_compute; intuition|].
    destruct (String.eqb_spec ext "tsx") as [->|?]; [by vm_compute; intuition|].
    destruct (String.eqb_spec ext "html") as [->|?]; [by vm_compute; intuition|].
    destruct (String.eqb_spec ext "css") as [->|?]; [by vm_compute; intuition|].
    destruct (String.eqb_spec ext "pdf") as [->|?]; [by vm_compute; intuition|].
    destruct (String.eqb_spec ext "txt") as [->|?]; [by vm_compute; intuition|].
    destruct (String.eqb_spec ext "md") as [->|?]; [by vm_compute; intuition|].
    simpl. rewrite !bool_decide_eq_false_2 by congruence.
    destruct (truthy_string ext); simpl.
    + repeat match goal with
             | H : ?a ≠ ?b |- context [String.eqb ?a ?b] =>
                 rewrite (proj2 (String.eqb_neq a b) H)
             end.
      simpl. intuition.
    + intuition.
  - split; [|by intuition]. split; [by intros _ ? [=]|done].
Qed.

(** * The viewer *)

Section viewer.
Implicit Types (v : ChatView) (l : list Message.t).

Lemma set_content_twice c1 c2 (m : Message.t) :
  set_content c2 (set_content c1 m) = set_content c2 m.
Proof. done. Qed.

Lemma on_frames_app fs gs v :
  on_frames (fs ++ gs) v = on_frames gs (on_frames fs v).
Proof. apply foldl_app. Qed.

Lemma on_frames_updates mid (cs : list string) v :
  on_frames (MessageUpdate mid <$> cs) v
  = {| view_messages :=
         match last cs with
         | Some c =>
             (λ oldData : list Message.t,
                (λ msg, if bool_decide (Message.id msg = mid)
                        then set_content c msg else msg) <$> oldData)
             <$> view_messages v
         | None => view_messages v
         end;
       view_invalidated := view_invalidated v |}.
Proof.
  revert v. induction cs as [|c cs IH]; intros v; [by destruct v|].
  rewrite fmap_cons.
  change (on_frames (?f :: ?fs) v) with (on_frames fs (on_frame v f)).
  rewrite IH. simpl. f_equal.
  rewrite last_cons. destruct (last cs) as [c'|]; [|done].
  destruct (view_messages v) as [l|]; [|done]. simpl. f_equal.
  rewrite <- list_fmap_compose. apply list_fmap_ext. intros i m _. simpl.
  destruct (decide (Message.id m = mid)) as [Hm|Hm].
  - rewrite !(bool_decide_eq_true_2 (Message.id m = mid)) by done.
    by rewrite ?bool_decide_eq_true_2.
  - rewrite !(bool_decide_eq_false_2 (Message.id m = mid)) by done.
    by rewrite ?bool_decide_eq_false_2.
Qed.

End viewer.

(** X28.  The frames of one exchange under the [onMessage] handler of the
    chat view.  A connection joined to the chat with an open socket is sent
    the snapshots and the terminal frame of the exchange.  Run over these
    frames in order, the handler sets the cached content of the answer to
    the last snapshot, that is the concatenation of all the texts streamed
    (it leaves the cache alone if none was), leaves every other cached
    message as it was, and invalidates the query once if the stream
    completed and not at all otherwise: a message-error frame makes the
    handler do nothing.  This is the effect of the handler only: a fetch
    that other code triggers can replace the cache at any time. *)
Theorem viewer_follows_the_stream ex (up : Upstream) st id c (v : ChatView) :
  clients st !! id = Some c →
  receives (ex_chatId ex) c = true →
  ∃ c' fs,
    clients (relay ex up st) !! id = Some c'
    ∧ sent (ws c') = sent (ws c) ++ fs
    ∧ view_invalidated (on_frames fs v)
      = (view_invalidated v + if completes up then 1 else 0)%nat
    ∧ view_messages (on_frames fs v)
      = if bool_decide (snapshots "" (chunks_of up) = [])
        then view_messages v
        else (λ oldData : list Message.t,
                (λ msg, if bool_decide (Message.id msg = ex_messageId ex)
                        then set_content
                               (concat_text (delta_text <$> chunks_of up)) msg
                        else msg) <$> oldData)
             <$> view_messages v.
Proof.
  intros Hid Hr.
  destruct (relay_emits ex up st)
    as (terminal & Hemits & Hupd & Hcomplete & Herror).
  destruct (emits_viewer _ _ _ _ _ _ Hemits Hid Hr) as (c' & Hc' & Hsent).
  exists c', ((MessageUpdate (ex_messageId ex) <$> snapshots "" (chunks_of up))
                ++ [terminal]).
  split; [done|]. split; [done|].
  rewrite on_frames_app, on_frames_updates.
  change (on_frames [terminal] ?w) with (on_frame w terminal).
  assert (match last (snapshots "" (chunks_of up)) with
          | Some c0 => c0 = concat_text (delta_text <$> chunks_of up)
          | None => snapshots "" (chunks_of up) = []
          end) as Hlast.
  { destruct (last (snapshots "" (chunks_of up))) as [c0|] eqn:E.
    - by apply last_snapshots in E.
    - by apply last_None in E. }
  destruct terminal as [? ?|? m|? m|? e]; simpl in *; try done.
  - rewrite <- Hcomplete. split; [lia|].
    destruct (last (snapshots "" (chunks_of up))) as [c0|] eqn:E.
    + subst c0. rewrite bool_decide_eq_false_2; [done|].
      intros Hnil. by rewrite Hnil in E.
    + by rewrite bool_decide_eq_true_2.
  - by destruct (completes up).
  - destruct (completes up); [done|]. split; [lia|].
    destruct (last (snapshots "" (chunks_of up))) as [c0|] eqn:E.
    + subst c0. rewrite bool_decide_eq_false_2; [done|].
      intros Hnil. by rewrite Hnil in E.
    + by rewrite bool_decide_eq_true_2.
Qed.

Lemma viewer_follows_the_stream_witness :
  ∃ c' fs,
    clients (relay Example.exchange (Streamed Example.deltas Failed)
               Example.answered) !! "a" = Some c'
    ∧ sent (ws c') = [] ++ fs
    ∧ view_invalidated
        (on_frames fs
           {| view_messages := Some [Message.mk 102 7 "" "assistant" 2 None];
              view_invalidated := 0 |}) = 0%nat
    ∧ view_messages
        (on_frames fs
           {| view_messages := Some [Message.mk 102 7 "" "assistant" 2 None];
              view_invalidated := 0 |})
      = Some [Message.mk 102 7 "Hello!" "assistant" 2 None].
Proof.
  exact (viewer_follows_the_stream Example.exchange
           (Streamed Example.deltas Failed) Example.answered "a"
           (Example.viewer OPEN (Some 7))
           {| view_messages := Some [Message.mk 102 7 "" "assistant" 2 None];
              view_invalidated := 0 |} eq_refl eq_refl).
Defined.

(** * Editing while streaming *)

(** X29.  The stream wins over an edit of the content and leaves the rest
    of an edit alone.  If the placeholder is edited by PATCH while its
    answer is streaming, the next chunk that carries text stores the
    accumulated text again, discarding the edited content, while a role or
    chat set by the edit stays; and the snapshot is still broadcast for the
    chat the message was posted to. *)
Theorem stream_overwrites_edited_content ex acc chunk b st m data :
  MemStorage.getMessage (ex_messageId ex) (storage st) = Some m →
  insertMessageSchema_partial_safeParse b = Some data →
  has_text chunk = true →
  let edited := (patchMessage (Some (ex_messageId ex)) b st).2 in
  let after := (relay_chunk ex (acc, edited) chunk).2 in
  MemStorage.messages (storage after) !! ex_messageId ex
  = Some (set_content (acc +:+ delta_text chunk)
            (MemStorage.spread_message m data))
  ∧ published_since edited after
    = [(ex_chatId ex,
        MessageUpdate (ex_messageId ex) (acc +:+ delta_text chunk))].
Proof.
  intros Hm Hd Ht.
  rewrite (patchMessage_accepted _ b st m data Hm Hd). simpl.
  rewrite relay_chunk_text by done. simpl.
  split.
  - unfold persist, MemStorage.updateMessage. simpl.
    rewrite lookup_insert_eq. simpl. apply lookup_insert_eq.
  - unfold published_since, persist, MemStorage.updateMessage. simpl.
    rewrite lookup_insert_eq. simpl. by rewrite drop_app_length.
Qed.

Lemma stream_overwrites_edited_content_witness :
  MemStorage.messages
    (storage (relay_chunk Example.exchange
                ("Hel",
                 (patchMessage (Some 102)
                    {| pb_chatId := None; pb_content := Some (JStr "edited");
                       pb_role := Some (JStr "system"); pb_files := None |}
                    Example.answered).2) (Some "lo!")).2) !! 102
  = Some (Message.mk 102 7 "Hello!" "system" 2 None).
Proof.
  exact (proj1 (stream_overwrites_edited_content Example.exchange "Hel"
                  (Some "lo!")
                  {| pb_chatId := None; pb_content := Some (JStr "edited");
                     pb_role := Some (JStr "system"); pb_files := None |}
                  Example.answered
                  (Message.mk 102 7 "" "assistant" 2 None)
                  (PartialMessage.mk None (Some "edited") (Some "system") None)
                  eq_refl eq_refl eq_refl)).
Defined.

(** * Editing a bot *)

Section patch_bot.
Implicit Types (b : BotBody) (st : Server).

Lemma safeParse_bot_None b :
  insertBotSchema_partial_safeParse b = None
  ↔ (∃ v, bb_name b = Some v ∧ as_string v = None)
    ∨ (∃ v, bb_avatar b = Some v ∧ as_string v = None)
    ∨ (∃ v, bb_color b = Some v ∧ as_string v = None)
    ∨ (∃ v, bb_description b = Some v ∧ as_nullable_string v = None)
    ∨ (∃ v, bb_model b = Some v ∧ as_string v = None).
Proof.
  unfold insertBotSchema_partial_safeParse.
  rewrite <- !parse_optional_None.
  destruct (parse_optional as_string (bb_name b)); simpl;
    [|split; [intros _; by auto | done]].
  destruct (parse_optional as_string (bb_avatar b)); simpl;
    [|split; [intros _; by auto | done]].
  destruct (parse_optional as_string (bb_color b)); simpl;
    [|split; [intros _; by auto | done]].
  destruct (parse_optional as_nullable_string (bb_description b)); simpl;
    [|split; [intros _; by auto | done]].
  destruct (parse_optional as_string (bb_model b)); simpl;
    [|split; [intros _; by auto 6 | done]].
  split; [done|]. by intros [|[|[|[|]]]].
Qed.

End patch_bot.

(** X30.  PATCH /api/bots/:id looks the bot up before it looks at the
    body: an unknown id is answered 404 whatever the body, a body with a
    key of the wrong type (a name, avatar, colour or model that is not a
    string, a description that is neither a string nor [null]) is answered
    400 for a stored bot, both without effect.  An accepted body changes exactly the keys it carries ([null]
    clears the description); the id and the creation time of the bot stay,
    and so do all other bots. *)
Theorem patch_bot_changes_carried_keys id b st :
  (MemStorage.getBot id (storage st) = None →
   patchBotRoute (Some id) b st = (Refusal 404 "Bot not found", st))
  ∧ (∀ bot,
       MemStorage.getBot id (storage st) = Some bot →
       insertBotSchema_partial_safeParse b = None →
       patchBotRoute (Some id) b st = (Refusal 400 "Invalid bot data", st))
  ∧ (∀ bot data,
       MemStorage.getBot id (storage st) = Some bot →
       insertBotSchema_partial_safeParse b = Some data →
       ∃ bot',
         (patchBotRoute (Some id) b st).1 = Json 200 (Some bot')
         ∧ MemStorage.getBot id (storage (patchBotRoute (Some id) b st).2)
           = Some bot'
         ∧ bot' = Bot.mk (Bot.id bot)
                    (default (Bot.name bot) (PartialBot.name data))
                    (default (Bot.avatar bot) (PartialBot.avatar data))
                    (default (Bot.color bot) (PartialBot.color data))
                    (default (Bot.description bot)
                       (PartialBot.description data))
                    (default (Bot.model bot) (PartialBot.model data))
                    (Bot.createdAt bot)
         ∧ ∀ id', id' ≠ id →
             MemStorage.getBot id' (storage (patchBotRoute (Some id) b st).2)
             = MemStorage.getBot id' (storage st))
  ∧ (insertBotSchema_partial_safeParse b = None
     ↔ (∃ v, bb_name b = Some v ∧ as_string v = None)
       ∨ (∃ v, bb_avatar b = Some v ∧ as_string v = None)
       ∨ (∃ v, bb_color b = Some v ∧ as_string v = None)
       ∨ (∃ v, bb_description b = Some v ∧ as_nullable_string v = None)
       ∨ (∃ v, bb_model b = Some v ∧ as_string v = None)).
Proof.
  unfold patchBotRoute. split; [by intros ->|]. split; [|split].
  - by intros bot -> ->.
  - intros bot data Hbot Hd. rewrite Hbot, Hd.
    unfold Storage.updateBot. unfold MemStorage.getBot in Hbot.
    rewrite Hbot. simpl. eexists. split; [done|].
    unfold MemStorage.getBot. simpl.
    split; [apply lookup_insert_eq|]. split; [done|].
    intros id' Hne. by rewrite lookup_insert_ne.
  - apply safeParse_bot_None.
Qed.

Lemma patch_bot_changes_carried_keys_witness :
  (patchBotRoute (Some 1)
     {| bb_name := Some (JStr "Guide"); bb_avatar := None; bb_color := None;
        bb_description := Some JNull; bb_model := None |} Example.server).1
  = Json 200 (Some (Bot.mk 1 "Guide" "H" "#0078D4" None "gpt-4o" 0))
  ∧ patchBotRoute (Some 5)
      {| bb_name := Some (JNum 3); bb_avatar := None; bb_color := None;
         bb_description := None; bb_model := None |} Example.server
    = (Refusal 404 "Bot not found", Example.server).
Proof.
  split.
  - destruct (proj1 (proj2 (proj2 (patch_bot_changes_carried_keys 1
                {| bb_name := Some (JStr "Guide"); bb_avatar := None;
                   bb_color := None; bb_description := Some JNull;
                   bb_model := None |} Example.server)))
                Example.helper
                (PartialBot.mk (Some "Guide") None None (Some None) None)
                eq_refl eq_refl) as (bot' & Hres & _ & -> & _).
    exact Hres.
  - exact (proj1 (patch_bot_changes_carried_keys 5
                    {| bb_name := Some (JNum 3); bb_avatar := None;
                       bb_color := None; bb_description := None;
                       bb_model := None |} Example.server) eq_refl).
Defined.
